(** * OGCServer request-handling core: a shallow embedding of
    [ogcserver/common.py] and the properties of its parameter validator,
    CRS value type, map builder and feature-info path.

    Python objects are embedded as follows.
    - An exception is a value of [exn]; code that may raise returns a
      [result].
    - A [dict] with string keys is a [gmap string _]; [d.items()] of a schema
      is the association list of its entries in iteration order.
    - A Python float is a primitive binary64 float, so [>=] is the IEEE
      comparison ([PrimFloat.leb] with its arguments swapped).
    - Objects that are mutated in place and shared (the caller's [params]
      dictionary, the catalog's [Layer] objects) live in an explicit store
      that the embedded functions thread. *)

From Stdlib Require Import ZArith String Ascii List Bool Floats Lia.
From stdpp Require Import base option list gmap strings pretty.

#[local] Set Warnings "-register-all".

(** ** Exceptions and results *)

(** [OGCException(message)] and [OGCException(message, code)]: the optional
    second argument is what [BaseExceptionHandler.getresponse] reads as
    [args[1]]. *)
Inductive exn : Type :=
| OGCException (message : string) (code : option string)
| ServerConfigurationError (message : string)
| KeyError (key : string)
| IndexError
| AttributeError (attribute : string)
| UnboundLocalError (variable : string)
| ValueError (message : string)
| TypeError (message : string)
| ReferenceError (object : positive).

Inductive result (A : Type) : Type :=
| Ok (a : A)
| Raise (e : exn).
Arguments Ok {A} a.
Arguments Raise {A} e.

Definition is_OGCException (e : exn) : bool :=
  match e with
  | OGCException _ _ => true
  | _ => false
  end.

Definition is_Ok {A} (r : result A) : bool :=
  match r with
  | Ok _ => true
  | Raise _ => false
  end.

(** ** Strings *)

(** The double-quote character of the message templates. *)
Definition dq : string := String "034"%char EmptyString.

(** ['"%s"' % s] *)
Definition quoted (s : string) : string := dq +:+ s +:+ dq.

(** [str.lower] and [str.upper] on one byte: only the ASCII letters move. *)
Definition lower_ascii (c : ascii) : ascii :=
  let n := N_of_ascii c in
  if ((65 <=? n) && (n <=? 90))%N then ascii_of_N (n + 32) else c.

Definition upper_ascii (c : ascii) : ascii :=
  let n := N_of_ascii c in
  if ((97 <=? n) && (n <=? 122))%N then ascii_of_N (n - 32) else c.

Fixpoint lower (s : string) : string :=
  match s with
  | EmptyString => EmptyString
  | String c s' => String (lower_ascii c) (lower s')
  end.

Fixpoint upper (s : string) : string :=
  match s with
  | EmptyString => EmptyString
  | String c s' => String (upper_ascii c) (upper s')
  end.

(** [s in seq] for a sequence of strings. *)
Definition str_in (s : string) (seq : list string) : bool :=
  bool_decide (s ∈ seq).

(** ** The object protocol used by the validator

    [processParameters] handles request values of any Python type: it only
    tests their truth value ([truth], Python's [bool(v)]), looks them up in a
    tuple ([contains t v], Python's [v in t]) and formats them into a message
    ([str], Python's ['%s' % v]). *)
Class PyObject (value : Type) : Type := {
  truth : value -> bool;
  contains : list value -> value -> bool;
  str : value -> string
}.

(** ** ParameterDefinition *)

(** The constructor's checks ([mandatory] and [fallback] are booleans,
    [cast] is callable, a non-empty [allowedvalues] is a tuple) are the types
    of the fields.  [allowedvalues = None] is Python's [None]; the other
    fields' defaults ([default=None], [fallback=False]) are supplied by the
    caller. *)
Module ParameterDefinition.
Record t (value : Type) : Type := mk {
  mandatory : bool;
  cast : value -> result value;
  default : value;
  allowedvalues : option (list value);
  fallback : bool
}.
Arguments mk {value}.
Arguments mandatory {value}.
Arguments cast {value}.
Arguments default {value}.
Arguments allowedvalues {value}.
Arguments fallback {value}.
End ParameterDefinition.

(** ** BaseServiceHandler.processParameters *)

Section ParameterValidator.
Context {value : Type} `{PyObject value}.

(** The three request errors of the validator (none carries a code). *)
Definition MissingParameter (paramname : string) : exn :=
  OGCException ("Mandatory parameter " +:+ quoted paramname +:+ " missing from request.") None.

Definition InvalidParameterValue (raw : value) (paramname : string) : exn :=
  OGCException ("Invalid value " +:+ quoted (str raw) +:+ " for parameter "
                +:+ quoted paramname +:+ ".") None.

Definition IllegalParameterValue (paramname : string) : exn :=
  OGCException ("Parameter " +:+ quoted paramname +:+ " has an illegal value.") None.

(** [k in d.keys()] *)
Definition has_key {V : Type} (d : gmap string V) (k : string) : bool :=
  match d !! k with
  | Some _ => true
  | None => false
  end.

(** The truth value of [paramdef.allowedvalues]: [None] and the empty tuple
    are both false. *)
Definition allowedvalues_truth (a : option (list value)) : bool :=
  match a with
  | None => false
  | Some [] => false
  | Some (_ :: _) => true
  end.

(** [v not in paramdef.allowedvalues], evaluated only when the tuple is
    true (the right operand of [and]). *)
Definition not_in_allowedvalues (v : value) (a : option (list value)) : bool :=
  match a with
  | None => false
  | Some t => negb (contains t v)
  end.

(** One iteration of the [for paramname, paramdef in ...items()] loop.  The
    caller's dictionary [params] is assigned in place (line 106), so the
    iteration returns the dictionary as it leaves it, also when it raises. *)
Definition processParameter (paramname : string)
    (paramdef : ParameterDefinition.t value)
    (finalparams params : gmap string value)
  : result (gmap string value) * gmap string value :=
  if negb (has_key params paramname) && ParameterDefinition.mandatory paramdef then
    (Raise (MissingParameter paramname), params)
  else
    match params !! paramname with
    | Some raw =>
        match ParameterDefinition.cast paramdef raw with
        | Raise e =>
            if is_OGCException e then (Raise e, params)
            else (Raise (InvalidParameterValue raw paramname), params)
        | Ok v =>
            let params := <[paramname := v]> params in
            if allowedvalues_truth (ParameterDefinition.allowedvalues paramdef)
               && not_in_allowedvalues v (ParameterDefinition.allowedvalues paramdef)
            then
              if negb (ParameterDefinition.fallback paramdef) then
                (Raise (IllegalParameterValue paramname), params)
              else
                (Ok (<[paramname := ParameterDefinition.default paramdef]> finalparams), params)
            else
              (Ok (<[paramname := v]> finalparams), params)
        end
    | None =>
        if negb (ParameterDefinition.mandatory paramdef)
           && truth (ParameterDefinition.default paramdef)
        then (Ok (<[paramname := ParameterDefinition.default paramdef]> finalparams), params)
        else (Ok finalparams, params)
    end.

(** The loop over the schema's items. *)
Fixpoint processItems (items : list (string * ParameterDefinition.t value))
    (finalparams params : gmap string value)
  : result (gmap string value) * gmap string value :=
  match items with
  | [] => (Ok finalparams, params)
  | (paramname, paramdef) :: rest =>
      match processParameter paramname paramdef finalparams params with
      | (Ok finalparams', params') => processItems rest finalparams' params'
      | (Raise e, params') => (Raise e, params')
      end
  end.

(** [processParameters(self, requestname, params)]: [SERVICE_PARAMS] is the
    handler's table of schemas; the second component of the result is the
    caller's [params] dictionary after the call. *)
Definition processParameters
    (SERVICE_PARAMS : gmap string (list (string * ParameterDefinition.t value)))
    (requestname : string) (params : gmap string value)
  : result (gmap string value) * gmap string value :=
  match SERVICE_PARAMS !! requestname with
  | None => (Raise (KeyError requestname), params)
  | Some schema => processItems schema ∅ params
  end.

End ParameterValidator.

(** ** A concrete universe of request values

    [None], integers and byte strings, with Python's truth values, equality
    and [str]. *)
Inductive pyval : Type :=
| PNone
| PInt (z : Z)
| PStr (s : string).

#[global] Instance pyval_eq_dec : EqDecision pyval.
Proof. solve_decision. Defined.

#[global] Instance pyval_object : PyObject pyval := {|
  truth v :=
    match v with
    | PNone => false
    | PInt z => negb (z =? 0)%Z
    | PStr s => negb (String.eqb s "")
    end;
  contains t v := bool_decide (v ∈ t);
  str v :=
    match v with
    | PNone => "None"
    | PInt z => pretty z
    | PStr s => s
    end
|}.

(** The cast [str]. *)
Definition cast_str (v : pyval) : result pyval := Ok (PStr (str v)).

(** The value of a decimal digit, and of a string of decimal digits. *)
Definition digit_value (c : ascii) : option Z :=
  let n := N_of_ascii c in
  if ((48 <=? n) && (n <=? 57))%N then Some (Z.of_N (n - 48)) else None.

Fixpoint digits_value (acc : Z) (s : string) : option Z :=
  match s with
  | EmptyString => Some acc
  | String c s' =>
      match digit_value c with
      | Some d => digits_value (10 * acc + d)%Z s'
      | None => None
      end
  end.

(** A cast callable that accepts integers and non-empty strings of ASCII
    digits and raises [ValueError] on every other string, [TypeError] on
    [None]. *)
Definition cast_digits (v : pyval) : result pyval :=
  match v with
  | PInt z => Ok (PInt z)
  | PStr EmptyString => Raise (ValueError "no digits")
  | PStr s =>
      match digits_value 0 s with
      | Some z => Ok (PInt z)
      | None => Raise (ValueError "not a digit")
      end
  | PNone => Raise (TypeError "None")
  end.

(** ** Example schemas and requests *)

(** [ParameterDefinition(False, str, 'image/png', ('image/png', 'image/jpeg'), fallback)] *)
Definition format_definition (fallback : bool) : ParameterDefinition.t pyval :=
  ParameterDefinition.mk false cast_str (PStr "image/png")
    (Some [PStr "image/png"; PStr "image/jpeg"]) fallback.

(** [ParameterDefinition(False, str, 'image/png', (), fallback)]: the
    allowed-value tuple is declared and empty. *)
Definition format_definition_empty (fallback : bool) : ParameterDefinition.t pyval :=
  ParameterDefinition.mk false cast_str (PStr "image/png") (Some []) fallback.

(** [ParameterDefinition(False, cast_digits)] and
    [ParameterDefinition(True, str)]. *)
Definition width_definition : ParameterDefinition.t pyval :=
  ParameterDefinition.mk false cast_digits PNone None false.

Definition layers_definition : ParameterDefinition.t pyval :=
  ParameterDefinition.mk true cast_str PNone None false.

(** A schema table whose [GetMap] entry iterates [width] before [layers]. *)
Definition example_SERVICE_PARAMS
  : gmap string (list (string * ParameterDefinition.t pyval)) :=
  {[ "GetMap" := [("width", width_definition); ("layers", layers_definition)] ]}.

Definition format_SERVICE_PARAMS (paramdef : ParameterDefinition.t pyval)
  : gmap string (list (string * ParameterDefinition.t pyval)) :=
  {[ "GetMap" := [("format", paramdef)] ]}.

(** Raw requests. *)
Definition gif_request : gmap string pyval := {[ "format" := PStr "image/gif" ]}.
Definition wide_request : gmap string pyval := {[ "width" := PStr "wide" ]}.
Definition width_request : gmap string pyval := {[ "width" := PStr "256" ]}.
Definition map_request : gmap string pyval :=
  {[ "width" := PStr "256"; "layers" := PStr "roads" ]}.

(** ** CRS *)

(** [proj] is the lazily created projection handle (the [+init=...] string
    it is built from); [__init__] leaves it [None] and neither [__repr__]
    nor [__eq__] reads it. *)
Module CRS.
Record t : Type := mk {
  namespace : string;
  code : Z;
  proj : option string
}.

(** [code] is an integer here, on which [int(code)] is the identity. *)
Definition __init__ (namespace : string) (code : Z) : t :=
  mk (lower namespace) code None.

(** ['%s:%s' % (self.namespace, self.code)]; the class defines no
    [__str__], so this is [str(crs)] too. *)
Definition __repr__ (self : t) : string :=
  namespace self +:+ ":" +:+ pretty (code self).

(** [str(other) == str(self)], for another CRS. *)
Definition __eq__ (self other : t) : bool :=
  String.eqb (__repr__ other) (__repr__ self).
End CRS.

(** ** Mapnik objects

    The rendering library is external; its objects are records of the
    attributes that [common.py] reads and writes. *)

(** [Color(r, g, b, a)]; a Color object is always true. *)
Module Color.
Record t : Type := mk { r : Z; g : Z; b : Z; a : Z }.
End Color.

(** A style definition of the catalog, opaque to this file. *)
Inductive Style : Type := MkStyle (rules : string).

(** [Envelope(minx, miny, maxx, maxy)] *)
Module Envelope.
Record t : Type := mk { minx : float; miny : float; maxx : float; maxy : float }.
End Envelope.

(** A [Layer] object.  [wmsdefaultstyle], [wmsextrastyles] and [meta_style]
    are attributes that the catalog sets on some layers only ([None]: the
    object has no such attribute).  [styles] is the layer's own style list,
    the one [layer.styles.append] grows. *)
Module Layer.
Record t : Type := mk {
  name : string;
  title : string;
  abstract : string;
  tolerance : float;
  toleranceunits : Z;
  srs : string;
  minzoom : float;
  maxzoom : float;
  active : bool;
  queryable : bool;
  clear_label_cache : bool;
  datasource : option positive;
  wmsdefaultstyle : option string;
  wmsextrastyles : option (list string);
  meta_style : option string;
  wms_srs : string;
  styles : list string
}.

(** [self.styles.append(stylename)] on the object's value. *)
Definition styles_append (stylename : string) (self : t) : t :=
  mk (name self) (title self) (abstract self) (tolerance self) (toleranceunits self)
     (srs self) (minzoom self) (maxzoom self) (active self) (queryable self)
     (clear_label_cache self) (datasource self) (wmsdefaultstyle self)
     (wmsextrastyles self) (meta_style self) (wms_srs self)
     (styles self ++ [stylename]).
End Layer.

(** Which of the version-dependent attributes the installed binding's
    [Layer] class has (the [hasattr(lyr, ...)] tests of [copy_layer]). *)
Module Mapnik.
Record t : Type := mk {
  has_title : bool;
  has_abstract : bool;
  has_tolerance : bool;
  has_wms_srs : bool
}.
End Mapnik.

(** [Layer(name)]: a new layer with an empty style list, no datasource and
    none of the catalog's attributes.  The other attributes get the
    constructor's defaults, which [copy_layer] overwrites wherever the
    binding has the attribute. *)
Definition Layer_new (name : string) : Layer.t :=
  Layer.mk name "" "" 0%float 0 "+proj=latlong +datum=WGS84" 0%float
    0x1.fffffffffffffp+1023%float true false false None None None None "" [].

(** [copy_layer(obj)], on the objects' values. *)
Definition copy_layer_value (mapnik : Mapnik.t) (obj : Layer.t) : Layer.t :=
  let lyr := Layer_new (Layer.name obj) in
  Layer.mk
    (Layer.name lyr)
    (if Mapnik.has_title mapnik then Layer.title obj else Layer.title lyr)
    (if Mapnik.has_abstract mapnik then Layer.abstract obj else Layer.abstract lyr)
    (if Mapnik.has_tolerance mapnik then Layer.tolerance obj else Layer.tolerance lyr)
    (if Mapnik.has_tolerance mapnik then Layer.toleranceunits obj else Layer.toleranceunits lyr)
    (Layer.srs obj)
    (Layer.minzoom obj)
    (Layer.maxzoom obj)
    (Layer.active obj)
    (Layer.queryable obj)
    (Layer.clear_label_cache obj)
    (Layer.datasource obj)
    (Layer.wmsdefaultstyle obj)
    (Layer.wmsextrastyles obj)
    (Layer.meta_style obj)
    (if Mapnik.has_wms_srs mapnik then Layer.wms_srs obj else Layer.wms_srs lyr)
    (Layer.styles lyr).

(** The map under construction.  [background] and [buffer_size] are [None]
    until assigned; [styles] is the map's style table in insertion order;
    [layers] holds the layers by value ([m.layers.append] copies the layer
    into the map); [extent] is the box given to [zoom_to_box]. *)
Module Map.
Record t : Type := mk {
  width : Z;
  height : Z;
  srs : string;
  background : option Color.t;
  buffer_size : option Z;
  styles : list (string * Style);
  layers : list Layer.t;
  extent : option Envelope.t
}.

(** [Map(width, height, srs)] *)
Definition __init__ (width height : Z) (srs : string) : t :=
  mk width height srs None None [] [] None.

Definition set_background (c : Color.t) (m : t) : t :=
  mk (width m) (height m) (srs m) (Some c) (buffer_size m) (styles m) (layers m) (extent m).

Definition set_buffer_size (n : Z) (m : t) : t :=
  mk (width m) (height m) (srs m) (background m) (Some n) (styles m) (layers m) (extent m).

(** [m.append_style(name, style)]: inserts unless the name is taken. *)
Definition append_style (stylename : string) (style : Style) (m : t) : t :=
  if bool_decide (stylename ∈ (styles m).*1) then m
  else mk (width m) (height m) (srs m) (background m) (buffer_size m)
          (styles m ++ [(stylename, style)]) (layers m) (extent m).

(** [m.layers.append(layer)] *)
Definition layers_append (layer : Layer.t) (m : t) : t :=
  mk (width m) (height m) (srs m) (background m) (buffer_size m) (styles m)
     (layers m ++ [layer]) (extent m).

Definition zoom_to_box (box : Envelope.t) (m : t) : t :=
  mk (width m) (height m) (srs m) (background m) (buffer_size m) (styles m)
     (layers m) (Some box).
End Map.

(** ** The catalog, the handler and the validated request *)

(** [self.mapfactory.map_attributes]: the keys [_buildMap] reads. *)
Module MapAttributes.
Record t : Type := mk { bgcolor : option Color.t; buffer_size : option Z }.
End MapAttributes.

(** [self.mapfactory].  The catalog's layers are objects: the tables hold
    references into the store of [Layer] objects. *)
Module MapFactory.
Record t : Type := mk {
  layers : gmap string positive;
  ordered_layers : list positive;
  meta_layers : gmap string positive;
  styles : gmap string Style;
  meta_styles : gmap string Style;
  aggregatestyles : gmap string (list string);
  map_attributes : MapAttributes.t
}.
End MapFactory.

Module WMSBaseServiceHandler.
Record t : Type := mk {
  mapnik : Mapnik.t;
  allowedepsgcodes : list string;
  mapfactory : MapFactory.t
}.
End WMSBaseServiceHandler.

(** The [params] dictionary that [_buildMap] and [GetFeatureInfo] receive:
    each key is absent ([None]) or holds a value of the type its cast
    produces.  [bgcolor] may hold Python's [None] (the inner option). *)
Module Params.
Record t : Type := mk {
  crs : option CRS.t;
  bbox : option (list float);
  width : option Z;
  height : option Z;
  transparent : option string;
  bgcolor : option (option Color.t);
  buffer_size : option Z;
  layers : option (list string);
  styles : option (list string);
  query_layers : option (list string);
  info_format : option string;
  i : option Z;
  j : option Z
}.
End Params.

(** ** The store of Layer objects

    A computation reads and writes the store and returns a value or raises;
    the store it leaves is kept in both cases.  [ReferenceError] stands for
    the use of a reference that the store does not hold, which no catalog
    whose references are allocated leads to. *)
Definition M (A : Type) : Type :=
  gmap positive Layer.t -> result A * gmap positive Layer.t.

Definition ret {A} (a : A) : M A := fun h => (Ok a, h).

Definition raise {A} (e : exn) : M A := fun h => (Raise e, h).

Definition bind {A B} (m : M A) (k : A -> M B) : M B :=
  fun h =>
    match m h with
    | (Ok a, h') => k a h'
    | (Raise e, h') => (Raise e, h')
    end.

Notation "'let!' x ':=' m 'in' k" := (bind m (fun x => k))
  (at level 10, x name, m at level 100, k at level 200).
Notation "m ';;' k" := (bind m (fun _ => k))
  (at level 100, k at level 200, right associativity).

(** [for x in xs: acc = body(acc, x)] *)
Fixpoint for_each {A B} (xs : list A) (body : B -> A -> M B) (acc : B) : M B :=
  match xs with
  | [] => ret acc
  | x :: xs' => let! acc' := body acc x in for_each xs' body acc'
  end.

(** [enumerate(xs)], counting from [start]. *)
Fixpoint enumerate_from {A} (start : nat) (xs : list A) : list (nat * A) :=
  match xs with
  | [] => []
  | x :: xs' => (start, x) :: enumerate_from (S start) xs'
  end.

Definition enumerate {A} (xs : list A) : list (nat * A) := enumerate_from 0 xs.

(** [d[key]] for a key of the request, [xs[index]] for a list. *)
Definition getitem {A} (key : string) (entry : option A) : M A :=
  match entry with
  | Some a => ret a
  | None => raise (KeyError key)
  end.

Definition getindex {A} (xs : list A) (index : nat) : M A :=
  match xs !! index with
  | Some a => ret a
  | None => raise IndexError
  end.

(** [obj.attribute] for an attribute that the object may lack. *)
Definition getattr {A} (attribute : string) (entry : option A) : M A :=
  match entry with
  | Some a => ret a
  | None => raise (AttributeError attribute)
  end.

(** Reading a Layer object, allocating one, and [layer.styles.append]. *)
Definition get_layer (layer : positive) : M Layer.t :=
  fun h =>
    match h !! layer with
    | Some lyr => (Ok lyr, h)
    | None => (Raise (ReferenceError layer), h)
    end.

Definition new_layer (lyr : Layer.t) : M positive :=
  fun h => let layer := fresh (dom h) in (Ok layer, <[layer := lyr]> h).

Definition styles_append (layer : positive) (stylename : string) : M unit :=
  fun h =>
    match h !! layer with
    | Some lyr => (Ok tt, <[layer := Layer.styles_append stylename lyr]> h)
    | None => (Raise (ReferenceError layer), h)
    end.

(** [copy_layer(obj)]: a new object, built from the attributes of [obj]. *)
Definition copy_layer (mapnik : Mapnik.t) (obj : positive) : M positive :=
  let! o := get_layer obj in
  new_layer (copy_layer_value mapnik o).

(** ** WMSBaseServiceHandler._buildMap *)

(** The request errors of the map builder, with the code each carries. *)
Definition UnsupportedCRS (crs : CRS.t) : exn :=
  OGCException ("Unsupported CRS " +:+ quoted (upper (CRS.__repr__ crs)) +:+ " requested.")
    (Some "InvalidCRS").

Definition InvalidBBox_x : exn :=
  OGCException "BBOX values don't make sense.  minx is greater than maxx." None.

Definition InvalidBBox_y : exn :=
  OGCException "BBOX values don't make sense.  miny is greater than maxy." None.

Definition is_InvalidBBox (e : exn) : Prop := e = InvalidBBox_x \/ e = InvalidBBox_y.

Definition LayerNotDefined (layername : string) : exn :=
  OGCException ("Layer " +:+ quoted layername +:+ " not defined.") (Some "LayerNotDefined").

Definition StyleNotDefined (reqstyle layername : string) : exn :=
  OGCException ("Invalid style " +:+ quoted reqstyle +:+ " requested for layer "
                +:+ quoted layername +:+ ".") (Some "StyleNotDefined").

Definition UndefinedStyle (layername stylename : string) : exn :=
  ServerConfigurationError ("Layer " +:+ quoted layername
    +:+ " refers to non-existent style " +:+ quoted stylename +:+ ".").

(** [a >= b] on floats. *)
Definition float_ge (a b : float) : bool := PrimFloat.leb b a.

Section BuildMap.
Variable self : WMSBaseServiceHandler.t.
Variable params : Params.t.

Let mapfactory := WMSBaseServiceHandler.mapfactory self.
Let mapnik := WMSBaseServiceHandler.mapnik self.

(** Lines 364-369: the CRS check, then the two bounding-box checks. *)
Definition check_crs_bbox : M unit :=
  let! crs := getitem "crs" (Params.crs params) in
  if negb (str_in (CRS.__repr__ crs) (WMSBaseServiceHandler.allowedepsgcodes self))
  then raise (UnsupportedCRS crs)
  else
    let! bbox := getitem "bbox" (Params.bbox params) in
    let! minx := getindex bbox 0 in
    let! maxx := getindex bbox 2 in
    if float_ge minx maxx then raise InvalidBBox_x
    else
      let! miny := getindex bbox 1 in
      let! maxy := getindex bbox 3 in
      if float_ge miny maxy then raise InvalidBBox_y
      else ret tt.

(** Line 376. *)
Definition new_map : M Map.t :=
  let! width := getitem "width" (Params.width params) in
  let! height := getitem "height" (Params.height params) in
  let! crs := getitem "crs" (Params.crs params) in
  ret (Map.__init__ width height ("+init=" +:+ CRS.__repr__ crs)).

(** Lines 378-384. *)
Definition set_map_background (m : Map.t) : M Map.t :=
  match Params.transparent params with
  | Some transparent =>
      if str_in transparent ["FALSE"; "False"; "false"] then
        let! bgcolor := getitem "bgcolor" (Params.bgcolor params) in
        match bgcolor with
        | Some color => ret (Map.set_background color m)
        | None => ret m
        end
      else ret (Map.set_background (Color.mk 0 0 0 0) m)
  | None =>
      match MapAttributes.bgcolor (MapFactory.map_attributes mapfactory) with
      | Some color => ret (Map.set_background color m)
      | None => ret (Map.set_background (Color.mk 0 0 0 0) m)
      end
  end.

(** Lines 386-392: an integer is true when it is not zero. *)
Definition set_map_buffer_size (m : Map.t) : M Map.t :=
  match Params.buffer_size params with
  | Some buffer_size =>
      if negb (buffer_size =? 0)%Z then ret (Map.set_buffer_size buffer_size m)
      else ret m
  | None =>
      match MapAttributes.buffer_size (MapFactory.map_attributes mapfactory) with
      | Some buffer_ =>
          if negb (buffer_ =? 0)%Z then ret (Map.set_buffer_size buffer_ m)
          else ret m
      | None => ret m
      end
  end.

(** [m.layers.append(layer)]: the map receives the object's current value. *)
Definition map_layers_append (layer : positive) (m : Map.t) : M Map.t :=
  let! lyr := get_layer layer in
  ret (Map.layers_append lyr m).

(** Lines 416-420 and 447-451: the requested style, with an aggregate
    style replaced by its members, appended to the layer's style list. *)
Definition append_requested_style (layer : positive) (reqstyle : string) : M unit :=
  match MapFactory.aggregatestyles mapfactory !! reqstyle with
  | Some members =>
      for_each members (fun _ stylename => styles_append layer stylename) tt
  | None => styles_append layer reqstyle
  end.

(** Lines 397-404: one catalog layer in the overlay mode. *)
Definition overlay_layer (m : Map.t) (layer_obj : positive) : M Map.t :=
  let! layer := copy_layer mapnik layer_obj in
  let! lyr := get_layer layer in
  match Layer.meta_style lyr with
  | None => ret m
  | Some meta_style =>
      styles_append layer meta_style ;;
      let! style := getitem meta_style (MapFactory.meta_styles mapfactory !! meta_style) in
      map_layers_append layer (Map.append_style meta_style style m)
  end.

(** Lines 408-424: one catalog layer in the [__all__] mode. *)
Definition all_layer (m : Map.t) (layer_obj : positive) : M Map.t :=
  let! layer := copy_layer mapnik layer_obj in
  let! lyr := get_layer layer in
  match Layer.meta_style lyr with
  | Some _ => ret m
  | None =>
      let! reqstyle := getattr "wmsdefaultstyle" (Layer.wmsdefaultstyle lyr) in
      append_requested_style layer reqstyle ;;
      let! lyr := get_layer layer in
      let! m :=
        for_each (Layer.styles lyr)
          (fun m stylename =>
             match MapFactory.styles mapfactory !! stylename with
             | Some style => ret (Map.append_style stylename style m)
             | None => ret m
             end) m in
      map_layers_append layer m
  end.

(** Lines 447-459: the resolved style is appended to the layer's style
    list, every style of the list is registered on the map, and the layer
    is appended to the map. *)
Definition style_layer (layer : positive) (layername reqstyle : string) (m : Map.t)
  : M Map.t :=
  append_requested_style layer reqstyle ;;
  let! lyr := get_layer layer in
  let! m :=
    for_each (Layer.styles lyr)
      (fun m stylename =>
         match MapFactory.styles mapfactory !! stylename with
         | Some style => ret (Map.append_style stylename style m)
         | None => raise (UndefinedStyle layername stylename)
         end) m in
  map_layers_append layer m.

(** Lines 426-459: one requested layer in the explicit mode. *)
Definition explicit_layer (m : Map.t) (entry : nat * string) : M Map.t :=
  let (layerindex, layername) := entry in
  match MapFactory.meta_layers mapfactory !! layername with
  | Some meta_layer =>
      let! layer := copy_layer mapnik meta_layer in
      styles_append layer layername ;;
      let! style := getitem layername (MapFactory.meta_styles mapfactory !! layername) in
      map_layers_append layer (Map.append_style layername style m)
  | None =>
      let! layer :=
        match MapFactory.layers mapfactory !! layername with
        | Some layer_obj => copy_layer mapnik layer_obj
        | None => raise (LayerNotDefined layername)
        end in
      let! styles := getitem "styles" (Params.styles params) in
      let reqstyle :=
        match styles !! layerindex with
        | Some reqstyle => reqstyle
        | None => ""
        end in
      let! lyr := get_layer layer in
      (if negb (String.eqb reqstyle "") then
         let! wmsextrastyles := getattr "wmsextrastyles" (Layer.wmsextrastyles lyr) in
         if negb (str_in reqstyle wmsextrastyles)
         then raise (StyleNotDefined reqstyle layername)
         else ret tt
       else ret tt) ;;
      let! reqstyle :=
        if String.eqb reqstyle ""
        then getattr "wmsdefaultstyle" (Layer.wmsdefaultstyle lyr)
        else ret reqstyle in
      style_layer layer layername reqstyle m
  end.

(** Lines 396-459: the three modes, tested in order. *)
Definition resolve_layers (m : Map.t) : M Map.t :=
  let! layers := getitem "layers" (Params.layers params) in
  match layers with
  | first :: _ =>
      if str_in first ["osm_haiti_overlay"; "osm_haiti_overlay_900913"] then
        for_each (MapFactory.ordered_layers mapfactory) overlay_layer m
      else if String.eqb first "__all__" then
        for_each (MapFactory.ordered_layers mapfactory) all_layer m
      else
        for_each (enumerate layers) explicit_layer m
  | [] => for_each (enumerate layers) explicit_layer m
  end.

(** The third mode is the one taken: the list is empty or its first name
    is none of the sentinels. *)
Definition explicit_mode (layers : list string) : bool :=
  match layers with
  | [] => true
  | first :: _ =>
      negb (str_in first ["osm_haiti_overlay"; "osm_haiti_overlay_900913"])
      && negb (String.eqb first "__all__")
  end.

(** Line 460. *)
Definition zoom_to_bbox (m : Map.t) : M Map.t :=
  let! bbox := getitem "bbox" (Params.bbox params) in
  let! minx := getindex bbox 0 in
  let! miny := getindex bbox 1 in
  let! maxx := getindex bbox 2 in
  let! maxy := getindex bbox 3 in
  ret (Map.zoom_to_box (Envelope.mk minx miny maxx maxy) m).

Definition _buildMap : M Map.t :=
  check_crs_bbox ;;
  let! m := new_map in
  let! m := set_map_background m in
  let! m := set_map_buffer_size m in
  let! m := resolve_layers m in
  zoom_to_bbox m.

End BuildMap.

(** ** Response and the feature-info writers *)

Module Response.
Record t : Type := mk { content_type : string; content : string }.
End Response.

(** The newline character. *)
Definition nl : string := String "010"%char EmptyString.

(** A feature as the writers see it: its properties in order, each a name
    and the text that [str(value)] (or [unicode(value)]) gives for its
    value. *)
Definition Feature : Type := list (string * string).

Module TextFeatureInfo.
Record t : Type := mk { buffer : string }.

Definition __init__ : t := mk "".

Definition addlayer (self : t) (name : string) : t :=
  mk (buffer self +:+ nl +:+ "[" +:+ name +:+ "]" +:+ nl).

Definition addfeature (self : t) : t := self.

Definition addattribute (self : t) (name value : string) : t :=
  mk (buffer self +:+ name +:+ "=" +:+ value +:+ nl).

Definition __str__ (self : t) : string := buffer self.
End TextFeatureInfo.

(** An element of the XML tree: tag, attributes, text, children. *)
Inductive Element : Type :=
| MkElement (tag : string) (attrib : list (string * string))
            (text : option string) (children : list Element).

Definition Element_tag (e : Element) : string :=
  match e with MkElement tag _ _ _ => tag end.

Definition Element_children (e : Element) : list Element :=
  match e with MkElement _ _ _ children => children end.

(** [e.append(child)] *)
Definition Element_append (child : Element) (e : Element) : Element :=
  match e with
  | MkElement tag attrib text children => MkElement tag attrib text (children ++ [child])
  end.

(** Replaces the child at [index] by its image under [f]. *)
Definition Element_alter_child (f : Element -> Element) (index : nat) (e : Element) : Element :=
  match e with
  | MkElement tag attrib text children => MkElement tag attrib text (alter f index children)
  end.

(** The writer holds references to elements of its own tree: [currentlayer]
    is the position of a child of the root, [currentfeature] the position of
    a layer and of a feature under it.  The tree only grows, so positions
    keep denoting the same elements. *)
Module XMLFeatureInfo.
Record t : Type := mk {
  rootelement : Element;
  currentlayer : option nat;
  currentfeature : option (nat * nat)
}.

(** [ElementTree.fromstring(basexml)]: the [resultset] element, whose text
    is the line break and indentation before its closing tag. *)
Definition basexml_root : Element :=
  MkElement "resultset" [] (Some (nl +:+ "    ")) [].

Definition __init__ : t := mk basexml_root None None.

Definition addlayer (self : t) (name : string) : t :=
  let layer := MkElement "layer" [("name", name)] None [] in
  mk (Element_append layer (rootelement self))
     (Some (length (Element_children (rootelement self))))
     (currentfeature self).

Definition addfeature (self : t) : result t :=
  match currentlayer self with
  | None => Raise (AttributeError "currentlayer")
  | Some l =>
      let feature := MkElement "feature" [] None [] in
      let position :=
        match Element_children (rootelement self) !! l with
        | Some layer => length (Element_children layer)
        | None => 0
        end in
      Ok (mk (Element_alter_child (Element_append feature) l (rootelement self))
             (currentlayer self)
             (Some (l, position)))
  end.

Definition addattribute (self : t) (name value : string) : result t :=
  match currentfeature self with
  | None => Raise (AttributeError "currentfeature")
  | Some (l, f) =>
      let attname := MkElement "name" [] (Some name) [] in
      let attvalue := MkElement "value" [] (Some value) [] in
      let attribute := MkElement "attribute" [] None [attname; attvalue] in
      Ok (mk (Element_alter_child
                (Element_alter_child (Element_append attribute) f) l (rootelement self))
             (currentlayer self)
             (currentfeature self))
  end.

(** ['<?xml version="1.0"?>\n' + ElementTree.tostring(self.rootelement)];
    the serializer belongs to the XML library. *)
Definition __str__ (tostring : Element -> string) (self : t) : string :=
  "<?xml version=" +:+ quoted "1.0" +:+ "?>" +:+ nl +:+ tostring (rootelement self).
End XMLFeatureInfo.

(** The local variable [writer]. *)
Inductive Writer : Type :=
| TextWriter (w : TextFeatureInfo.t)
| XMLWriter (w : XMLFeatureInfo.t).

(** ** WMSBaseServiceHandler.GetFeatureInfo *)

Definition LayerNotQueryable (layername : string) : exn :=
  OGCException ("Requested query layer " +:+ quoted layername +:+ " is not marked queryable.")
    (Some "LayerNotQueryable").

Definition LayerNotInRequest (layername : string) : exn :=
  OGCException ("Requested query layer " +:+ quoted layername +:+ " not in the LAYERS parameter.")
    None.

Definition lift {A} (r : result A) : M A :=
  match r with
  | Ok a => ret a
  | Raise e => raise e
  end.

(** A use of the variable [writer], which is bound only when [info_format]
    is one of the two known formats. *)
Definition use_writer (writer : option Writer) : M Writer :=
  match writer with
  | Some w => ret w
  | None => raise (UnboundLocalError "writer")
  end.

Definition writer_addlayer (writer : option Writer) (name : string) : M (option Writer) :=
  let! w := use_writer writer in
  match w with
  | TextWriter t => ret (Some (TextWriter (TextFeatureInfo.addlayer t name)))
  | XMLWriter x => ret (Some (XMLWriter (XMLFeatureInfo.addlayer x name)))
  end.

Definition writer_addfeature (writer : option Writer) : M (option Writer) :=
  let! w := use_writer writer in
  match w with
  | TextWriter t => ret (Some (TextWriter (TextFeatureInfo.addfeature t)))
  | XMLWriter x => let! x' := lift (XMLFeatureInfo.addfeature x) in ret (Some (XMLWriter x'))
  end.

Definition writer_addattribute (writer : option Writer) (name value : string)
  : M (option Writer) :=
  let! w := use_writer writer in
  match w with
  | TextWriter t => ret (Some (TextWriter (TextFeatureInfo.addattribute t name value)))
  | XMLWriter x =>
      let! x' := lift (XMLFeatureInfo.addattribute x name value) in ret (Some (XMLWriter x'))
  end.

(** [str(writer)] *)
Definition writer_str (tostring : Element -> string) (w : Writer) : string :=
  match w with
  | TextWriter t => TextFeatureInfo.__str__ t
  | XMLWriter x => XMLFeatureInfo.__str__ tostring x
  end.

(** Lines 328-337 and 347-356: the block written for one queried layer;
    nothing is written when the query returned no feature.  Both branches
    of the [mapnik_version()] test iterate the feature's properties. *)
Definition write_features (writer : option Writer) (name : string)
    (features : list Feature) : M (option Writer) :=
  match features with
  | [] => ret writer
  | _ :: _ =>
      let! writer := writer_addlayer writer name in
      for_each features
        (fun writer feat =>
           let! writer := writer_addfeature writer in
           for_each feat
             (fun writer prop => writer_addattribute writer (fst prop) (snd prop))
             writer)
        writer
  end.

Section GetFeatureInfo.
Variable self : WMSBaseServiceHandler.t.
Variable params : Params.t.

(** [getattr(m, querymethodname)(layerindex, i, j).features]: the point
    query of the rendering library. *)
Variable querymethod : Map.t -> nat -> Z -> Z -> list Feature.
Variable tostring : Element -> string.

(** The point query on layer [layerindex] of [m]; the state carries the
    writer and, in call order, the layer indexes queried so far. *)
Definition query_layer (m : Map.t) (layerindex : nat) (name : string)
    (state : option Writer * list nat) : M (option Writer * list nat) :=
  let! i := getitem "i" (Params.i params) in
  let! j := getitem "j" (Params.j params) in
  let features := querymethod m layerindex i j in
  let! writer := write_features (fst state) name features in
  ret (writer, snd state ++ [layerindex]).

(** Lines 325-337: one layer of the map in the [__all__] mode. *)
Definition query_all_layer (m : Map.t) (state : option Writer * list nat)
    (entry : nat * Layer.t) : M (option Writer * list nat) :=
  let (layerindex, layer) := entry in
  query_layer m layerindex (Layer.name layer) state.

(** Lines 339-360: one name of [query_layers]. *)
Definition query_named_layer (m : Map.t) (state : option Writer * list nat)
    (entry : nat * string) : M (option Writer * list nat) :=
  let (layerindex, layername) := entry in
  let! layers := getitem "layers" (Params.layers params) in
  if str_in layername layers then
    let! layer := getindex (Map.layers m) layerindex in
    if Layer.queryable layer then
      query_layer m layerindex (Layer.name layer) state
    else raise (LayerNotQueryable layername)
  else raise (LayerNotInRequest layername).

(** The result pairs the response with the layer indexes that were
    point-queried, in call order. *)
Definition GetFeatureInfo : M (Response.t * list nat) :=
  let! m := _buildMap self params in
  let! info_format := getitem "info_format" (Params.info_format params) in
  let writer :=
    if String.eqb info_format "text/plain" then Some (TextWriter TextFeatureInfo.__init__)
    else if String.eqb info_format "text/xml" then Some (XMLWriter XMLFeatureInfo.__init__)
    else None in
  let! query_layers := getitem "query_layers" (Params.query_layers params) in
  let! state :=
    match query_layers with
    | first :: _ =>
        if String.eqb first "__all__" then
          for_each (enumerate (Map.layers m)) (query_all_layer m) (writer, [])
        else
          for_each (enumerate query_layers) (query_named_layer m) (writer, [])
    | [] => for_each (enumerate query_layers) (query_named_layer m) (writer, [])
    end in
  let! w := use_writer (fst state) in
  ret (Response.mk info_format (writer_str tostring w), snd state).

End GetFeatureInfo.

(** ** An example catalog and requests *)

(** Two catalog layers: [roads] is queryable and allows the extra style
    [night]; [rivers] is not queryable and allows no extra style. *)
Definition roads_layer : Layer.t :=
  Layer.mk "roads" "Roads" "" 0%float 0 "+init=epsg:4326" 0%float 1000%float
    true true false (Some 1%positive) (Some "default") (Some ["night"]) None "" [].

Definition rivers_layer : Layer.t :=
  Layer.mk "rivers" "Rivers" "" 0%float 0 "+init=epsg:4326" 0%float 1000%float
    true false false (Some 2%positive) (Some "blue") (Some []) None "" [].

Definition example_store : gmap positive Layer.t :=
  {[ 1%positive := roads_layer; 2%positive := rivers_layer ]}.

Definition example_mapfactory : MapFactory.t :=
  MapFactory.mk
    {[ "roads" := 1%positive; "rivers" := 2%positive ]}
    [1%positive; 2%positive]
    ∅
    {[ "default" := MkStyle "line"; "night" := MkStyle "dark line"; "blue" := MkStyle "blue line" ]}
    ∅
    ∅
    (MapAttributes.mk None None).

Definition example_handler : WMSBaseServiceHandler.t :=
  WMSBaseServiceHandler.mk (Mapnik.mk true true true true) ["epsg:4326"] example_mapfactory.

(** A validated request for [layers] with [styles] in the given CRS and
    bounding box, 256 by 256, optionally with [transparent] and [bgcolor],
    no [buffer_size], and a plain-text feature-info query of
    [query_layers] at pixel (10, 20). *)
Definition example_params (crs : CRS.t) (bbox : list float)
    (transparent : option string) (bgcolor : option (option Color.t))
    (layers styles query_layers : list string) : Params.t :=
  Params.mk (Some crs) (Some bbox) (Some 256%Z) (Some 256%Z) transparent bgcolor None
    (Some layers) (Some styles) (Some query_layers) (Some "text/plain")
    (Some 10%Z) (Some 20%Z).

Definition epsg4326 : CRS.t := CRS.__init__ "EPSG" 4326.
Definition world_bbox : list float := [(-180)%float; (-90)%float; 180%float; 90%float].

(** A point query that finds one feature on layer 0 and none elsewhere. *)
Definition example_querymethod (m : Map.t) (layerindex : nat) (i j : Z) : list Feature :=
  match layerindex with
  | 0 => [[("name", "Main Street")]]
  | _ => []
  end.

(** A point query that finds nothing. *)
Definition empty_querymethod (m : Map.t) (layerindex : nat) (i j : Z) : list Feature := [].

(** A stand-in for the XML library's serializer: the root's tag only. *)
Definition example_tostring (e : Element) : string := "<" +:+ Element_tag e +:+ "/>".

(** The map as line 376 creates it for the example requests. *)
Definition example_new_map : Map.t := Map.__init__ 256 256 "+init=epsg:4326".

Definition red : Color.t := Color.mk 255 0 0 255.

(** [minx == maxx]. *)
Definition flat_bbox : list float := [0%float; 0%float; 0%float; 10%float].

Definition flat_request : Params.t :=
  example_params epsg4326 flat_bbox None None ["roads"] [""] [].

(** [roads] with no style given, then a layer the catalog does not have. *)
Definition unknown_layer_request : Params.t :=
  example_params epsg4326 world_bbox None None ["roads"; "nosuch"] [""] [].

(** [roads] with a style it does not allow, then a layer the catalog does
    not have. *)
Definition bad_style_then_unknown_layer_request : Params.t :=
  example_params epsg4326 world_bbox None None ["roads"; "nosuch"] ["bad"] [].

(** A layer the catalog does not have, then [roads] with a style it does
    not allow. *)
Definition unknown_layer_then_bad_style_request : Params.t :=
  example_params epsg4326 world_bbox None None ["nosuch"; "roads"] [""; "bad"] [].




(** Both layers requested; the feature-info query names [rivers] only. *)
Definition query_rivers_request : Params.t :=
  example_params epsg4326 world_bbox None None ["roads"; "rivers"] [""; ""] ["rivers"].

Definition query_roads_request : Params.t :=
  example_params epsg4326 world_bbox None None ["roads"; "rivers"] [""; ""] ["roads"].

(** ** Vocabulary of the properties *)

(** [modifies_only own m]: whatever the store, [m] leaves every object that
    exists and is not in [own] as it is. *)
Definition modifies_only {A} (own : positive -> Prop) (m : M A) : Prop :=
  forall h l v, ~ own l -> h !! l = Some v -> snd (m h) !! l = Some v.

Definition nothing : positive -> Prop := fun _ => False.

(** The point query on a layer of [m] at the request's pixel finds nothing. *)
Definition no_feature (params : Params.t)
    (querymethod : Map.t -> nat -> Z -> Z -> list Feature) (m : Map.t)
    (layerindex : nat) : Prop :=
  forall i j, Params.i params = Some i -> Params.j params = Some j ->
    querymethod m layerindex i j = [].

(** What a loop iteration of either feature-info mode does to the state
    when it succeeds: it logs one layer index, and writes nothing if the
    query on that layer found nothing. *)
Definition logs_one_query (params : Params.t)
    (querymethod : Map.t -> nat -> Z -> Z -> list Feature) (m : Map.t) {A}
    (body : option Writer * list nat -> A -> M (option Writer * list nat)) : Prop :=
  forall state x h state' h', body state x h = (Ok state', h') ->
    exists layerindex, snd state' = snd state ++ [layerindex] /\
      (no_feature params querymethod m layerindex -> fst state' = fst state).

(** ** String splitting and ListFactory *)

(** [s.split(sep)] for a one-character separator: the pieces between the
    separators, empty pieces included; never the empty list. *)
Fixpoint str_split (sep : ascii) (s : string) : list string :=
  match s with
  | EmptyString => [EmptyString]
  | String c s' =>
      if Ascii.eqb c sep then EmptyString :: str_split sep s'
      else
        match str_split sep s' with
        | piece :: pieces => String c piece :: pieces
        | [] => [String c EmptyString]
        end
  end.

(** [sep.join(pieces)] *)
Fixpoint str_join (sep : ascii) (pieces : list string) : string :=
  match pieces with
  | [] => EmptyString
  | [piece] => piece
  | piece :: rest => piece +:+ String sep (str_join sep rest)
  end.

(** The number of occurrences of a character, and its absence. *)
Fixpoint str_count (c : ascii) (s : string) : nat :=
  match s with
  | EmptyString => 0
  | String c' s' => (if Ascii.eqb c' c then 1 else 0) + str_count c s'
  end.

(** [map(f, seq)] for a function that may raise: the elements are converted
    in order and the first exception ends the conversion. *)
Fixpoint map_result {A B} (f : A -> result B) (seq : list A) : result (list B) :=
  match seq with
  | [] => Ok []
  | x :: seq' =>
      match f x with
      | Raise e => Raise e
      | Ok y =>
          match map_result f seq' with
          | Raise e => Raise e
          | Ok ys => Ok (y :: ys)
          end
      end
  end.

(** [ListFactory(cast)(string)] *)
Definition ListFactory {A} (cast : string -> result A) (string : string)
  : result (list A) :=
  let seq := str_split ","%char string in
  map_result cast seq.

(** ** CRSFactory *)

(** The character classes [[A-Z]] and [\d] of the patterns (on byte strings
    [\d] is [[0-9]]). *)
Definition is_upper (c : ascii) : bool :=
  let n := N_of_ascii c in ((65 <=? n) && (n <=? 90))%N.

Definition is_digit (c : ascii) : bool :=
  let n := N_of_ascii c in ((48 <=? n) && (n <=? 57))%N.

(** The longest prefix of characters of a class, and what follows it. *)
Fixpoint span (p : ascii -> bool) (s : string) : string * string :=
  match s with
  | EmptyString => (EmptyString, EmptyString)
  | String c s' =>
      if p c then let (prefix, rest) := span p s' in (String c prefix, rest)
      else (EmptyString, s)
  end.

Fixpoint str_all (p : ascii -> bool) (s : string) : bool :=
  match s with
  | EmptyString => true
  | String c s' => p c && str_all p s'
  end.

(** [$] matches at the end of the string and before a line break that ends
    the string. *)
Definition at_end (s : string) : bool := String.eqb s "" || String.eqb s nl.

(** [re.match('^[A-Z]{3,5}:\d+$', s)]: three to five capitals, a colon, one
    or more digits, the end.  The capitals and the digits are the longest
    runs: the character after the capitals must be the colon, and the one
    after the digits must be the end. *)
Definition crs_pattern (s : string) : bool :=
  let (capitals, rest) := span is_upper s in
  (3 <=? String.length capitals) && (String.length capitals <=? 5) &&
  match rest with
  | String ":" rest' =>
      let (digits, tail) := span is_digit rest' in
      negb (String.eqb digits "") && at_end tail
  | _ => false
  end.

(** [int(code)] for what the pattern lets through: decimal digits, which
    [int] reads in base ten, and possibly a final line break, which [int]
    strips. *)
Definition int_of_decimal (code : string) : Z :=
  match digits_value 0 (fst (span is_digit code)) with
  | Some z => z
  | None => 0%Z
  end.

Definition InvalidCRS_format (crsstring : string) : exn :=
  OGCException ("Invalid format for the CRS parameter: " +:+ crsstring) (Some "InvalidCRS").

Definition InvalidCRS_namespace (namespace : string) : exn :=
  OGCException ("Invalid CRS Namespace: " +:+ namespace) (Some "InvalidCRS").

(** [CRSFactory(allowednamespaces)(crsstring)] *)
Definition CRSFactory (allowednamespaces : list string) (crsstring : string)
  : result CRS.t :=
  if negb (crs_pattern crsstring) then Raise (InvalidCRS_format crsstring)
  else
    match str_split ":"%char crsstring with
    | [] => Raise IndexError
    | namespace :: crsparts =>
        if str_in namespace allowednamespaces then
          match crsparts with
          | code :: _ => Ok (CRS.__init__ namespace (int_of_decimal code))
          | [] => Raise IndexError
          end
        else Raise (InvalidCRS_namespace namespace)
    end.

(** ** ColorFactory *)

(** The class [[a-fA-F0-9]] and the value of a hexadecimal digit. *)
Definition hex_value (c : ascii) : option Z :=
  let n := N_of_ascii c in
  if ((48 <=? n) && (n <=? 57))%N then Some (Z.of_N (n - 48))
  else if ((65 <=? n) && (n <=? 70))%N then Some (Z.of_N (n - 55))
  else if ((97 <=? n) && (n <=? 102))%N then Some (Z.of_N (n - 87))
  else None.

Definition is_hex (c : ascii) : bool :=
  match hex_value c with
  | Some _ => true
  | None => false
  end.

(** [re.match('^0x[a-fA-F0-9]{6}$', s)]: the two characters [0x], exactly
    six hexadecimal digits, the end. *)
Definition color_pattern (s : string) : bool :=
  match s with
  | String "0" (String "x" rest) =>
      let (digits, tail) := span is_hex rest in
      (String.length digits =? 6) && at_end tail
  | _ => false
  end.

(** [eval('0x' + pair)] for a pair of hexadecimal digits. *)
Definition eval_hex_pair (pair : string) : Z :=
  match pair with
  | String h (String l _) =>
      match hex_value h, hex_value l with
      | Some a, Some b => (16 * a + b)%Z
      | _, _ => 0%Z
      end
  | _ => 0%Z
  end.

Definition InvalidColor : exn :=
  OGCException ("Invalid color value. Must be of format " +:+ quoted "0xFFFFFF"
                +:+ ", or any format acceptable my mapnik.Color()") None.

(** [ColorFactory(colorstring)].  [Color_of_string] is the rendering
    library's [Color(colorstring)], [None] when it raises; [Color(r, g, b)]
    is opaque (alpha 255). *)
Definition ColorFactory (Color_of_string : string -> option Color.t)
    (colorstring : string) : result Color.t :=
  if color_pattern colorstring then
    Ok (Color.mk (eval_hex_pair (String.substring 2 2 colorstring))
                 (eval_hex_pair (String.substring 4 2 colorstring))
                 (eval_hex_pair (String.substring 6 2 colorstring))
                 255)
  else
    match Color_of_string colorstring with
    | Some color => Ok color
    | None => Raise InvalidColor
    end.

(** The two-digit hexadecimal numeral of a byte, in capitals or in small
    letters. *)
Definition hex_digit (capitals : bool) (d : Z) : ascii :=
  if (d <? 10)%Z then ascii_of_N (Z.to_N d + 48)
  else ascii_of_N (Z.to_N d + (if capitals then 55 else 87)).

Definition hex_byte (capitals : bool) (n : Z) : string :=
  String (hex_digit capitals (n / 16)) (String (hex_digit capitals (n mod 16)) "").

(** ** Version *)

(** [xs[index]] in code that does not touch the store. *)
Definition list_index {A} (xs : list A) (index : nat) : result A :=
  match xs !! index with
  | Some a => Ok a
  | None => Raise IndexError
  end.

Definition result_bind {A B} (r : result A) (k : A -> result B) : result B :=
  match r with
  | Ok a => k a
  | Raise e => Raise e
  end.

Notation "'let?' x ':=' r 'in' k" := (result_bind r (fun x => k))
  (at level 10, x name, r at level 100, k at level 200).

Definition InvalidVersion : exn :=
  OGCException "Badly formatted version number." None.

Module Version.
(** [self.version]: the list of the integers of the parts. *)
Record t : Type := mk { version : list Z }.

(** [Version(version)].  [int] is the builtin conversion of a string to an
    integer; whatever it raises is replaced by the request error. *)
Definition __init__ (int : string -> result Z) (version : string) : result t :=
  let parts := str_split "."%char version in
  if negb (length parts =? 3) then Raise InvalidVersion
  else
    match map_result int parts with
    | Ok numbers => Ok (mk numbers)
    | Raise _ => Raise InvalidVersion
    end.

(** ['%s.%s.%s' % (self.version[0], self.version[1], self.version[2])] *)
Definition __repr__ (self : t) : result string :=
  let? major := list_index (version self) 0 in
  let? minor := list_index (version self) 1 in
  let? patch := list_index (version self) 2 in
  Ok (pretty major +:+ "." +:+ pretty minor +:+ "." +:+ pretty patch).

(** The comparison of one position: [None] when the two numbers are equal
    and the next position decides. *)
Definition compare_at (self other : t) (index : nat) : result (option Z) :=
  let? a := list_index (version self) index in
  let? b := list_index (version other) index in
  if (a <? b)%Z then Ok (Some (-1)%Z)
  else if (a >? b)%Z then Ok (Some 1%Z)
  else Ok None.

(** [self.__cmp__(other)] for another version. *)
Definition compare (self other : t) : result Z :=
  let? first := compare_at self other 0 in
  match first with
  | Some c => Ok c
  | None =>
      let? second := compare_at self other 1 in
      match second with
      | Some c => Ok c
      | None =>
          let? third := compare_at self other 2 in
          match third with
          | Some c => Ok c
          | None => Ok 0%Z
          end
      end
  end.

(** [self.__cmp__(other)]: a string is converted to a version first. *)
Definition __cmp__ (int : string -> result Z) (self : t) (other : string + t)
  : result Z :=
  let? other :=
    match other with
    | inl version => __init__ int version
    | inr other => Ok other
    end in
  compare self other.
End Version.

(** The lexicographic order on lists of three integers. *)
Definition lex_lt3 (a b : list Z) : Prop :=
  match a, b with
  | [a0; a1; a2], [b0; b1; b2] =>
      (a0 < b0 \/ (a0 = b0 /\ (a1 < b1 \/ (a1 = b1 /\ a2 < b2))))%Z
  | _, _ => False
  end.

(** What a successful validation stores under a declared key: for a key of
    the request, the cast value, or the default when the cast value is
    outside a non-empty allowed tuple and fallback is on; for a key that the
    request lacks, the default of an optional parameter, when it is true. *)
Definition validated {value : Type} `{PyObject value}
    (params : gmap string value) (paramname : string)
    (paramdef : ParameterDefinition.t value) (v : value) : Prop :=
  match params !! paramname with
  | Some raw =>
      exists v0, ParameterDefinition.cast paramdef raw = Ok v0 /\
        if allowedvalues_truth (ParameterDefinition.allowedvalues paramdef)
           && not_in_allowedvalues v0 (ParameterDefinition.allowedvalues paramdef)
        then ParameterDefinition.fallback paramdef = true /\
             v = ParameterDefinition.default paramdef
        else v = v0
  | None =>
      ParameterDefinition.mandatory paramdef = false /\
      truth (ParameterDefinition.default paramdef) = true /\
      v = ParameterDefinition.default paramdef
  end.

(** How the layer phase may change the map: it appends styles and layers,
    keeps the names of the style table distinct, and leaves the rest. *)
Definition Map_grows (m m' : Map.t) : Prop :=
  Map.width m' = Map.width m /\
  Map.height m' = Map.height m /\
  Map.srs m' = Map.srs m /\
  Map.background m' = Map.background m /\
  Map.buffer_size m' = Map.buffer_size m /\
  Map.extent m' = Map.extent m /\
  (exists styles, Map.styles m' = Map.styles m ++ styles) /\
  (exists layers, Map.layers m' = Map.layers m ++ layers) /\
  (NoDup (Map.styles m).*1 -> NoDup (Map.styles m').*1).

(** Every style that a layer of the map names is in the map's style
    table. *)
Definition styles_registered (m : Map.t) : Prop :=
  forall layer, layer ∈ Map.layers m ->
  forall stylename, stylename ∈ Layer.styles layer -> stylename ∈ (Map.styles m).*1.

(** The second mode is the one taken: the first name is [__all__]. *)
Definition all_mode (layers : list string) : bool :=
  match layers with
  | [] => false
  | first :: _ =>
      negb (str_in first ["osm_haiti_overlay"; "osm_haiti_overlay_900913"])
      && String.eqb first "__all__"
  end.

(** ** Examples for the factories and the version *)

(** The conversion of a piece of a list parameter that [str] is: the piece
    itself. *)
Definition str_piece (piece : string) : result string := Ok piece.

(** A stand-in for [int] on non-empty strings of ASCII digits; every other
    string is refused. *)
Definition decimal_int (s : string) : result Z :=
  match s with
  | EmptyString => Raise (ValueError "no digits")
  | _ =>
      match digits_value 0 s with
      | Some z => Ok z
      | None => Raise (ValueError "not a digit")
      end
  end.

Definition version_1_1_1 : Version.t := Version.mk [1; 1; 1]%Z.
Definition version_1_3_0 : Version.t := Version.mk [1; 3; 0]%Z.

(** A colour parser that refuses every string, and one that reads every
    string as red. *)
Definition no_named_color (colorstring : string) : option Color.t := None.
Definition every_name_red (colorstring : string) : option Color.t := Some red.

(** A raw request that carries a key the schema does not declare. *)
Definition map_request_with_extra_key : gmap string pyval :=
  {[ "width" := PStr "256"; "layers" := PStr "roads"; "debug" := PStr "1" ]}.

(** [roads] in its extra style [night], then [rivers] in its default
    style. *)
Definition night_roads_request : Params.t :=
  example_params epsg4326 world_bbox None None ["roads"; "rivers"] ["night"] [].

(** ** The plain-text feature-info document in closed form *)






(** ** The XML feature-info document in closed form *)








(** Feature-info requests for [__all__], in plain text, in XML and in a
    format that the handler does not know. *)
Definition info_request (info_format : string) : Params.t :=
  Params.mk (Some epsg4326) (Some world_bbox) (Some 256%Z) (Some 256%Z) None None None
    (Some ["roads"; "rivers"]) (Some [""; ""]) (Some ["__all__"]) (Some info_format)
    (Some 10%Z) (Some 20%Z).

(** ** The layers of the built map in closed form *)

(** The style names that a requested style stands for: the members of the
    aggregate style of that name, or the name itself. *)
Definition requested_styles (mapfactory : MapFactory.t) (reqstyle : string) : list string :=
  match MapFactory.aggregatestyles mapfactory !! reqstyle with
  | Some members => members
  | None => [reqstyle]
  end.

(** The copy of a catalog layer after [styles.append] of each name. *)
Definition styled_copy (mapnik : Mapnik.t) (o : Layer.t) (stylenames : list string) : Layer.t :=
  foldl (fun lyr stylename => Layer.styles_append stylename lyr)
        (copy_layer_value mapnik o) stylenames.

(** The catalog's names refer to objects of the store. *)
Definition catalog_in_store (mapfactory : MapFactory.t) (h : gmap positive Layer.t) : Prop :=
  forall layername layer_obj,
    MapFactory.meta_layers mapfactory !! layername = Some layer_obj \/
    MapFactory.layers mapfactory !! layername = Some layer_obj ->
    is_Some (h !! layer_obj).

(** The style asked for the layer at [layerindex]: the entry of [styles] at
    that position, the empty string when there is none. *)
Definition style_at (styles : list string) (layerindex : nat) : string :=
  match styles !! layerindex with
  | Some reqstyle => reqstyle
  | None => ""
  end.

(** What the explicit mode puts on the map for the name at [layerindex]: for
    a meta-layer, its copy styled with the layer's name; for a catalog
    layer, its copy styled with the requested style, which is one of the
    layer's extra styles, or with its default style when none is
    requested. *)
Definition explicit_layer_of (self : WMSBaseServiceHandler.t) (params : Params.t)
    (h : gmap positive Layer.t) (lyr : Layer.t) (entry : nat * string) : Prop :=
  let mapfactory := WMSBaseServiceHandler.mapfactory self in
  let mapnik := WMSBaseServiceHandler.mapnik self in
  let (layerindex, layername) := entry in
  match MapFactory.meta_layers mapfactory !! layername with
  | Some meta_layer =>
      exists o, h !! meta_layer = Some o /\ lyr = styled_copy mapnik o [layername]
  | None =>
      exists layer_obj o styles reqstyle,
        MapFactory.layers mapfactory !! layername = Some layer_obj /\
        h !! layer_obj = Some o /\
        Params.styles params = Some styles /\
        (if String.eqb (style_at styles layerindex) ""
         then Layer.wmsdefaultstyle o = Some reqstyle
         else reqstyle = style_at styles layerindex /\
              exists wmsextrastyles,
                Layer.wmsextrastyles o = Some wmsextrastyles /\
                str_in reqstyle wmsextrastyles = true) /\
        lyr = styled_copy mapnik o (requested_styles mapfactory reqstyle)
  end.

(** [LAYERS=__all__]. *)
Definition all_layers_request : Params.t :=
  example_params epsg4326 world_bbox None None ["__all__"] [] [].

(** The first mode is the one taken: the first name is one of the overlay
    sentinels. *)
Definition overlay_mode (layers : list string) : bool :=
  match layers with
  | [] => false
  | first :: _ => str_in first ["osm_haiti_overlay"; "osm_haiti_overlay_900913"]
  end.


(** ** Projection and the projection handle of a CRS *)

(** [Projection.epsgstring]: [self.params().split('=')[1].upper()], on the
    definition string that the library's [params()] returns. *)
Definition epsgstring (params : string) : result string :=
  let? definition := list_index (str_split "="%char params) 1 in
  Ok (upper definition).

(** ['+init=%s:%s' % (self.namespace, self.code)] *)
Definition proj_definition (self : CRS.t) : string :=
  "+init=" +:+ CRS.namespace self +:+ ":" +:+ pretty (CRS.code self).

Section Transform.
(** The library's [Projection(definition).forward(Coord(x, y))] and
    [.inverse(Coord(x, y))]. *)
Variable Projection_forward Projection_inverse : string -> float -> float -> float * float.

(** [CRS.inverse] and [CRS.forward]: the handle is created at the first use
    and kept in [self.proj]; the result pairs the object after the call with
    the transformed coordinate. *)
Definition CRS_inverse (self : CRS.t) (x y : float) : CRS.t * (float * float) :=
  let proj :=
    match CRS.proj self with
    | Some proj => proj
    | None => proj_definition self
    end in
  (CRS.mk (CRS.namespace self) (CRS.code self) (Some proj), Projection_inverse proj x y).

Definition CRS_forward (self : CRS.t) (x y : float) : CRS.t * (float * float) :=
  let proj :=
    match CRS.proj self with
    | Some proj => proj
    | None => proj_definition self
    end in
  (CRS.mk (CRS.namespace self) (CRS.code self) (Some proj), Projection_forward proj x y).
End Transform.

(** ** WMSBaseServiceHandler.GetMap *)

(** The table of line 36. *)
Definition PIL_TYPE_MAPPING : gmap string string :=
  {[ "image/jpeg" := "jpeg"; "image/png" := "png"; "image/png8" := "png256" ]}.

(** [s.replace(c, '')] for a one-character string [c]. *)
Fixpoint str_remove (c : ascii) (s : string) : string :=
  match s with
  | EmptyString => EmptyString
  | String c' s' => if Ascii.eqb c' c then str_remove c s' else String c' (str_remove c s')
  end.

Section GetMap.
(** The rendering library: [im = Image(width, height); render(m, im)], which
    may raise, and [im.tostring(format)]. *)
Variable Image : Type.
Variable render : Map.t -> Z -> Z -> result Image.
Variable tostring : Image -> string -> string.

(** [GetMap(self, params)].  [format] is the entry of [params] under the key
    [format], which the map builder does not read. *)
Definition GetMap (self : WMSBaseServiceHandler.t) (params : Params.t)
    (format : option string) : M Response.t :=
  let! m := _buildMap self params in
  let! width := getitem "width" (Params.width params) in
  let! height := getitem "height" (Params.height params) in
  let! im := lift (render m width height) in
  let! format := getitem "format" format in
  let! pil_format := getitem format (PIL_TYPE_MAPPING !! format) in
  ret (Response.mk (str_remove "8" format) (tostring im pil_format)).
End GetMap.

(** A request in the overlay mode, for a catalog whose [roads] layer is
    shown under the meta-style [overview]. *)
Definition overlay_roads_layer : Layer.t :=
  Layer.mk "roads" "Roads" "" 0%float 0 "+init=epsg:4326" 0%float 1000%float
    true true false (Some 1%positive) (Some "default") (Some ["night"]) (Some "overview") "" [].

Definition overlay_store : gmap positive Layer.t :=
  {[ 1%positive := overlay_roads_layer; 2%positive := rivers_layer ]}.

Definition overlay_handler : WMSBaseServiceHandler.t :=
  WMSBaseServiceHandler.mk (Mapnik.mk true true true true) ["epsg:4326"]
    (MapFactory.mk
       {[ "roads" := 1%positive; "rivers" := 2%positive ]}
       [1%positive; 2%positive]
       ∅
       {[ "default" := MkStyle "line"; "blue" := MkStyle "blue line" ]}
       {[ "overview" := MkStyle "thin line" ]}
       ∅
       (MapAttributes.mk None None)).

Definition overlay_request : Params.t :=
  example_params epsg4326 world_bbox None None ["osm_haiti_overlay"] [] [].

(** A renderer that yields the number of layers of the map, and a
    serializer that names the format. *)
Definition example_render (m : Map.t) (width height : Z) : result nat :=
  Ok (length (Map.layers m)).

Definition example_image_tostring (im : nat) (format : string) : string :=
  format +:+ ":" +:+ pretty im.

(** Stand-ins for the library's transformations: the identity. *)
Definition example_transform (definition : string) (x y : float) : float * float := (x, y).

(** * Properties *)

(** ** The parameter validator *)

Section ValidatorProperties.
Context {value : Type} `{PyObject value}.

Implicit Types (paramname k : string) (paramdef : ParameterDefinition.t value).
Implicit Types (finalparams params : gmap string value).
Implicit Types (items schema : list (string * ParameterDefinition.t value)).

Lemma has_key_true {V : Type} (d : gmap string V) k v :
  d !! k = Some v -> has_key d k = true.
Proof. unfold has_key. now intros ->. Qed.

Lemma has_key_false {V : Type} (d : gmap string V) k :
  d !! k = None -> has_key d k = false.
Proof. unfold has_key. now intros ->. Qed.

(** What one iteration does to the caller's dictionary: nothing, or the
    assignment of the cast value to the key it visits. *)
Lemma processParameter_store paramname paramdef finalparams params r params' :
  processParameter paramname paramdef finalparams params = (r, params') ->
  params' = params \/
  exists raw v, params !! paramname = Some raw /\
    ParameterDefinition.cast paramdef raw = Ok v /\
    params' = <[paramname := v]> params.
Proof.
  unfold processParameter.
  destruct (params !! paramname) as [raw|] eqn:Hraw.
  - rewrite (has_key_true _ _ _ Hraw). cbn [negb andb].
    destruct (ParameterDefinition.cast paramdef raw) as [v|e] eqn:Hcast.
    + intros Hstep. right. exists raw, v. repeat split; try done.
      repeat case_match; congruence.
    + intros Hstep. left. repeat case_match; congruence.
  - intros Hstep. left. repeat case_match; congruence.
Qed.

(** One iteration writes [finalparams] only at the key it visits. *)
Lemma processParameter_final_other paramname paramdef finalparams params fp' params' k :
  processParameter paramname paramdef finalparams params = (Ok fp', params') ->
  k <> paramname -> fp' !! k = finalparams !! k.
Proof.
  unfold processParameter. intros Hstep Hne.
  repeat case_match; simplify_eq; rewrite ?lookup_insert_ne; auto.
Qed.

Lemma processItems_app pre post finalparams params :
  processItems (pre ++ post) finalparams params =
  match processItems pre finalparams params with
  | (Ok fp', params') => processItems post fp' params'
  | (Raise e, params') => (Raise e, params')
  end.
Proof.
  revert finalparams params.
  induction pre as [|[pn pd] pre IH]; intros finalparams params; cbn.
  - reflexivity.
  - destruct (processParameter pn pd finalparams params) as [[fp1|e] params1].
    + apply IH.
    + reflexivity.
Qed.

(** A key that is absent from the request stays absent. *)
Lemma processItems_absent items finalparams params r params' k :
  processItems items finalparams params = (r, params') ->
  params !! k = None -> params' !! k = None.
Proof.
  revert finalparams params.
  induction items as [|[pn pd] items IH]; intros finalparams params; cbn.
  - intros [= _ <-]. auto.
  - destruct (processParameter pn pd finalparams params) as [[fp1|e] params1] eqn:Hstep;
      intros Hrun Habs;
      destruct (processParameter_store _ _ _ _ _ _ Hstep)
        as [-> | (raw & v & Hraw & _ & ->)].
    + eauto.
    + apply (IH _ _ Hrun). rewrite lookup_insert_ne; [done|]. congruence.
    + congruence.
    + injection Hrun as _ <-. rewrite lookup_insert_ne; [done|]. congruence.
Qed.

(** The loop never adds or removes a key of the caller's dictionary. *)
Lemma processItems_dom items finalparams params r params' :
  processItems items finalparams params = (r, params') ->
  dom params' = dom params.
Proof.
  revert finalparams params.
  induction items as [|[pn pd] items IH]; intros finalparams params; cbn.
  - now intros [= _ <-].
  - assert (Hstore : forall r1 params1,
      processParameter pn pd finalparams params = (r1, params1) ->
      dom params1 = dom params).
    { intros r1 params1 Hstep.
      destruct (processParameter_store _ _ _ _ _ _ Hstep)
        as [-> | (raw & v & Hraw & _ & ->)]; [done|].
      rewrite dom_insert_L. apply elem_of_dom_2 in Hraw.
      apply leibniz_equiv. apply subseteq_union_1. now apply singleton_subseteq_l. }
    destruct (processParameter pn pd finalparams params) as [[fp1|e] params1] eqn:Hstep;
      intros Hrun.
    + rewrite (IH _ _ Hrun). eauto.
    + injection Hrun as _ <-. eauto.
Qed.

(** Keys that the schema does not declare are left alone, in the caller's
    dictionary and in the result. *)
Lemma processItems_frame items finalparams params r params' k :
  processItems items finalparams params = (r, params') ->
  k ∉ items.*1 ->
  params' !! k = params !! k /\
  forall fp', r = Ok fp' -> fp' !! k = finalparams !! k.
Proof.
  revert finalparams params.
  induction items as [|[pn pd] items IH]; intros finalparams params; cbn.
  - intros [= <- <-] _. split; [done|]. now intros fp' [= <-].
  - intros Hrun Hk. apply not_elem_of_cons in Hk as [Hne Hk].
    destruct (processParameter pn pd finalparams params) as [[fp1|e] params1] eqn:Hstep.
    + destruct (IH _ _ Hrun Hk) as [IHp IHf].
      split.
      * rewrite IHp.
        destruct (processParameter_store _ _ _ _ _ _ Hstep)
          as [-> | (raw & v & _ & _ & ->)]; [done|].
        now rewrite lookup_insert_ne.
      * intros fp' ->. rewrite (IHf _ eq_refl).
        eapply processParameter_final_other; eauto.
    + injection Hrun as <- <-. split; [|discriminate].
      destruct (processParameter_store _ _ _ _ _ _ Hstep)
        as [-> | (raw & v & _ & _ & ->)]; [done|].
      now rewrite lookup_insert_ne.
Qed.

(** A successful iteration over a key that the request carries has cast
    its value and stored the cast value back into the caller's dictionary. *)
Lemma processParameter_present_ok paramname paramdef finalparams params fp' params' raw :
  processParameter paramname paramdef finalparams params = (Ok fp', params') ->
  params !! paramname = Some raw ->
  exists v, ParameterDefinition.cast paramdef raw = Ok v /\
    params' = <[paramname := v]> params.
Proof.
  unfold processParameter. intros Hstep Hraw.
  rewrite (has_key_true _ _ _ Hraw), Hraw in Hstep. cbn [negb andb] in Hstep.
  destruct (ParameterDefinition.cast paramdef raw) as [v|e].
  - exists v. split; [done|]. repeat case_match; congruence.
  - repeat case_match; congruence.
Qed.

Lemma processItems_store items finalparams params r params' :
  NoDup items.*1 ->
  processItems items finalparams params = (r, params') ->
  forall k v', params' !! k = Some v' ->
    params !! k = Some v' \/
    exists paramdef raw, (k, paramdef) ∈ items /\ params !! k = Some raw /\
      ParameterDefinition.cast paramdef raw = Ok v'.
Proof.
  revert finalparams params.
  induction items as [|[pn pd] items IH]; intros finalparams params Hnd; cbn.
  - intros [= _ <-]. auto.
  - apply NoDup_cons in Hnd as [Hpn Hnd]. cbn in Hpn.
    assert (Hhead : forall r1 params1 k v',
      processParameter pn pd finalparams params = (r1, params1) ->
      params1 !! k = Some v' ->
      params !! k = Some v' \/
      (k = pn /\ exists raw, params !! k = Some raw /\
         ParameterDefinition.cast pd raw = Ok v')).
    { intros r1 params1 k v' Hstep Hk.
      destruct (processParameter_store _ _ _ _ _ _ Hstep)
        as [-> | (raw & v & Hraw & Hcast & ->)]; [auto|].
      destruct (decide (k = pn)) as [->|Hne].
      - rewrite lookup_insert_eq in Hk. injection Hk as ->. right. eauto.
      - rewrite lookup_insert_ne in Hk by done. auto. }
    assert (Hlift : forall r1 params1 k v',
      processParameter pn pd finalparams params = (r1, params1) ->
      params1 !! k = Some v' ->
      params !! k = Some v' \/
      exists paramdef raw, (k, paramdef) ∈ (pn, pd) :: items /\
        params !! k = Some raw /\ ParameterDefinition.cast paramdef raw = Ok v').
    { intros r1 params1 k v' Hstep Hk.
      destruct (Hhead _ _ _ _ Hstep Hk) as [?|[-> (raw & ? & ?)]]; [auto|].
      right. exists pd, raw. split; [left|]; auto. }
    destruct (processParameter pn pd finalparams params) as [[fp1|e] params1] eqn:Hstep.
    + intros Hrun k v' Hk.
      destruct (IH _ _ Hnd Hrun k v' Hk) as [Hk1 | (pd' & raw' & Hin & Hraw' & Hcast')].
      * eauto.
      * assert (k <> pn) as Hne.
        { intros ->. apply Hpn. apply list_elem_of_fmap. now exists (pn, pd'). }
        right. exists pd', raw'. split; [now right|]. split; [|done].
        rewrite <- Hraw'. symmetry.
        destruct (processParameter_store _ _ _ _ _ _ Hstep)
          as [-> | (raw & v & _ & _ & ->)]; [done|].
        now rewrite lookup_insert_ne.
    + intros [= _ <-] k v' Hk. eauto.
Qed.

Lemma processItems_cast_all items finalparams params fp' params' :
  NoDup items.*1 ->
  processItems items finalparams params = (Ok fp', params') ->
  forall k paramdef raw, (k, paramdef) ∈ items -> params !! k = Some raw ->
    exists v, ParameterDefinition.cast paramdef raw = Ok v /\ params' !! k = Some v.
Proof.
  revert finalparams params.
  induction items as [|[pn pd] items IH]; intros finalparams params Hnd; cbn.
  - intros _ k paramdef raw Hin. now apply elem_of_nil in Hin.
  - apply NoDup_cons in Hnd as [Hpn Hnd]. cbn in Hpn.
    destruct (processParameter pn pd finalparams params) as [[fp1|e] params1] eqn:Hstep;
      [|discriminate].
    intros Hrun k paramdef raw Hin Hraw.
    apply elem_of_cons in Hin as [[= -> ->]|Hin].
    + destruct (processParameter_present_ok _ _ _ _ _ _ _ Hstep Hraw) as (v & Hcast & ->).
      exists v. split; [done|].
      destruct (processItems_frame _ _ _ _ _ pn Hrun Hpn) as [-> _].
      apply lookup_insert_eq.
    + assert (k <> pn) as Hne.
      { intros ->. apply Hpn. apply list_elem_of_fmap. now exists (pn, paramdef). }
      apply (IH _ _ Hnd Hrun k paramdef raw Hin).
      rewrite <- Hraw.
      destruct (processParameter_store _ _ _ _ _ _ Hstep)
        as [-> | (raw0 & v & _ & _ & ->)]; [done|].
      now rewrite lookup_insert_ne.
Qed.

(** C1 (amended): for a parameter definition whose allowed-value tuple is
    declared and non-empty, validating a present value that casts
    successfully to a value outside the tuple stores the declared default
    when [fallback] is true and raises the illegal-value error when
    [fallback] is false; the cast value is written back to the caller's
    dictionary either way.  For the whole of [processParameters] (a schema is
    a dictionary, so its keys are distinct): a successful call implies
    [fallback] is true and the result holds the default under that key. *)
Theorem illegal_value_fallback_policy
    paramname paramdef finalparams params raw v allowed :
  params !! paramname = Some raw ->
  ParameterDefinition.cast paramdef raw = Ok v ->
  ParameterDefinition.allowedvalues paramdef = Some allowed ->
  allowed <> [] ->
  contains allowed v = false ->
  processParameter paramname paramdef finalparams params =
    (if ParameterDefinition.fallback paramdef
     then Ok (<[paramname := ParameterDefinition.default paramdef]> finalparams)
     else Raise (IllegalParameterValue paramname),
     <[paramname := v]> params)
  /\ forall SERVICE_PARAMS requestname schema,
       SERVICE_PARAMS !! requestname = Some schema ->
       NoDup schema.*1 ->
       (paramname, paramdef) ∈ schema ->
       match fst (processParameters SERVICE_PARAMS requestname params) with
       | Ok final =>
           ParameterDefinition.fallback paramdef = true /\
           final !! paramname = Some (ParameterDefinition.default paramdef)
       | Raise _ => True
       end.
Proof.
  intros Hraw Hcast Hallowed Hne Hnotin.
  assert (Hstep : forall fp ps, ps !! paramname = Some raw ->
    processParameter paramname paramdef fp ps =
      (if ParameterDefinition.fallback paramdef
       then Ok (<[paramname := ParameterDefinition.default paramdef]> fp)
       else Raise (IllegalParameterValue paramname),
       <[paramname := v]> ps)).
  { intros fp ps Hps. unfold processParameter.
    rewrite (has_key_true _ _ _ Hps), Hps, Hcast, Hallowed. cbn [negb andb].
    unfold not_in_allowedvalues, allowedvalues_truth. rewrite Hnotin.
    destruct allowed as [|a allowed]; [done|]. cbn [negb andb].
    now destruct (ParameterDefinition.fallback paramdef). }
  split; [now apply Hstep|].
  intros SERVICE_PARAMS requestname schema Hschema Hnd Hin.
  unfold processParameters. rewrite Hschema.
  apply list_elem_of_split in Hin as (pre & post & ->).
  rewrite fmap_app, fmap_cons in Hnd. cbn in Hnd.
  apply NoDup_app in Hnd as (_ & Hpre & Hnd).
  apply NoDup_cons in Hnd as [Hpost _].
  rewrite processItems_app.
  destruct (processItems pre ∅ params) as [[fp1|e] params1] eqn:Hrun; [|done].
  assert (params1 !! paramname = Some raw) as Hraw1.
  { destruct (processItems_frame _ _ _ _ _ paramname Hrun) as [-> _]; [|done].
    intros Hin. apply (Hpre _ Hin). now left. }
  cbn [processItems]. rewrite (Hstep _ _ Hraw1).
  destruct (ParameterDefinition.fallback paramdef); [|done].
  destruct (processItems post _ _) as [[final|e] params2] eqn:Hrun2; [|done].
  cbn. split; [done|].
  destruct (processItems_frame _ _ _ _ _ paramname Hrun2 Hpost) as [_ Hfinal].
  rewrite (Hfinal _ eq_refl). apply lookup_insert_eq.
Qed.

(** C2 (amended): when the request lacks a key that the schema declares
    mandatory, [processParameters] never returns a result; the error it
    raises is the missing-parameter error for that key whenever the
    iterations before it in the schema's order all pass (otherwise the first
    failing iteration's error is the one raised). *)
Theorem missing_mandatory_parameter_fails
    SERVICE_PARAMS requestname schema params paramname paramdef :
  SERVICE_PARAMS !! requestname = Some schema ->
  (paramname, paramdef) ∈ schema ->
  ParameterDefinition.mandatory paramdef = true ->
  params !! paramname = None ->
  is_Ok (fst (processParameters SERVICE_PARAMS requestname params)) = false /\
  forall pre post finalparams' params',
    schema = pre ++ (paramname, paramdef) :: post ->
    processItems pre ∅ params = (Ok finalparams', params') ->
    processParameters SERVICE_PARAMS requestname params =
      (Raise (MissingParameter paramname), params').
Proof.
  intros Hschema Hin Hmand Habs.
  assert (Hstep : forall fp ps, ps !! paramname = None ->
    processParameter paramname paramdef fp ps = (Raise (MissingParameter paramname), ps)).
  { intros fp ps Hps. unfold processParameter.
    now rewrite (has_key_false _ _ Hps), Hmand. }
  unfold processParameters. rewrite Hschema. split.
  - apply list_elem_of_split in Hin as (pre & post & ->).
    rewrite processItems_app.
    destruct (processItems pre ∅ params) as [[fp1|e] params1] eqn:Hrun; [|done].
    cbn [processItems]. rewrite Hstep; [done|].
    eapply processItems_absent; eauto.
  - intros pre post fp1 params1 -> Hrun.
    rewrite processItems_app, Hrun. cbn [processItems].
    rewrite Hstep; [done|]. eapply processItems_absent; eauto.
Qed.

(** C6 (amended): [processParameters] is a function of the schema and the
    input mapping, but it is not free of side effects: it assigns the cast
    value to every key of the caller's mapping that it casts.  What it keeps:
    the key set of the caller's mapping, and every key that the schema does
    not declare.  Every entry of the mapping after the call is the original
    entry or the cast of the original entry by that key's definition, and
    after a successful call every declared key that was present holds its
    cast value. *)
Theorem processParameters_overwrites_cast_keys
    SERVICE_PARAMS requestname schema params r params' :
  SERVICE_PARAMS !! requestname = Some schema ->
  NoDup schema.*1 ->
  processParameters SERVICE_PARAMS requestname params = (r, params') ->
  dom params' = dom params /\
  (forall k, k ∉ schema.*1 -> params' !! k = params !! k) /\
  (forall k v', params' !! k = Some v' ->
     params !! k = Some v' \/
     exists paramdef raw, (k, paramdef) ∈ schema /\ params !! k = Some raw /\
       ParameterDefinition.cast paramdef raw = Ok v') /\
  (is_Ok r = true ->
   forall k paramdef raw, (k, paramdef) ∈ schema -> params !! k = Some raw ->
     exists v, ParameterDefinition.cast paramdef raw = Ok v /\ params' !! k = Some v).
Proof.
  intros Hschema Hnd. unfold processParameters. rewrite Hschema. intros Hrun.
  split; [eapply processItems_dom; eauto|].
  split; [intros k Hk; apply (processItems_frame _ _ _ _ _ k Hrun Hk)|].
  split; [eapply processItems_store; eauto|].
  destruct r as [final|e]; [|discriminate]. intros _.
  eapply processItems_cast_all; eauto.
Qed.

End ValidatorProperties.

(** ** CRS *)

Lemma length_append (s t : string) :
  String.length (s +:+ t) = String.length s + String.length t.
Proof.
  induction s as [|c s IH]; [reflexivity|].
  change (S (String.length (s +:+ t)) = S (String.length s + String.length t)).
  now rewrite IH.
Qed.

Lemma append_cons (c : ascii) (s t : string) : String c s +:+ t = String c (s +:+ t).
Proof. reflexivity. Qed.

Lemma append_inv_tail (s1 s2 t : string) : s1 +:+ t = s2 +:+ t -> s1 = s2.
Proof.
  revert s2. induction s1 as [|c s1 IH]; intros [|c2 s2] Heq.
  - reflexivity.
  - apply (f_equal String.length) in Heq.
    rewrite append_cons in Heq. cbn [String.length] in Heq.
    rewrite !length_append in Heq. cbn in Heq. lia.
  - apply (f_equal String.length) in Heq.
    rewrite append_cons in Heq. cbn [String.length] in Heq.
    rewrite !length_append in Heq. cbn in Heq. lia.
  - rewrite !append_cons in Heq. injection Heq as -> Heq. f_equal. now apply IH.
Qed.

Lemma lower_upper_ascii (c : ascii) : lower_ascii (upper_ascii c) = lower_ascii c.
Proof. destruct c as [[] [] [] [] [] [] [] []]; reflexivity. Qed.

Lemma lower_ascii_idemp (c : ascii) : lower_ascii (lower_ascii c) = lower_ascii c.
Proof. destruct c as [[] [] [] [] [] [] [] []]; reflexivity. Qed.

Lemma lower_upper (s : string) : lower (upper s) = lower s.
Proof. induction s as [|c s IH]; cbn; [reflexivity|]. now rewrite lower_upper_ascii, IH. Qed.

Lemma lower_idemp (s : string) : lower (lower s) = lower s.
Proof. induction s as [|c s IH]; cbn; [reflexivity|]. now rewrite lower_ascii_idemp, IH. Qed.

Lemma CRS_eq_same_code (ns1 ns2 : string) (c : Z) :
  CRS.__eq__ (CRS.__init__ ns1 c) (CRS.__init__ ns2 c) = String.eqb (lower ns1) (lower ns2).
Proof.
  unfold CRS.__eq__, CRS.__repr__, CRS.__init__. cbn [CRS.namespace CRS.code].
  destruct (String.eqb_spec (lower ns1) (lower ns2)) as [->|Hne].
  - apply String.eqb_refl.
  - apply String.eqb_neq. intros Heq. apply Hne. symmetry.
    now apply append_inv_tail in Heq.
Qed.

(** C9: the string form of [CRS(namespace, code)] is the lower-cased
    namespace, a colon and the decimal code, so [str(CRS("EPSG", 4326))] is
    ["epsg:4326"]; two CRS values with the same code are equal exactly when
    their namespaces agree up to ASCII case, in particular
    [CRS("EPSG", c) == CRS("epsg", c)] and [CRS(ns.upper(), c) == CRS(ns, c)];
    rebuilding a CRS from the namespace and code that its string form shows
    gives the same CRS. *)
Theorem CRS_string_form_and_equality :
  (forall ns c, CRS.__repr__ (CRS.__init__ ns c) = lower ns +:+ ":" +:+ pretty c) /\
  CRS.__repr__ (CRS.__init__ "EPSG" 4326) = "epsg:4326" /\
  (forall ns1 ns2 c,
     CRS.__eq__ (CRS.__init__ ns1 c) (CRS.__init__ ns2 c) =
     String.eqb (lower ns1) (lower ns2)) /\
  (forall c, CRS.__eq__ (CRS.__init__ "EPSG" c) (CRS.__init__ "epsg" c) = true) /\
  (forall ns c, CRS.__eq__ (CRS.__init__ (upper ns) c) (CRS.__init__ ns c) = true) /\
  (forall ns c,
     CRS.__init__ (CRS.namespace (CRS.__init__ ns c)) (CRS.code (CRS.__init__ ns c)) =
     CRS.__init__ ns c).
Proof.
  split; [reflexivity|].
  split; [vm_compute; reflexivity|].
  split; [apply CRS_eq_same_code|].
  split.
  - intros c. rewrite CRS_eq_same_code. reflexivity.
  - split.
    + intros ns c. rewrite CRS_eq_same_code, lower_upper. apply String.eqb_refl.
    + intros ns c. unfold CRS.__init__. cbn [CRS.namespace CRS.code].
      now rewrite lower_idemp.
Qed.

(** *** The validator on the example schemas *)

(** The fallback policy on [format], whose allowed values are the two image
    types, for a request that asks for [image/gif]. *)
Lemma illegal_value_fallback_policy_witness :
  processParameter "format" (format_definition true) ∅ gif_request =
    (if ParameterDefinition.fallback (format_definition true)
     then Ok (<["format" := ParameterDefinition.default (format_definition true)]> ∅)
     else Raise (IllegalParameterValue "format"),
     <["format" := PStr "image/gif"]> gif_request)
  /\ forall SERVICE_PARAMS requestname schema,
       SERVICE_PARAMS !! requestname = Some schema ->
       NoDup schema.*1 ->
       ("format", format_definition true) ∈ schema ->
       match fst (processParameters SERVICE_PARAMS requestname gif_request) with
       | Ok final =>
           ParameterDefinition.fallback (format_definition true) = true /\
           final !! "format" = Some (ParameterDefinition.default (format_definition true))
       | Raise _ => True
       end.
Proof.
  apply (illegal_value_fallback_policy "format" (format_definition true) ∅ gif_request
           (PStr "image/gif") (PStr "image/gif") [PStr "image/png"; PStr "image/jpeg"]).
  - reflexivity.
  - reflexivity.
  - reflexivity.
  - discriminate.
  - vm_compute. reflexivity.
Defined.

(** C1, as stated, fails on a declared but empty allowed-value tuple: the
    value is not a member of it, yet with [fallback=True] the supplied value
    is kept instead of the default, and with [fallback=False] nothing is
    raised. *)
Lemma empty_allowedvalues_accept_every_value :
  ParameterDefinition.allowedvalues (format_definition_empty true) = Some [] /\
  cast_str (PStr "image/gif") = Ok (PStr "image/gif") /\
  contains [] (PStr "image/gif") = false /\
  (exists final,
     fst (processParameters (format_SERVICE_PARAMS (format_definition_empty true))
            "GetMap" gif_request) = Ok final /\
     final !! "format" = Some (PStr "image/gif") /\
     final !! "format" <> Some (ParameterDefinition.default (format_definition_empty true))) /\
  is_Ok (fst (processParameters (format_SERVICE_PARAMS (format_definition_empty false))
                "GetMap" gif_request)) = true.
Proof.
  split; [reflexivity|]. split; [reflexivity|]. split; [reflexivity|].
  split; [|vm_compute; reflexivity].
  eexists. split; [vm_compute; reflexivity|].
  split; [vm_compute; reflexivity|].
  vm_compute. discriminate.
Qed.

(** A request that carries a valid [width] and lacks the mandatory
    [layers]. *)
Lemma missing_mandatory_parameter_fails_witness :
  is_Ok (fst (processParameters example_SERVICE_PARAMS "GetMap" width_request)) = false /\
  forall pre post finalparams' params',
    [("width", width_definition); ("layers", layers_definition)] =
      pre ++ ("layers", layers_definition) :: post ->
    processItems pre ∅ width_request = (Ok finalparams', params') ->
    processParameters example_SERVICE_PARAMS "GetMap" width_request =
      (Raise (MissingParameter "layers"), params').
Proof.
  apply (missing_mandatory_parameter_fails example_SERVICE_PARAMS "GetMap"
           [("width", width_definition); ("layers", layers_definition)]
           width_request "layers" layers_definition).
  - reflexivity.
  - apply elem_of_cons. right. apply elem_of_cons. now left.
  - reflexivity.
  - reflexivity.
Defined.

(** C2, as stated, fails when an iteration before the missing key's raises:
    [layers] is mandatory and absent, but [width], iterated first, does not
    cast, and the error raised is the invalid-value error for [width]. *)
Lemma invalid_value_precedes_missing_parameter :
  ("layers", layers_definition) ∈ [("width", width_definition); ("layers", layers_definition)]
  /\ ParameterDefinition.mandatory layers_definition = true
  /\ wide_request !! "layers" = None
  /\ fst (processParameters example_SERVICE_PARAMS "GetMap" wide_request) =
       Raise (InvalidParameterValue (PStr "wide") "width")
  /\ InvalidParameterValue (PStr "wide") "width" <> MissingParameter "layers".
Proof.
  split; [apply elem_of_cons; right; apply elem_of_cons; now left|].
  split; [reflexivity|]. split; [reflexivity|].
  split; [vm_compute; reflexivity|].
  vm_compute. discriminate.
Qed.

(** The effect of a successful call on the caller's mapping. *)
Lemma processParameters_overwrites_cast_keys_witness :
  dom (snd (processParameters example_SERVICE_PARAMS "GetMap" map_request)) =
    dom map_request /\
  (forall k, k ∉ [("width", width_definition); ("layers", layers_definition)].*1 ->
     snd (processParameters example_SERVICE_PARAMS "GetMap" map_request) !! k =
       map_request !! k) /\
  (forall k v',
     snd (processParameters example_SERVICE_PARAMS "GetMap" map_request) !! k = Some v' ->
     map_request !! k = Some v' \/
     exists paramdef raw,
       (k, paramdef) ∈ [("width", width_definition); ("layers", layers_definition)] /\
       map_request !! k = Some raw /\
       ParameterDefinition.cast paramdef raw = Ok v') /\
  (is_Ok (fst (processParameters example_SERVICE_PARAMS "GetMap" map_request)) = true ->
   forall k paramdef raw,
     (k, paramdef) ∈ [("width", width_definition); ("layers", layers_definition)] ->
     map_request !! k = Some raw ->
     exists v, ParameterDefinition.cast paramdef raw = Ok v /\
       snd (processParameters example_SERVICE_PARAMS "GetMap" map_request) !! k = Some v).
Proof.
  apply (processParameters_overwrites_cast_keys example_SERVICE_PARAMS "GetMap"
           [("width", width_definition); ("layers", layers_definition)] map_request).
  - reflexivity.
  - apply (bool_decide_unpack _). vm_compute. reflexivity.
  - apply surjective_pairing.
Defined.

(** C6, as stated, fails: a successful call replaces the caller's string ['256'] by
    the integer it casts to. *)
Lemma processParameters_mutates_input :
  is_Ok (fst (processParameters example_SERVICE_PARAMS "GetMap" map_request)) = true /\
  map_request !! "width" = Some (PStr "256") /\
  snd (processParameters example_SERVICE_PARAMS "GetMap" map_request) !! "width" =
    Some (PInt 256) /\
  snd (processParameters example_SERVICE_PARAMS "GetMap" map_request) <> map_request.
Proof.
  split; [vm_compute; reflexivity|].
  split; [reflexivity|]. split; [vm_compute; reflexivity|].
  intros Heq. apply (f_equal (fun d => d !! "width")) in Heq.
  vm_compute in Heq. discriminate.
Qed.

(** ** Floats *)

Lemma SFcompare_Eq_sym (x y : SpecFloat.spec_float) :
  SpecFloat.SFcompare x y = Some Eq -> SpecFloat.SFcompare y x = Some Eq.
Proof.
  destruct x as [sx|sx| |sx mx ex], y as [sy|sy| |sy my ey]; cbn;
    try congruence; try (destruct sx; congruence); try (destruct sy; congruence).
  - destruct sx, sy; congruence.
  - assert (Hm : Pos.compare_cont Eq mx my = Eq -> mx = my)
      by apply Pos.compare_eq.
    destruct sx, sy; try congruence;
      destruct (Z.compare_spec ex ey) as [->| |]; try congruence;
      rewrite Z.compare_refl;
      destruct (Pos.compare_cont Eq mx my) eqn:Hcmp; cbn; try congruence;
      rewrite (Hm eq_refl), Pos.compare_cont_refl; reflexivity.
Qed.

(** Two floats that are [==] are also [>=], in both directions. *)
Lemma float_eqb_ge (x y : float) : PrimFloat.eqb x y = true -> float_ge x y = true.
Proof.
  unfold float_ge. rewrite FloatAxioms.eqb_spec, FloatAxioms.leb_spec.
  unfold SpecFloat.SFeqb, SpecFloat.SFleb.
  destruct (SpecFloat.SFcompare (Prim2SF x) (Prim2SF y)) as [[]|] eqn:Hcmp; try discriminate.
  intros _. now rewrite (SFcompare_Eq_sym _ _ Hcmp).
Qed.

(** ** The map builder: order of the checks *)

Lemma bind_run {A B} (m : M A) (k : A -> M B) (h : gmap positive Layer.t) :
  bind m k h =
  match m h with
  | (Ok a, h') => k a h'
  | (Raise e, h') => (Raise e, h')
  end.
Proof. reflexivity. Qed.

Lemma bind_raise {A B} (m : M A) (k : A -> M B) (h h' : gmap positive Layer.t) e :
  m h = (Raise e, h') -> bind m k h = (Raise e, h').
Proof. intros Hm. now rewrite bind_run, Hm. Qed.

Lemma bind_ok {A B} (m : M A) (k : A -> M B) (h h' : gmap positive Layer.t) a :
  m h = (Ok a, h') -> bind m k h = k a h'.
Proof. intros Hm. now rewrite bind_run, Hm. Qed.

Lemma check_crs_bbox_unsupported self params h crs :
  Params.crs params = Some crs ->
  str_in (CRS.__repr__ crs) (WMSBaseServiceHandler.allowedepsgcodes self) = false ->
  check_crs_bbox self params h = (Raise (UnsupportedCRS crs), h).
Proof.
  intros Hcrs Hin. unfold check_crs_bbox.
  rewrite Hcrs. cbn [getitem]. rewrite (bind_ok _ _ h h crs) by reflexivity.
  now rewrite Hin.
Qed.

Lemma check_crs_bbox_supported self params h crs minx miny maxx maxy :
  Params.crs params = Some crs ->
  str_in (CRS.__repr__ crs) (WMSBaseServiceHandler.allowedepsgcodes self) = true ->
  Params.bbox params = Some [minx; miny; maxx; maxy] ->
  check_crs_bbox self params h =
    (if float_ge minx maxx then Raise InvalidBBox_x
     else if float_ge miny maxy then Raise InvalidBBox_y
     else Ok tt, h).
Proof.
  intros Hcrs Hin Hbbox. unfold check_crs_bbox.
  rewrite Hcrs, Hbbox. cbn [getitem]. rewrite (bind_ok _ _ h h crs) by reflexivity.
  rewrite Hin. cbn [negb].
  rewrite (bind_ok _ _ h h [minx; miny; maxx; maxy]) by reflexivity.
  rewrite (bind_ok _ _ h h minx) by reflexivity.
  rewrite (bind_ok _ _ h h maxx) by reflexivity.
  destruct (float_ge minx maxx); [reflexivity|].
  rewrite (bind_ok _ _ h h miny) by reflexivity.
  rewrite (bind_ok _ _ h h maxy) by reflexivity.
  now destruct (float_ge miny maxy).
Qed.

Lemma _buildMap_check_raises self params h h' e :
  check_crs_bbox self params h = (Raise e, h') ->
  _buildMap self params h = (Raise e, h').
Proof. intros Hcheck. unfold _buildMap. now apply bind_raise. Qed.

(** C3: with a CRS in the request, [_buildMap] first tests its string form
    against the server's allowed codes and raises the unsupported-CRS error
    when it is not among them, whatever the bounding box is; only for an
    allowed CRS does it compare the box, raising the first bounding-box error
    when [minx >= maxx] and the second when [miny >= maxy]; [minx == maxx]
    or [miny == maxy] therefore always raises one of them, and the checks
    pass when both comparisons are false. *)
Theorem crs_checked_before_bbox self params h crs :
  Params.crs params = Some crs ->
  (str_in (CRS.__repr__ crs) (WMSBaseServiceHandler.allowedepsgcodes self) = false ->
   _buildMap self params h = (Raise (UnsupportedCRS crs), h)) /\
  (str_in (CRS.__repr__ crs) (WMSBaseServiceHandler.allowedepsgcodes self) = true ->
   forall minx miny maxx maxy,
     Params.bbox params = Some [minx; miny; maxx; maxy] ->
     (float_ge minx maxx = true ->
      _buildMap self params h = (Raise InvalidBBox_x, h)) /\
     (float_ge minx maxx = false -> float_ge miny maxy = true ->
      _buildMap self params h = (Raise InvalidBBox_y, h)) /\
     (float_ge minx maxx = true \/ float_ge miny maxy = true \/
      PrimFloat.eqb minx maxx = true \/ PrimFloat.eqb miny maxy = true ->
      exists e, is_InvalidBBox e /\ _buildMap self params h = (Raise e, h)) /\
     (float_ge minx maxx = false -> float_ge miny maxy = false ->
      check_crs_bbox self params h = (Ok tt, h))).
Proof.
  intros Hcrs. split.
  - intros Hin. apply _buildMap_check_raises.
    now apply check_crs_bbox_unsupported.
  - intros Hin minx miny maxx maxy Hbbox.
    pose proof (check_crs_bbox_supported self params h crs _ _ _ _ Hcrs Hin Hbbox) as Hcheck.
    assert (Hx : float_ge minx maxx = true ->
                 _buildMap self params h = (Raise InvalidBBox_x, h)).
    { intros Hge. apply _buildMap_check_raises. now rewrite Hcheck, Hge. }
    assert (Hy : float_ge minx maxx = false -> float_ge miny maxy = true ->
                 _buildMap self params h = (Raise InvalidBBox_y, h)).
    { intros Hx' Hge. apply _buildMap_check_raises. now rewrite Hcheck, Hx', Hge. }
    assert (Hany : float_ge minx maxx = true \/ float_ge miny maxy = true ->
                   exists e, is_InvalidBBox e /\ _buildMap self params h = (Raise e, h)).
    { intros Hor. destruct (float_ge minx maxx) eqn:Hgx.
      - exists InvalidBBox_x. split; [now left | auto].
      - destruct Hor as [?|Hgy]; [discriminate|].
        exists InvalidBBox_y. split; [now right | auto]. }
    repeat split; auto.
    + intros [Hge|[Hge|[Heq|Heq]]]; apply Hany; auto using float_eqb_ge.
    + intros Hx' Hy'. now rewrite Hcheck, Hx', Hy'.
Qed.

(** ** The map builder: background *)

Lemma bind_ok_inv {A B} (m : M A) (k : A -> M B) (h h' : gmap positive Layer.t) b :
  bind m k h = (Ok b, h') ->
  exists a h1, m h = (Ok a, h1) /\ k a h1 = (Ok b, h').
Proof.
  rewrite bind_run. destruct (m h) as [[a|e] h1]; [eauto | discriminate].
Qed.

Ltac inv_bind H :=
  let a := fresh "a" in
  let h1 := fresh "h" in
  let Hm := fresh "Hrun" in
  apply bind_ok_inv in H as (a & h1 & Hm & H).

(** An invariant of the accumulator of a loop that each successful
    iteration keeps holds after a successful loop. *)
Lemma for_each_ok_invariant {A B} (P : B -> Prop) (xs : list A) (body : B -> A -> M B) :
  (forall acc x h acc' h', P acc -> body acc x h = (Ok acc', h') -> P acc') ->
  forall acc h acc' h', P acc -> for_each xs body acc h = (Ok acc', h') -> P acc'.
Proof.
  intros Hbody. induction xs as [|x xs IH]; intros acc h acc' h' Hacc Hrun.
  - cbn in Hrun. injection Hrun as <- _. exact Hacc.
  - cbn [for_each] in Hrun. inv_bind Hrun. eauto.
Qed.









(** ** The map builder never writes to an existing Layer object *)

Lemma modifies_ret {A} own (a : A) : modifies_only own (ret a).
Proof. intros h l v _ Hl. exact Hl. Qed.

Lemma modifies_raise {A} own e : modifies_only own (@raise A e).
Proof. intros h l v _ Hl. exact Hl. Qed.

Lemma modifies_bind {A B} own (m : M A) (k : A -> M B) :
  modifies_only own m -> (forall a, modifies_only own (k a)) ->
  modifies_only own (bind m k).
Proof.
  intros Hm Hk h l v Hown Hl. rewrite bind_run.
  specialize (Hm h l v Hown Hl).
  destruct (m h) as [[a|e] h1]; cbn in Hm |- *; [|exact Hm].
  now apply Hk.
Qed.

Lemma modifies_getitem {A} own key (entry : option A) : modifies_only own (getitem key entry).
Proof. destruct entry; [apply modifies_ret | apply modifies_raise]. Qed.

Lemma modifies_getattr {A} own key (entry : option A) : modifies_only own (getattr key entry).
Proof. destruct entry; [apply modifies_ret | apply modifies_raise]. Qed.

Lemma modifies_getindex {A} own (xs : list A) index : modifies_only own (getindex xs index).
Proof. unfold getindex. destruct (xs !! index); [apply modifies_ret | apply modifies_raise]. Qed.

Lemma modifies_lift {A} own (r : result A) : modifies_only own (lift r).
Proof. destruct r; [apply modifies_ret | apply modifies_raise]. Qed.

Lemma modifies_use_writer own writer : modifies_only own (use_writer writer).
Proof. destruct writer; [apply modifies_ret | apply modifies_raise]. Qed.

Lemma modifies_get_layer own layer : modifies_only own (get_layer layer).
Proof. intros h l v _ Hl. unfold get_layer. now destruct (h !! layer). Qed.

Lemma modifies_new_layer own lyr : modifies_only own (new_layer lyr).
Proof.
  intros h l v _ Hl. unfold new_layer. cbn.
  rewrite lookup_insert_ne; [done|].
  intros <-. apply elem_of_dom_2 in Hl. now apply is_fresh in Hl.
Qed.

Lemma modifies_styles_append layer stylename :
  modifies_only (eq layer) (styles_append layer stylename).
Proof.
  intros h l v Hown Hl. unfold styles_append.
  destruct (h !! layer); cbn; [|done]. now rewrite lookup_insert_ne.
Qed.

Lemma modifies_for_each {A B} own (xs : list A) (body : B -> A -> M B) acc :
  (forall acc x, modifies_only own (body acc x)) ->
  modifies_only own (for_each xs body acc).
Proof.
  intros Hbody. revert acc. induction xs as [|x xs IH]; intros acc; cbn [for_each].
  - apply modifies_ret.
  - apply modifies_bind; auto.
Qed.

(** The step that makes the builder safe: the object that [copy_layer]
    returns did not exist before, so code that writes only to it writes to
    no object of the store it started from. *)
Lemma modifies_copy_layer_bind {B} mapnik obj (k : positive -> M B) :
  (forall layer, modifies_only (eq layer) (k layer)) ->
  modifies_only nothing (bind (copy_layer mapnik obj) k).
Proof.
  intros Hk h l v _ Hl. rewrite bind_run. unfold copy_layer.
  rewrite bind_run. unfold get_layer.
  destruct (h !! obj) as [o|]; [|exact Hl].
  unfold new_layer.
  apply Hk.
  - intros <-. apply elem_of_dom_2 in Hl. now apply is_fresh in Hl.
  - rewrite lookup_insert_ne; [done|].
    intros <-. apply elem_of_dom_2 in Hl. now apply is_fresh in Hl.
Qed.

Lemma modifies_bind_raise {A B} own e (k : A -> M B) :
  modifies_only own (bind (raise e) k).
Proof. intros h l v _ Hl. exact Hl. Qed.

(** Steps through code made of the primitives above. *)
Ltac modifies_with known :=
  repeat first
    [ known
    | apply modifies_ret
    | apply modifies_raise
    | apply modifies_getitem
    | apply modifies_getattr
    | apply modifies_getindex
    | apply modifies_lift
    | apply modifies_use_writer
    | apply modifies_get_layer
    | apply modifies_new_layer
    | apply modifies_styles_append
    | apply modifies_bind_raise
    | apply modifies_for_each; intros ? ?
    | apply modifies_bind; [|intros ?]
    | match goal with
      | |- modifies_only _ (match ?x with _ => _ end) => destruct x
      end ].

Ltac modifies := modifies_with fail.

Lemma modifies_map_layers_append own layer m :
  modifies_only own (map_layers_append layer m).
Proof. unfold map_layers_append. modifies. Qed.

Lemma modifies_append_requested_style self layer reqstyle :
  modifies_only (eq layer) (append_requested_style self layer reqstyle).
Proof. unfold append_requested_style. modifies. Qed.

Lemma modifies_overlay_layer self m layer_obj :
  modifies_only nothing (overlay_layer self m layer_obj).
Proof.
  unfold overlay_layer. apply modifies_copy_layer_bind. intros layer.
  modifies_with ltac:(apply modifies_map_layers_append).
Qed.

Lemma modifies_all_layer self m layer_obj :
  modifies_only nothing (all_layer self m layer_obj).
Proof.
  unfold all_layer. apply modifies_copy_layer_bind. intros layer.
  modifies_with
    ltac:(first [apply modifies_append_requested_style | apply modifies_map_layers_append]).
Qed.

Lemma modifies_explicit_layer self params m entry :
  modifies_only nothing (explicit_layer self params m entry).
Proof.
  unfold explicit_layer. destruct entry as [layerindex layername].
  destruct (_ !! layername) as [meta_layer|].
  - apply modifies_copy_layer_bind. intros layer.
    modifies_with ltac:(apply modifies_map_layers_append).
  - destruct (_ !! layername) as [layer_obj|]; [|apply modifies_bind_raise].
    apply modifies_copy_layer_bind. intros layer. unfold style_layer.
    modifies_with
      ltac:(first [apply modifies_append_requested_style | apply modifies_map_layers_append]).
Qed.

Lemma modifies__buildMap self params : modifies_only nothing (_buildMap self params).
Proof.
  unfold _buildMap, check_crs_bbox, new_map, set_map_background, set_map_buffer_size,
    resolve_layers, zoom_to_bbox.
  modifies_with
    ltac:(first [apply modifies_overlay_layer | apply modifies_all_layer
                | apply modifies_explicit_layer]).
Qed.

Lemma modifies_write_features own writer name features :
  modifies_only own (write_features writer name features).
Proof.
  unfold write_features, writer_addlayer, writer_addfeature, writer_addattribute.
  modifies.
Qed.

Lemma modifies_GetFeatureInfo self params querymethod tostring :
  modifies_only nothing (GetFeatureInfo self params querymethod tostring).
Proof.
  unfold GetFeatureInfo, query_all_layer, query_named_layer, query_layer.
  modifies_with
    ltac:(first [apply modifies__buildMap | apply modifies_write_features]).
Qed.

Lemma modifies_nothing_subseteq {A} (m : M A) h :
  modifies_only nothing m -> h ⊆ snd (m h).
Proof.
  intros Hm. apply map_subseteq_spec. intros l v Hl.
  apply Hm; [|exact Hl]. intros [].
Qed.

(** C7: every Layer object that exists when [_buildMap] is called, the
    catalog's entries among them, is the same object with the same value,
    style list included, when [_buildMap] returns or raises, in all three
    modes; the same holds for [GetFeatureInfo], which builds the map first.
    [copy_layer] allocates an object that did not exist before and gives it
    a style list of its own, empty, whatever the original's style list
    holds; the style lists that the builder grows are those of such
    copies.  The copy is shallow: its [datasource] is the reference that the
    original holds, to the same datasource object (line 298), and its
    [wmsextrastyles] is the original's (line 302). *)
Theorem buildMap_keeps_catalog_layers self params h :
  h ⊆ snd (_buildMap self params h) /\
  (forall querymethod tostring,
     h ⊆ snd (GetFeatureInfo self params querymethod tostring h)) /\
  (forall mapnik obj,
     copy_layer mapnik obj h =
       match h !! obj with
       | Some o => (Ok (fresh (dom h)), <[fresh (dom h) := copy_layer_value mapnik o]> h)
       | None => (Raise (ReferenceError obj), h)
       end) /\
  h !! fresh (dom h) = None /\
  (forall mapnik o, Layer.styles (copy_layer_value mapnik o) = []) /\
  (forall mapnik o,
     Layer.datasource (copy_layer_value mapnik o) = Layer.datasource o /\
     Layer.wmsextrastyles (copy_layer_value mapnik o) = Layer.wmsextrastyles o).
Proof.
  split; [apply modifies_nothing_subseteq, modifies__buildMap|].
  split; [intros; apply modifies_nothing_subseteq, modifies_GetFeatureInfo|].
  split.
  - intros mapnik obj. unfold copy_layer. rewrite bind_run. unfold get_layer.
    now destruct (h !! obj).
  - split; [apply not_elem_of_dom, is_fresh|].
    split; [reflexivity|]. intros mapnik o. split; reflexivity.
Qed.

(** ** The map builder: the explicit layer list *)

Lemma for_each_app {A B} (xs ys : list A) (body : B -> A -> M B) acc h :
  for_each (xs ++ ys) body acc h =
  bind (for_each xs body acc) (for_each ys body) h.
Proof.
  revert acc h. induction xs as [|x xs IH]; intros acc h.
  - reflexivity.
  - cbn [app for_each]. rewrite !bind_run.
    destruct (body acc x h) as [[acc'|e] h1]; [|reflexivity].
    rewrite IH. now rewrite bind_run.
Qed.

Lemma enumerate_from_app {A} start (xs ys : list A) :
  enumerate_from start (xs ++ ys) =
  enumerate_from start xs ++ enumerate_from (start + length xs) ys.
Proof.
  revert start. induction xs as [|x xs IH]; intros start; cbn.
  - now rewrite Nat.add_0_r.
  - rewrite IH. do 3 f_equal. lia.
Qed.

Lemma resolve_layers_explicit self params layers m h :
  Params.layers params = Some layers ->
  explicit_mode layers = true ->
  resolve_layers self params m h =
  for_each (enumerate layers) (explicit_layer self params) m h.
Proof.
  intros Hlayers Hmode. unfold resolve_layers. rewrite Hlayers.
  cbn [getitem]. rewrite (bind_ok _ _ h h layers) by reflexivity.
  destruct layers as [|first rest]; [reflexivity|].
  cbn [explicit_mode] in Hmode. apply andb_prop in Hmode as [Hoverlay Hall].
  apply negb_true_iff in Hoverlay, Hall. now rewrite Hoverlay, Hall.
Qed.

Lemma copy_layer_run mapnik obj o (h : gmap positive Layer.t) :
  h !! obj = Some o ->
  copy_layer mapnik obj h =
    (Ok (fresh (dom h)), <[fresh (dom h) := copy_layer_value mapnik o]> h).
Proof.
  intros Hobj. unfold copy_layer. rewrite bind_run. unfold get_layer.
  now rewrite Hobj.
Qed.

(** A name that is neither a meta-layer nor a catalog layer. *)
Lemma explicit_layer_not_defined self params m layerindex layername h :
  MapFactory.meta_layers (WMSBaseServiceHandler.mapfactory self) !! layername = None ->
  MapFactory.layers (WMSBaseServiceHandler.mapfactory self) !! layername = None ->
  explicit_layer self params m (layerindex, layername) h =
    (Raise (LayerNotDefined layername), h).
Proof.
  intros Hmeta Hlayer. unfold explicit_layer. now rewrite Hmeta, Hlayer.
Qed.

(** A catalog layer: the copy is made, then the requested style is read. *)
Lemma explicit_layer_catalog self params m layerindex layername h layer_obj lyr styles :
  MapFactory.meta_layers (WMSBaseServiceHandler.mapfactory self) !! layername = None ->
  MapFactory.layers (WMSBaseServiceHandler.mapfactory self) !! layername = Some layer_obj ->
  h !! layer_obj = Some lyr ->
  Params.styles params = Some styles ->
  explicit_layer self params m (layerindex, layername) h =
    let layer := fresh (dom h) in
    let copy := copy_layer_value (WMSBaseServiceHandler.mapnik self) lyr in
    let reqstyle := match styles !! layerindex with Some s => s | None => "" end in
    ((if negb (String.eqb reqstyle "") then
        let! wmsextrastyles := getattr "wmsextrastyles" (Layer.wmsextrastyles copy) in
        if negb (str_in reqstyle wmsextrastyles)
        then raise (StyleNotDefined reqstyle layername)
        else ret tt
      else ret tt) ;;
     let! reqstyle :=
       if String.eqb reqstyle ""
       then getattr "wmsdefaultstyle" (Layer.wmsdefaultstyle copy)
       else ret reqstyle in
     style_layer self layer layername reqstyle m) (<[layer := copy]> h).
Proof.
  intros Hmeta Hlayer Hobj Hstyles. unfold explicit_layer.
  rewrite Hmeta, Hlayer, Hstyles.
  rewrite (bind_ok _ _ _ _ _ (copy_layer_run _ _ _ _ Hobj)).
  cbn [getitem]. rewrite (bind_ok _ _ _ _ styles) by reflexivity.
  erewrite bind_ok; [reflexivity|].
  unfold get_layer. now rewrite lookup_insert_eq.
Qed.

(** The layer's style list receives one plain style that the catalog
    defines. *)
Lemma style_layer_plain self layer layername reqstyle style m lyr
    (h : gmap positive Layer.t) :
  MapFactory.aggregatestyles (WMSBaseServiceHandler.mapfactory self) !! reqstyle = None ->
  MapFactory.styles (WMSBaseServiceHandler.mapfactory self) !! reqstyle = Some style ->
  h !! layer = Some lyr ->
  Layer.styles lyr = [] ->
  style_layer self layer layername reqstyle m h =
    (Ok (Map.layers_append (Layer.styles_append reqstyle lyr)
           (Map.append_style reqstyle style m)),
     <[layer := Layer.styles_append reqstyle lyr]> h).
Proof.
  intros Hagg Hstyle Hlayer Hempty. unfold style_layer, append_requested_style.
  rewrite Hagg.
  assert (Happend : styles_append layer reqstyle h =
            (Ok tt, <[layer := Layer.styles_append reqstyle lyr]> h)).
  { unfold styles_append. now rewrite Hlayer. }
  rewrite (bind_ok _ _ _ _ _ Happend).
  assert (Hget : get_layer layer (<[layer := Layer.styles_append reqstyle lyr]> h) =
            (Ok (Layer.styles_append reqstyle lyr),
             <[layer := Layer.styles_append reqstyle lyr]> h)).
  { unfold get_layer. now rewrite lookup_insert_eq. }
  rewrite (bind_ok _ _ _ _ _ Hget).
  cbn [Layer.styles_append Layer.styles]. rewrite Hempty. cbn [app for_each].
  rewrite Hstyle.
  rewrite (bind_ok _ _ _ _ (Map.append_style reqstyle style m)) by reflexivity.
  unfold map_layers_append. rewrite (bind_ok _ _ _ _ _ Hget). reflexivity.
Qed.

(** With the layers before it resolved, the outcome of the request is
    decided by the first layer whose resolution raises. *)
Lemma resolve_layers_first_failure self params pre layername post m0 h m1 h1 e h2 :
  Params.layers params = Some (pre ++ layername :: post) ->
  explicit_mode (pre ++ layername :: post) = true ->
  for_each (enumerate pre) (explicit_layer self params) m0 h = (Ok m1, h1) ->
  explicit_layer self params m1 (length pre, layername) h1 = (Raise e, h2) ->
  resolve_layers self params m0 h = (Raise e, h2).
Proof.
  intros Hlayers Hmode Hpre Hstep.
  rewrite (resolve_layers_explicit _ _ _ _ _ Hlayers Hmode).
  unfold enumerate in *. rewrite enumerate_from_app, for_each_app.
  rewrite (bind_ok _ _ _ _ _ Hpre). cbn [enumerate_from for_each].
  now apply bind_raise.
Qed.

(** C4 (amended): in the explicit-layer-list mode, once every layer listed
    before it has resolved, a layer name that matches neither a meta-layer
    nor a catalog layer makes the request fail with LayerNotDefined, and a
    non-empty style at the layer's position in [styles] that is not among
    the catalog layer's extra styles makes it fail with StyleNotDefined (the
    first layer in request order that fails decides the error); a position
    that is out of range or holds the empty string resolves the layer with
    its default style, which for a plain style that the catalog defines
    appends the styled copy to the map. *)
Theorem explicit_layers_first_failure_wins
    self params pre layername post m0 h m1 h1 :
  Params.layers params = Some (pre ++ layername :: post) ->
  explicit_mode (pre ++ layername :: post) = true ->
  for_each (enumerate pre) (explicit_layer self params) m0 h = (Ok m1, h1) ->
  MapFactory.meta_layers (WMSBaseServiceHandler.mapfactory self) !! layername = None ->
  (MapFactory.layers (WMSBaseServiceHandler.mapfactory self) !! layername = None ->
   resolve_layers self params m0 h = (Raise (LayerNotDefined layername), h1)) /\
  (forall layer_obj lyr styles,
     MapFactory.layers (WMSBaseServiceHandler.mapfactory self) !! layername = Some layer_obj ->
     h1 !! layer_obj = Some lyr ->
     Params.styles params = Some styles ->
     let layer := fresh (dom h1) in
     let copy := copy_layer_value (WMSBaseServiceHandler.mapnik self) lyr in
     (forall reqstyle wmsextrastyles,
        styles !! length pre = Some reqstyle ->
        reqstyle <> "" ->
        Layer.wmsextrastyles lyr = Some wmsextrastyles ->
        str_in reqstyle wmsextrastyles = false ->
        resolve_layers self params m0 h =
          (Raise (StyleNotDefined reqstyle layername), <[layer := copy]> h1)) /\
     (forall wmsdefaultstyle,
        styles !! length pre = None \/ styles !! length pre = Some "" ->
        Layer.wmsdefaultstyle lyr = Some wmsdefaultstyle ->
        explicit_layer self params m1 (length pre, layername) h1 =
          style_layer self layer layername wmsdefaultstyle m1 (<[layer := copy]> h1) /\
        (forall style,
           MapFactory.aggregatestyles (WMSBaseServiceHandler.mapfactory self)
             !! wmsdefaultstyle = None ->
           MapFactory.styles (WMSBaseServiceHandler.mapfactory self)
             !! wmsdefaultstyle = Some style ->
           explicit_layer self params m1 (length pre, layername) h1 =
             (Ok (Map.layers_append (Layer.styles_append wmsdefaultstyle copy)
                    (Map.append_style wmsdefaultstyle style m1)),
              <[layer := Layer.styles_append wmsdefaultstyle copy]> h1)))).
Proof.
  intros Hlayers Hmode Hpre Hmeta. split.
  - intros Hnone.
    eapply resolve_layers_first_failure; eauto.
    now apply explicit_layer_not_defined.
  - intros layer_obj lyr styles Hlayer Hobj Hstyles layer copy.
    pose proof (explicit_layer_catalog self params m1 (length pre) layername h1
                  layer_obj lyr styles Hmeta Hlayer Hobj Hstyles) as Hstep.
    cbv zeta in Hstep. fold layer copy in Hstep.
    split.
    + intros reqstyle wmsextrastyles Hreq Hne Hextra Hnotin.
      eapply resolve_layers_first_failure; eauto.
      rewrite Hstep, Hreq.
      apply String.eqb_neq in Hne. rewrite Hne. cbn [negb].
      apply bind_raise.
      change (Layer.wmsextrastyles copy) with (Layer.wmsextrastyles lyr).
      rewrite Hextra. cbn [getattr].
      rewrite (bind_ok _ _ _ _ wmsextrastyles) by reflexivity.
      now rewrite Hnotin.
    + intros wmsdefaultstyle Hpos Hdefault.
      assert (Hdef : explicit_layer self params m1 (length pre, layername) h1 =
                style_layer self layer layername wmsdefaultstyle m1 (<[layer := copy]> h1)).
      { rewrite Hstep.
        assert (match styles !! length pre with Some s => s | None => "" end = "")
          as -> by (destruct Hpos as [-> | ->]; reflexivity).
        cbn [String.eqb negb].
        rewrite (bind_ok _ _ _ _ tt) by reflexivity.
        change (Layer.wmsdefaultstyle copy) with (Layer.wmsdefaultstyle lyr).
        rewrite Hdefault. cbn [getattr].
        now rewrite (bind_ok _ _ _ _ wmsdefaultstyle) by reflexivity. }
      split; [exact Hdef|].
      intros style Hagg Hstyle. rewrite Hdef.
      rewrite (style_layer_plain self layer layername wmsdefaultstyle style m1 copy);
        [|assumption|assumption|apply lookup_insert_eq|reflexivity].
      now rewrite insert_insert_eq.
Qed.

(** ** Feature info *)

Section FeatureInfoProperties.
Variable self : WMSBaseServiceHandler.t.
Variable params : Params.t.
Variable querymethod : Map.t -> nat -> Z -> Z -> list Feature.
Variable tostring : Element -> string.
Variable m : Map.t.

Lemma query_layer_logs layerindex name state h state' h' :
  query_layer params querymethod m layerindex name state h = (Ok state', h') ->
  snd state' = snd state ++ [layerindex] /\
  (no_feature params querymethod m layerindex -> fst state' = fst state).
Proof.
  unfold query_layer. intros Hrun.
  destruct (Params.i params) as [i|] eqn:Hi; [|discriminate].
  destruct (Params.j params) as [j|] eqn:Hj; [|discriminate].
  cbn [getitem] in Hrun.
  rewrite (bind_ok _ _ h h i) in Hrun by reflexivity.
  rewrite (bind_ok _ _ h h j) in Hrun by reflexivity.
  cbv zeta in Hrun. inv_bind Hrun. injection Hrun as <- _. cbn [fst snd].
  split; [reflexivity|].
  intros Hnone. rewrite (Hnone i j Hi Hj) in Hrun0.
  cbn in Hrun0. now injection Hrun0 as <- _.
Qed.

Lemma query_all_layer_logs :
  logs_one_query params querymethod m (query_all_layer params querymethod m).
Proof.
  intros state [layerindex layer] h state' h' Hrun.
  exists layerindex. eapply query_layer_logs. exact Hrun.
Qed.

Lemma query_named_layer_logs :
  logs_one_query params querymethod m (query_named_layer params querymethod m).
Proof.
  intros state [layerindex layername] h state' h' Hrun.
  exists layerindex. unfold query_named_layer in Hrun.
  inv_bind Hrun.
  destruct (str_in layername a); [|discriminate].
  inv_bind Hrun.
  destruct (Layer.queryable a0); [|discriminate].
  eapply query_layer_logs. exact Hrun.
Qed.

(** A successful loop whose logged queries all found nothing leaves the
    writer as it was. *)
Lemma for_each_writes_nothing {A}
    (body : option Writer * list nat -> A -> M (option Writer * list nat)) :
  logs_one_query params querymethod m body ->
  forall xs state h state' h',
    for_each xs body state h = (Ok state', h') ->
    (exists rest, snd state' = snd state ++ rest) /\
    ((forall layerindex, layerindex ∈ snd state' -> no_feature params querymethod m layerindex) ->
     fst state' = fst state).
Proof.
  intros Hbody. induction xs as [|x xs IH]; intros state h state' h' Hrun.
  - cbn in Hrun. injection Hrun as <- _. split; [|reflexivity].
    exists []. now rewrite app_nil_r.
  - cbn [for_each] in Hrun. inv_bind Hrun.
    destruct (Hbody _ _ _ _ _ Hrun0) as (layerindex & Hlog & Hsame).
    destruct (IH _ _ _ _ Hrun) as [[rest Hrest] Hkeep].
    split.
    + exists (layerindex :: rest). rewrite Hrest, Hlog. now rewrite <- app_assoc.
    + intros Hnone. rewrite (Hkeep Hnone). apply Hsame. apply Hnone.
      rewrite Hrest, Hlog. apply elem_of_app. left. apply elem_of_app. right.
      now left.
Qed.

(** What the named mode tests for one name of [query_layers]: that the name
    is in [layers], and that the map layer at the name's position in
    [query_layers] is queryable. *)
Lemma query_named_layer_not_in_request state layerindex layername layers h :
  Params.layers params = Some layers ->
  str_in layername layers = false ->
  query_named_layer params querymethod m state (layerindex, layername) h =
    (Raise (LayerNotInRequest layername), h).
Proof.
  intros Hlayers Hin. unfold query_named_layer. rewrite Hlayers. cbn [getitem].
  rewrite (bind_ok _ _ h h layers) by reflexivity. now rewrite Hin.
Qed.

Lemma query_named_layer_by_position state layerindex layername layers layer h :
  Params.layers params = Some layers ->
  str_in layername layers = true ->
  Map.layers m !! layerindex = Some layer ->
  query_named_layer params querymethod m state (layerindex, layername) h =
    if Layer.queryable layer
    then query_layer params querymethod m layerindex (Layer.name layer) state h
    else (Raise (LayerNotQueryable layername), h).
Proof.
  intros Hlayers Hin Hlayer. unfold query_named_layer. rewrite Hlayers. cbn [getitem].
  rewrite (bind_ok _ _ h h layers) by reflexivity. rewrite Hin.
  unfold getindex. rewrite Hlayer.
  rewrite (bind_ok _ _ h h layer) by reflexivity.
  now destruct (Layer.queryable layer).
Qed.

End FeatureInfoProperties.

(** C10: when [GetFeatureInfo] returns a response and none of the layers
    it point-queried yielded a feature, the response's content type is the
    requested [info_format], which is then one of the two known formats, and
    its body is that format's empty document: the empty string for
    [text/plain]; for [text/xml] the XML declaration followed by the
    serialization of the [resultset] root as parsed from the template, an
    element without child elements. *)
Theorem GetFeatureInfo_empty_document
    self params querymethod tostring h resp queried h' :
  GetFeatureInfo self params querymethod tostring h = (Ok (resp, queried), h') ->
  (forall m h1 layerindex,
     _buildMap self params h = (Ok m, h1) ->
     layerindex ∈ queried ->
     no_feature params querymethod m layerindex) ->
  Params.info_format params = Some (Response.content_type resp) /\
  ((Response.content_type resp = "text/plain" /\ Response.content resp = "") \/
   (Response.content_type resp = "text/xml" /\
    Response.content resp =
      "<?xml version=" +:+ quoted "1.0" +:+ "?>" +:+ nl
      +:+ tostring XMLFeatureInfo.basexml_root)) /\
  Element_tag XMLFeatureInfo.basexml_root = "resultset" /\
  Element_children XMLFeatureInfo.basexml_root = [].
Proof.
  intros Hrun Hnone. unfold GetFeatureInfo in Hrun.
  inv_bind Hrun. rename a into m, Hrun0 into Hbuild.
  inv_bind Hrun. rename a into info_format, Hrun0 into Hformat.
  destruct (Params.info_format params) as [f|] eqn:Hf; [|discriminate].
  cbn in Hformat. injection Hformat as -> ->.
  cbv zeta in Hrun.
  inv_bind Hrun. rename a into query_layers.
  inv_bind Hrun. rename a into state, Hrun1 into Hloop.
  inv_bind Hrun. rename a into w, Hrun1 into Hwriter.
  injection Hrun as <- <- _. cbn [Response.content_type Response.content].
  set (writer :=
         if String.eqb info_format "text/plain"
         then Some (TextWriter TextFeatureInfo.__init__)
         else if String.eqb info_format "text/xml"
              then Some (XMLWriter XMLFeatureInfo.__init__)
              else None) in *.
  assert (Hsame : fst state = writer).
  { assert (Hall : forall layerindex, layerindex ∈ snd state ->
                     no_feature params querymethod m layerindex)
      by (intros; eapply Hnone; eauto).
    destruct query_layers as [|first rest].
    - now apply (for_each_writes_nothing params querymethod m _
                   (query_named_layer_logs params querymethod m) _ _ _ _ _ Hloop).
    - destruct (String.eqb first "__all__").
      + now apply (for_each_writes_nothing params querymethod m _
                     (query_all_layer_logs params querymethod m) _ _ _ _ _ Hloop).
      + now apply (for_each_writes_nothing params querymethod m _
                     (query_named_layer_logs params querymethod m) _ _ _ _ _ Hloop). }
  rewrite Hsame in Hwriter. subst writer.
  split; [reflexivity|]. split; [|split; reflexivity].
  destruct (String.eqb_spec info_format "text/plain") as [->|Hplain].
  - left. cbn in Hwriter. injection Hwriter as <- _. split; reflexivity.
  - destruct (String.eqb_spec info_format "text/xml") as [->|Hxml].
    + right. cbn in Hwriter. injection Hwriter as <- _. split; reflexivity.
    + discriminate.
Qed.

(** ** The map builder and the feature-info path on the example catalog *)

(** An allowed CRS with a bounding box whose [minx] equals its [maxx]. *)
Lemma crs_checked_before_bbox_witness :
  exists e, is_InvalidBBox e /\
    _buildMap example_handler flat_request example_store = (Raise e, example_store).
Proof.
  apply (proj2 (crs_checked_before_bbox example_handler flat_request example_store
                  epsg4326 eq_refl)
           eq_refl 0%float 0%float 0%float 10%float eq_refl).
  right. right. left. reflexivity.
Defined.

(** [roads] resolves with its default style; [nosuch], listed after it, is
    not in the catalog. *)
Lemma explicit_layers_first_failure_wins_witness :
  resolve_layers example_handler unknown_layer_request example_new_map example_store =
    (Raise (LayerNotDefined "nosuch"),
     snd (for_each (enumerate ["roads"])
            (explicit_layer example_handler unknown_layer_request)
            example_new_map example_store)).
Proof.
  destruct (for_each (enumerate ["roads"])
              (explicit_layer example_handler unknown_layer_request)
              example_new_map example_store) as [[m1|e] h1] eqn:Hpre.
  - apply (proj1 (explicit_layers_first_failure_wins example_handler unknown_layer_request
                    ["roads"] "nosuch" [] example_new_map example_store m1 h1
                    eq_refl eq_refl Hpre eq_refl)).
    reflexivity.
  - vm_compute in Hpre. discriminate.
Defined.

(** C4, as stated, fails on a request with two faulty layers: the error is
    that of the first one in request order.  [nosuch] matches no meta-layer
    and no catalog layer, yet the request fails with StyleNotDefined for
    [roads]; and [bad] is not an extra style of [roads], yet the request
    fails with LayerNotDefined for [nosuch]. *)
Lemma earlier_layer_error_wins :
  MapFactory.meta_layers example_mapfactory !! "nosuch" = None /\
  MapFactory.layers example_mapfactory !! "nosuch" = None /\
  Layer.wmsextrastyles roads_layer = Some ["night"] /\
  str_in "bad" ["night"] = false /\
  fst (_buildMap example_handler bad_style_then_unknown_layer_request example_store) =
    Raise (StyleNotDefined "bad" "roads") /\
  StyleNotDefined "bad" "roads" <> LayerNotDefined "nosuch" /\
  fst (_buildMap example_handler unknown_layer_then_bad_style_request example_store) =
    Raise (LayerNotDefined "nosuch") /\
  LayerNotDefined "nosuch" <> StyleNotDefined "bad" "roads".
Proof.
  repeat split; try reflexivity; try (vm_compute; reflexivity);
    vm_compute; discriminate.
Qed.

(** C7, as stated, fails on its last clause: the copy is not independent of
    the original in every respect.  The copy of the catalog's [roads] layer
    is a new object and [roads] is left as it is, yet the copy's
    [datasource] is the reference that [roads] holds, so both layers have
    the same datasource object, and its [wmsextrastyles] is that of
    [roads]. *)
Lemma copy_layer_shares_datasource :
  example_store !! 1%positive = Some roads_layer /\
  Layer.datasource roads_layer = Some 1%positive /\
  exists layer lyr h',
    copy_layer (WMSBaseServiceHandler.mapnik example_handler) 1%positive example_store =
      (Ok layer, h') /\
    layer <> 1%positive /\
    h' !! 1%positive = Some roads_layer /\
    h' !! layer = Some lyr /\
    Layer.datasource lyr = Layer.datasource roads_layer /\
    Layer.wmsextrastyles lyr = Layer.wmsextrastyles roads_layer.
Proof.
  split; [reflexivity|]. split; [reflexivity|].
  exists (fresh (dom example_store)),
    (copy_layer_value (WMSBaseServiceHandler.mapnik example_handler) roads_layer),
    (<[fresh (dom example_store) :=
         copy_layer_value (WMSBaseServiceHandler.mapnik example_handler) roads_layer]>
       example_store).
  assert (example_store !! fresh (dom example_store) = None) as Hfresh
    by apply not_elem_of_dom, is_fresh.
  assert (fresh (dom example_store) <> 1%positive) as Hne
    by (intros Heq; rewrite Heq in Hfresh; discriminate).
  split; [now apply copy_layer_run|]. split; [exact Hne|].
  split; [now rewrite lookup_insert_ne|].
  split; [apply lookup_insert_eq|]. split; reflexivity.
Qed.



(** A plain-text query of [roads] where the point query finds nothing. *)
Lemma GetFeatureInfo_empty_document_witness :
  exists resp queried h',
    GetFeatureInfo example_handler query_roads_request empty_querymethod example_tostring
      example_store = (Ok (resp, queried), h') /\
    Response.content_type resp = "text/plain" /\
    Response.content resp = "".
Proof.
  destruct (GetFeatureInfo example_handler query_roads_request empty_querymethod
              example_tostring example_store) as [[[resp queried]|e] h'] eqn:Hrun.
  - exists resp, queried, h'. split; [reflexivity|].
    destruct (GetFeatureInfo_empty_document example_handler query_roads_request
                empty_querymethod example_tostring example_store resp queried h' Hrun)
      as (Hformat & [Hplain | [Hxml _]] & _).
    + intros m h1 layerindex _ _ i j _ _. reflexivity.
    + exact Hplain.
    + cbn in Hformat. congruence.
  - vm_compute in Hrun. discriminate.
Defined.

(** C8 at the failing input: the request shows [roads] and [rivers] and
    queries [rivers], which is not queryable.  The test reads the layer at
    position 0 of the map, the position of [rivers] in [query_layers], which
    is [roads]: nothing is raised, and [roads] is the layer point-queried
    and reported. *)
Theorem query_layer_checked_by_position :
  MapFactory.layers example_mapfactory !! "rivers" = Some 2%positive /\
  example_store !! 2%positive = Some rivers_layer /\
  Layer.queryable rivers_layer = false /\
  fst (GetFeatureInfo example_handler query_rivers_request example_querymethod
         example_tostring example_store) =
    Ok (Response.mk "text/plain"
          (nl +:+ "[roads]" +:+ nl +:+ "name=Main Street" +:+ nl),
        [0]) /\
  fst (GetFeatureInfo example_handler query_rivers_request example_querymethod
         example_tostring example_store) <> Raise (LayerNotQueryable "rivers").
Proof.
  split; [reflexivity|]. split; [reflexivity|]. split; [reflexivity|].
  assert (Hrun : fst (GetFeatureInfo example_handler query_rivers_request
                        example_querymethod example_tostring example_store) =
                 Ok (Response.mk "text/plain"
                       (nl +:+ "[roads]" +:+ nl +:+ "name=Main Street" +:+ nl),
                     [0]))
    by (vm_compute; reflexivity).
  split; [exact Hrun|]. rewrite Hrun. discriminate.
Qed.

(** * Further properties of the code *)

(** ** Splitting and ListFactory *)

Lemma str_split_nonempty sep s : str_split sep s <> [].
Proof.
  destruct s as [|c s]; cbn; [discriminate|].
  destruct (Ascii.eqb c sep); [discriminate|].
  destruct (str_split sep s); discriminate.
Qed.

Lemma str_split_length sep s : length (str_split sep s) = S (str_count sep s).
Proof.
  induction s as [|c s IH]; cbn; [reflexivity|].
  destruct (Ascii.eqb c sep); cbn.
  - now rewrite IH.
  - destruct (str_split sep s) as [|piece pieces] eqn:Hsplit.
    + now apply str_split_nonempty in Hsplit.
    + cbn in IH |- *. exact IH.
Qed.

Lemma str_split_no_sep sep s : str_count sep s = 0 -> str_split sep s = [s].
Proof.
  induction s as [|c s IH]; cbn; [reflexivity|].
  destruct (Ascii.eqb c sep); [discriminate|].
  cbn. intros Hcount. now rewrite (IH Hcount).
Qed.

Lemma str_split_app sep piece s :
  str_count sep piece = 0 ->
  str_split sep (piece +:+ String sep s) = piece :: str_split sep s.
Proof.
  induction piece as [|c piece IH]; intros Hcount.
  - change (str_split sep (String sep s) = EmptyString :: str_split sep s).
    cbn [str_split]. now rewrite Ascii.eqb_refl.
  - rewrite append_cons. cbn [str_split str_count] in Hcount |- *.
    destruct (Ascii.eqb c sep); [discriminate|].
    now rewrite (IH Hcount).
Qed.

(** Splitting what [join] built gives the pieces back, when there is at
    least one piece and no piece holds the separator. *)
Lemma str_split_join sep pieces :
  pieces <> [] ->
  Forall (fun piece => str_count sep piece = 0) pieces ->
  str_split sep (str_join sep pieces) = pieces.
Proof.
  induction pieces as [|piece rest IH]; intros Hne Hall; [done|].
  apply Forall_cons in Hall as [Hpiece Hrest].
  destruct rest as [|piece' rest].
  - cbn. now apply str_split_no_sep.
  - change (str_join sep (piece :: piece' :: rest))
      with (piece +:+ String sep (str_join sep (piece' :: rest))).
    rewrite (str_split_app _ _ _ Hpiece). f_equal. now apply IH.
Qed.

Lemma map_result_length {A B} (f : A -> result B) seq ys :
  map_result f seq = Ok ys -> length ys = length seq.
Proof.
  revert ys. induction seq as [|x seq IH]; intros ys; cbn.
  - now intros [= <-].
  - destruct (f x) as [y|e]; [|discriminate].
    destruct (map_result f seq) as [ys'|e]; [|discriminate].
    intros [= <-]. cbn. now rewrite (IH ys').
Qed.

Lemma map_result_total {A B} (f : A -> result B) (g : A -> B) seq :
  Forall (fun x => f x = Ok (g x)) seq -> map_result f seq = Ok (map g seq).
Proof.
  induction 1 as [|x seq Hx _ IH]; cbn; [reflexivity|]. now rewrite Hx, IH.
Qed.

(** X1: [ListFactory(cast)] never returns an empty list: the result has one
    element per comma-separated piece, that is one more than the string has
    commas, so the empty string gives one element, the cast of the empty
    string. *)
Theorem ListFactory_never_empty {A} (cast : string -> result A) string values :
  ListFactory cast string = Ok values ->
  length values = S (str_count ","%char string) /\ values <> [] /\
  (string = "" -> exists value, cast "" = Ok value /\ values = [value]).
Proof.
  unfold ListFactory. intros Hrun.
  pose proof (map_result_length _ _ _ Hrun) as Hlen.
  rewrite str_split_length in Hlen.
  split; [exact Hlen|]. split.
  - intros ->. discriminate.
  - intros ->. cbn in Hrun.
    destruct (cast "") as [value|e]; [|discriminate].
    injection Hrun as <-. eauto.
Qed.

(** X2: [ListFactory(cast)] inverts [','.join]: for a non-empty list of
    pieces without commas, each of which casts, the joined string is
    converted to the list of the casts, in order. *)
Theorem ListFactory_join {A} (cast : string -> result A) (value : string -> A) pieces :
  pieces <> [] ->
  Forall (fun piece => str_count ","%char piece = 0) pieces ->
  Forall (fun piece => cast piece = Ok (value piece)) pieces ->
  ListFactory cast (str_join ","%char pieces) = Ok (map value pieces).
Proof.
  intros Hne Hcommas Hcast. unfold ListFactory.
  rewrite (str_split_join _ _ Hne Hcommas). now apply map_result_total.
Qed.

(** ** Decimal numerals *)

Lemma append_assoc (s1 s2 s3 : string) : (s1 +:+ s2) +:+ s3 = s1 +:+ (s2 +:+ s3).
Proof.
  induction s1 as [|c s1 IH]; [reflexivity|].
  rewrite !append_cons. now rewrite IH.
Qed.

Lemma append_nil_r (s : string) : s +:+ "" = s.
Proof. induction s as [|c s IH]; [reflexivity|]. rewrite append_cons. now rewrite IH. Qed.

Lemma str_all_app p s1 s2 : str_all p (s1 +:+ s2) = str_all p s1 && str_all p s2.
Proof.
  induction s1 as [|c s1 IH]; [reflexivity|].
  rewrite append_cons. cbn [str_all]. rewrite IH. now rewrite andb_assoc.
Qed.

Lemma digit_value_pretty_N_char (d : N) :
  (d < 10)%N ->
  digit_value (pretty_N_char d) = Some (Z.of_N d) /\ is_digit (pretty_N_char d) = true.
Proof.
  intros Hd.
  assert (d = 0 \/ d = 1 \/ d = 2 \/ d = 3 \/ d = 4 \/ d = 5 \/ d = 6 \/ d = 7
          \/ d = 8 \/ d = 9)%N as Hcases by lia.
  repeat (destruct Hcases as [-> | Hcases]; [split; reflexivity|]).
  subst d. split; reflexivity.
Qed.

Lemma digits_value_app acc d s :
  digits_value acc (d +:+ s) =
  match digits_value acc d with
  | Some acc' => digits_value acc' s
  | None => None
  end.
Proof.
  revert acc. induction d as [|c d IH]; intros acc; [reflexivity|].
  rewrite append_cons. cbn [digits_value].
  destruct (digit_value c); [apply IH | reflexivity].
Qed.

(** The digits that [pretty] puts in front of its accumulator: all of them
    decimal digits, at least one for a positive number, and read back by
    [digits_value] as the number. *)
Lemma pretty_N_go_digits (x : N) :
  exists d,
    (forall s, pretty_N_go x s = d +:+ s) /\
    str_all is_digit d = true /\
    ((0 < x)%N -> d <> "") /\
    forall acc, digits_value acc d =
      Some (acc * 10 ^ Z.of_nat (String.length d) + Z.of_N x)%Z.
Proof.
  induction (N.lt_wf_0 x) as [x _ IH].
  destruct (decide (x = 0%N)) as [->|Hpos].
  - exists "". repeat split; try reflexivity; try lia.
    intros acc. cbn. f_equal. lia.
  - assert (0 < x)%N as Hx by lia.
    destruct (IH (x `div` 10)%N) as (d & Hgo & Hall & _ & Hval).
    { apply N.div_lt; lia. }
    destruct (digit_value_pretty_N_char (x `mod` 10)%N) as [Hdigit Hisdigit].
    { apply N.mod_lt. lia. }
    exists (d +:+ String (pretty_N_char (x `mod` 10)) "").
    split; [|split; [|split]].
    + intros s. rewrite (pretty_N_go_step x s Hx), Hgo.
      now rewrite append_assoc.
    + rewrite str_all_app, Hall. cbn [str_all]. now rewrite Hisdigit.
    + intros _. destruct d; discriminate.
    + intros acc. rewrite digits_value_app, Hval. cbn [digits_value].
      rewrite Hdigit. f_equal.
      rewrite length_append. cbn [String.length].
      replace (Z.of_nat (String.length d + 1)) with (Z.succ (Z.of_nat (String.length d)))
        by lia.
      rewrite Z.pow_succ_r by lia.
      pose proof (N.div_mod x 10 ltac:(lia)) as Hdivmod.
      lia.
Qed.

Lemma pretty_N_decimal (n : N) :
  str_all is_digit (pretty n) = true /\ pretty n <> "" /\
  digits_value 0 (pretty n) = Some (Z.of_N n).
Proof.
  unfold pretty, pretty_N. case_decide as Hn.
  - subst n. split; [reflexivity|]. split; [discriminate | reflexivity].
  - destruct (pretty_N_go_digits n) as (d & Hgo & Hall & Hne & Hval).
    rewrite Hgo, append_nil_r. split; [exact Hall|]. split.
    + apply Hne. lia.
    + rewrite Hval. f_equal; lia.
Qed.

Lemma pretty_Z_of_N (n : N) : pretty (Z.of_N n) = pretty n.
Proof. now destruct n. Qed.

(** ** CRSFactory *)

Lemma span_app p d rest :
  str_all p d = true ->
  match rest with String c _ => p c = false | EmptyString => True end ->
  span p (d +:+ rest) = (d, rest).
Proof.
  intros Hall Hrest. induction d as [|c d IH].
  - destruct rest as [|c r]; [reflexivity|]. cbn [span String.append].
    change ("" +:+ String c r) with (String c r). cbn [span]. now rewrite Hrest.
  - rewrite append_cons. cbn [str_all] in Hall. apply andb_prop in Hall as [Hc Hd].
    cbn [span]. rewrite Hc, (IH Hd). reflexivity.
Qed.

Lemma span_spec p s :
  s = fst (span p s) +:+ snd (span p s) /\ str_all p (fst (span p s)) = true.
Proof.
  induction s as [|c s [IHeq IHall]]; [split; reflexivity|].
  cbn [span]. destruct (p c) eqn:Hc.
  - destruct (span p s) as [prefix rest]. cbn [fst snd] in *.
    rewrite append_cons. split; [now rewrite <- IHeq|].
    cbn [str_all]. now rewrite Hc, IHall.
  - split; reflexivity.
Qed.

Lemma str_all_count p sep s :
  str_all p s = true -> p sep = false -> str_count sep s = 0.
Proof.
  intros Hall Hsep. induction s as [|c s IH]; [reflexivity|].
  cbn [str_all] in Hall. apply andb_prop in Hall as [Hc Hs].
  cbn [str_count]. rewrite (IH Hs).
  destruct (Ascii.eqb_spec c sep) as [->|_]; [congruence | reflexivity].
Qed.

Lemma digits_value_nonneg s acc z :
  digits_value acc s = Some z -> (0 <= acc)%Z -> (0 <= z)%Z.
Proof.
  revert acc. induction s as [|c s IH]; intros acc; cbn [digits_value].
  - intros [= <-]. auto.
  - destruct (digit_value c) as [d|] eqn:Hd; [|discriminate].
    intros Hrun Hacc. apply (IH _ Hrun).
    unfold digit_value in Hd. destruct (_ && _)%bool; [|discriminate].
    injection Hd as <-. lia.
Qed.

Lemma int_of_decimal_nonneg code : (0 <= int_of_decimal code)%Z.
Proof.
  unfold int_of_decimal.
  destruct (digits_value 0 _) as [z|] eqn:Hz; [|lia].
  now apply (digits_value_nonneg _ _ _ Hz).
Qed.

Lemma is_upper_lower_ascii (c : ascii) : is_upper (lower_ascii c) = false.
Proof. destruct c as [[] [] [] [] [] [] [] []]; reflexivity. Qed.

(** The decimal numeral of a natural number, alone or before a final line
    break, is read by [int] as the number. *)
Lemma int_of_decimal_pretty (n : N) tail :
  tail = "" \/ tail = nl ->
  span is_digit (pretty n +:+ tail) = (pretty n, tail) /\
  int_of_decimal (pretty n +:+ tail) = Z.of_N n.
Proof.
  intros Htail. destruct (pretty_N_decimal n) as (Hall & _ & Hval).
  assert (Hspan : span is_digit (pretty n +:+ tail) = (pretty n, tail)).
  { apply span_app; [exact Hall|]. now destruct Htail as [-> | ->]. }
  split; [exact Hspan|].
  unfold int_of_decimal. rewrite Hspan. cbn [fst]. now rewrite Hval.
Qed.

(** X3: [CRSFactory] accepts a namespace of three to five capitals from its
    allowed list, followed by a colon and the decimal numeral of a natural
    number, and returns the CRS with the lower-cased namespace and that
    number as code; a line break after the numeral is accepted too and
    changes nothing. *)
Theorem CRSFactory_accepts allowednamespaces namespace (n : N) tail :
  str_all is_upper namespace = true ->
  3 <= String.length namespace <= 5 ->
  namespace ∈ allowednamespaces ->
  tail = "" \/ tail = nl ->
  CRSFactory allowednamespaces (namespace +:+ ":" +:+ pretty n +:+ tail) =
    Ok (CRS.__init__ namespace (Z.of_N n)) /\
  CRS.__repr__ (CRS.__init__ namespace (Z.of_N n)) =
    lower namespace +:+ ":" +:+ pretty n.
Proof.
  intros Hupper Hlen Hallowed Htail.
  split; [|unfold CRS.__repr__, CRS.__init__; cbn [CRS.namespace CRS.code];
           now rewrite pretty_Z_of_N].
  destruct (int_of_decimal_pretty n tail Htail) as [Hspan Hint].
  change (":" +:+ pretty n +:+ tail) with (String ":" (pretty n +:+ tail)).
  unfold CRSFactory, crs_pattern.
  rewrite (span_app is_upper namespace (String ":" (pretty n +:+ tail)) Hupper eq_refl).
  rewrite Hspan.
  assert ((3 <=? String.length namespace) = true) as -> by (apply Nat.leb_le; lia).
  assert ((String.length namespace <=? 5) = true) as -> by (apply Nat.leb_le; lia).
  assert (negb (String.eqb (pretty n) "") = true) as ->.
  { apply negb_true_iff, String.eqb_neq. apply (pretty_N_decimal n). }
  assert (at_end tail = true) as -> by (destruct Htail as [-> | ->]; reflexivity).
  cbn [andb negb].
  rewrite str_split_app by (now apply (str_all_count is_upper)).
  unfold str_in. rewrite bool_decide_eq_true_2 by exact Hallowed.
  assert (str_count ":" (pretty n +:+ tail) = 0) as Hcount.
  { destruct (pretty_N_decimal n) as (Hall & _ & _).
    clear Hspan Hint. revert Hall. generalize (pretty n). intros d Hall.
    induction d as [|c d IH].
    - destruct Htail as [-> | ->]; reflexivity.
    - rewrite append_cons. cbn [str_all] in Hall.
      apply andb_prop in Hall as [Hc Hd]. cbn [str_count]. rewrite (IH Hd).
      destruct (Ascii.eqb_spec c ":") as [->|_]; [discriminate | reflexivity]. }
  rewrite (str_split_no_sep _ _ Hcount). now rewrite Hint.
Qed.

(** X4: [CRSFactory] never accepts the string form of a CRS: [str(crs)] has
    a lower-cased namespace, which the pattern's capitals do not match, so
    the string is refused as badly formatted whatever the allowed
    namespaces are. *)
Theorem CRSFactory_rejects_string_form allowednamespaces namespace code :
  CRSFactory allowednamespaces (CRS.__repr__ (CRS.__init__ namespace code)) =
    Raise (InvalidCRS_format (CRS.__repr__ (CRS.__init__ namespace code))).
Proof.
  unfold CRSFactory.
  assert (crs_pattern (CRS.__repr__ (CRS.__init__ namespace code)) = false) as ->;
    [|reflexivity].
  unfold CRS.__repr__, CRS.__init__, crs_pattern. cbn [CRS.namespace CRS.code].
  change (":" +:+ pretty code) with (String ":" (pretty code)).
  destruct namespace as [|c namespace].
  - reflexivity.
  - cbn [lower]. rewrite append_cons. cbn [span].
    now rewrite is_upper_lower_ascii.
Qed.

(** X5: whatever the string, [CRSFactory] either returns a CRS whose
    namespace is the lower-cased form of an allowed namespace made of three
    to five capitals, with a non-negative code and no projection handle yet,
    or raises a request error that carries the code [InvalidCRS]. *)
Theorem CRSFactory_outcome allowednamespaces crsstring :
  match CRSFactory allowednamespaces crsstring with
  | Ok crs =>
      exists namespace,
        namespace ∈ allowednamespaces /\
        str_all is_upper namespace = true /\
        3 <= String.length namespace <= 5 /\
        CRS.namespace crs = lower namespace /\
        (0 <= CRS.code crs)%Z /\
        CRS.proj crs = None
  | Raise e => exists message, e = OGCException message (Some "InvalidCRS")
  end.
Proof.
  unfold CRSFactory.
  destruct (crs_pattern crsstring) eqn:Hpattern; cbn [negb];
    [|eexists; reflexivity].
  unfold crs_pattern in Hpattern.
  destruct (span_spec is_upper crsstring) as [Heq Hupper].
  destruct (span is_upper crsstring) as [capitals rest]. cbn [fst snd] in *.
  apply andb_prop in Hpattern as [Hlen Hrest].
  apply andb_prop in Hlen as [Hlo Hhi].
  apply Nat.leb_le in Hlo, Hhi.
  destruct rest as [|c rest]; [discriminate|].
  destruct (Ascii.eqb_spec c ":") as [->|Hne].
  2:{ destruct c as [[] [] [] [] [] [] [] []]; try discriminate. now destruct Hne. }
  rewrite Heq, str_split_app by (now apply (str_all_count is_upper)).
  unfold str_in. case_bool_decide as Hallowed; [|eexists; reflexivity].
  destruct (str_split ":" rest) as [|code crsparts] eqn:Hsplit.
  { now apply str_split_nonempty in Hsplit. }
  exists capitals. repeat split; auto. apply int_of_decimal_nonneg.
Qed.

(** ** ColorFactory *)

Lemma hex_value_hex_digit capitals d :
  (0 <= d < 16)%Z -> hex_value (hex_digit capitals d) = Some d.
Proof.
  intros Hd.
  assert (d = 0 \/ d = 1 \/ d = 2 \/ d = 3 \/ d = 4 \/ d = 5 \/ d = 6 \/ d = 7 \/
          d = 8 \/ d = 9 \/ d = 10 \/ d = 11 \/ d = 12 \/ d = 13 \/ d = 14 \/ d = 15)%Z
    as Hcases by lia.
  destruct capitals;
    repeat (destruct Hcases as [-> | Hcases]; [reflexivity|]); subst d; reflexivity.
Qed.

Lemma eval_hex_pair_hex_byte capitals n rest :
  (0 <= n < 256)%Z ->
  eval_hex_pair
    (String (hex_digit capitals (n / 16)) (String (hex_digit capitals (n mod 16)) rest)) = n
  /\ is_hex (hex_digit capitals (n / 16)) = true
  /\ is_hex (hex_digit capitals (n mod 16)) = true.
Proof.
  intros Hn.
  assert (0 <= n / 16 < 16)%Z as Hhi
    by (split; [apply Z.div_pos; lia | apply Z.div_lt_upper_bound; lia]).
  assert (0 <= n mod 16 < 16)%Z as Hlo by (apply Z.mod_pos_bound; lia).
  unfold eval_hex_pair, is_hex.
  rewrite (hex_value_hex_digit _ _ Hhi), (hex_value_hex_digit _ _ Hlo).
  repeat split. symmetry. apply Z.div_mod. lia.
Qed.

Lemma hex_value_range c v : hex_value c = Some v -> (0 <= v < 16)%Z.
Proof.
  unfold hex_value.
  repeat match goal with
         | |- context [if ?b then _ else _] => destruct b eqn:?
         end; intros [= <-];
    repeat match goal with
           | H : (_ && _)%bool = true |- _ => apply andb_prop in H as [? ?]
           | H : (_ <=? _)%N = true |- _ => apply N.leb_le in H
           end; lia.
Qed.

Lemma eval_hex_pair_range h l rest :
  is_hex h = true -> is_hex l = true ->
  (0 <= eval_hex_pair (String h (String l rest)) < 256)%Z.
Proof.
  unfold is_hex, eval_hex_pair.
  destruct (hex_value h) as [a|] eqn:Ha; [|discriminate].
  destruct (hex_value l) as [b|] eqn:Hb; [|discriminate].
  intros _ _. apply hex_value_range in Ha, Hb. lia.
Qed.

(** X6: [ColorFactory] inverts the hexadecimal notation: [0x] followed by
    the two-digit numerals of three bytes, each in capitals or in small
    letters, gives the opaque colour with these bytes as red, green and
    blue, without consulting the rendering library's colour parser; a line
    break after the digits is accepted and ignored. *)
Theorem ColorFactory_hex_round_trip Color_of_string cr cg cb r g b tail :
  (0 <= r < 256)%Z -> (0 <= g < 256)%Z -> (0 <= b < 256)%Z ->
  tail = "" \/ tail = nl ->
  ColorFactory Color_of_string
    ("0x" +:+ hex_byte cr r +:+ hex_byte cg g +:+ hex_byte cb b +:+ tail) =
  Ok (Color.mk r g b 255).
Proof.
  intros Hr Hg Hb Htail.
  destruct (eval_hex_pair_hex_byte cr r
              (String (hex_digit cg (g / 16)) (String (hex_digit cg (g mod 16))
                 (String (hex_digit cb (b / 16)) (String (hex_digit cb (b mod 16)) tail)))) Hr)
    as (Hrv & Hr1 & Hr2).
  destruct (eval_hex_pair_hex_byte cg g
              (String (hex_digit cb (b / 16)) (String (hex_digit cb (b mod 16)) tail)) Hg)
    as (Hgv & Hg1 & Hg2).
  destruct (eval_hex_pair_hex_byte cb b tail Hb) as (Hbv & Hb1 & Hb2).
  unfold hex_byte. cbv [String.append]. fold String.append.
  unfold ColorFactory, color_pattern. cbn [span].
  rewrite Hr1, Hr2, Hg1, Hg2, Hb1, Hb2.
  assert (span is_hex tail = ("", tail)) as ->
    by (destruct Htail as [-> | ->]; reflexivity).
  assert (at_end tail = true) as -> by (destruct Htail as [-> | ->]; reflexivity).
  cbn [String.length Nat.eqb andb String.substring].
  unfold eval_hex_pair in *. now rewrite Hrv, Hgv, Hbv.
Qed.

(** X7: a string that matches the hexadecimal pattern is never refused and
    never reaches the rendering library's colour parser: the result is an
    opaque colour (alpha 255) whose red, green and blue are bytes. *)
Theorem ColorFactory_hex_total (f1 f2 : string -> option Color.t) colorstring :
  color_pattern colorstring = true ->
  ColorFactory f1 colorstring = ColorFactory f2 colorstring /\
  exists r g b,
    ColorFactory f1 colorstring = Ok (Color.mk r g b 255) /\
    (0 <= r < 256)%Z /\ (0 <= g < 256)%Z /\ (0 <= b < 256)%Z.
Proof.
  intros Hpattern. unfold ColorFactory. rewrite Hpattern. split; [reflexivity|].
  unfold color_pattern in Hpattern.
  destruct colorstring as [|c0 [|c1 rest]]; try discriminate.
  - now destruct c0 as [[] [] [] [] [] [] [] []].
  - destruct (Ascii.eqb_spec c0 "0") as [->|Hne0].
    2:{ destruct c0 as [[] [] [] [] [] [] [] []]; try discriminate. now destruct Hne0. }
    destruct (Ascii.eqb_spec c1 "x") as [->|Hne1].
    2:{ destruct c1 as [[] [] [] [] [] [] [] []]; try discriminate. now destruct Hne1. }
    destruct (span_spec is_hex rest) as [Heq Hall].
    destruct (span is_hex rest) as [digits tail]. cbn [fst snd] in *.
    apply andb_prop in Hpattern as [Hlen _]. apply Nat.eqb_eq in Hlen.
    destruct digits as [|h1 [|l1 [|h2 [|l2 [|h3 [|l3 [|more digits]]]]]]];
      try discriminate.
    cbn [str_all] in Hall.
    repeat match goal with
           | H : (_ && _)%bool = true |- _ => apply andb_prop in H as [? H]
           end.
    subst rest. cbv [String.append]. fold String.append.
    cbn [String.substring].
    eexists _, _, _. split; [reflexivity|].
    repeat split; now apply eval_hex_pair_range.
Qed.

(** ** Version *)

Lemma map_result_Forall2 {A B} (f : A -> result B) seq ys :
  map_result f seq = Ok ys -> Forall2 (fun x y => f x = Ok y) seq ys.
Proof.
  revert ys. induction seq as [|x seq IH]; intros ys; cbn.
  - intros [= <-]. constructor.
  - destruct (f x) as [y|e] eqn:Hx; [|discriminate].
    destruct (map_result f seq) as [ys'|e]; [|discriminate].
    intros [= <-]. constructor; auto.
Qed.

Lemma map_result_raise {A B} (f : A -> result B) seq e :
  map_result f seq = Raise e -> exists x, x ∈ seq /\ f x = Raise e.
Proof.
  induction seq as [|x seq IH]; cbn; [discriminate|].
  destruct (f x) as [y|e'] eqn:Hx.
  - destruct (map_result f seq) as [ys'|e']; [discriminate|].
    intros [= ->]. destruct (IH eq_refl) as (x' & Hin & Hx').
    exists x'. split; [now right | exact Hx'].
  - intros [= ->]. exists x. split; [now left | exact Hx].
Qed.

(** X8: [Version(s)] succeeds only on a string with exactly two dots, and
    then holds exactly three integers, the conversions of the three parts in
    order; every failure, a wrong number of parts or a part that [int]
    refuses, is the same request error. *)
Theorem Version_init_outcome (int : string -> result Z) s :
  match Version.__init__ int s with
  | Ok v =>
      str_count "."%char s = 2 /\
      length (Version.version v) = 3 /\
      Forall2 (fun part n => int part = Ok n) (str_split "."%char s) (Version.version v)
  | Raise e =>
      e = InvalidVersion /\
      (str_count "."%char s <> 2 \/
       exists part e', part ∈ str_split "."%char s /\ int part = Raise e')
  end.
Proof.
  unfold Version.__init__.
  pose proof (str_split_length "."%char s) as Hlen.
  destruct (Nat.eqb_spec (length (str_split "." s)) 3) as [H3|H3]; cbn [negb].
  - destruct (map_result int (str_split "." s)) as [numbers|e] eqn:Hmap.
    + cbn [Version.version]. split; [lia|]. split.
      * rewrite (map_result_length _ _ _ Hmap). exact H3.
      * now apply map_result_Forall2.
    + split; [reflexivity|]. right.
      destruct (map_result_raise _ _ _ Hmap) as (part & Hin & Hpart). eauto.
  - split; [reflexivity|]. left. lia.
Qed.

Lemma Version_compare_three a0 a1 a2 b0 b1 b2 :
  exists r, Version.compare (Version.mk [a0; a1; a2]) (Version.mk [b0; b1; b2]) = Ok r /\
    ((r = -1 /\ lex_lt3 [a0; a1; a2] [b0; b1; b2]) \/
     (r = 0 /\ [a0; a1; a2] = [b0; b1; b2]) \/
     (r = 1 /\ lex_lt3 [b0; b1; b2] [a0; a1; a2]))%Z.
Proof.
  unfold Version.compare, Version.compare_at, lex_lt3. cbn.
  destruct (Z.ltb_spec a0 b0); [eexists; split; [reflexivity|lia]|].
  destruct (Z.gtb_spec a0 b0); [eexists; split; [reflexivity|lia]|]. cbn.
  destruct (Z.ltb_spec a1 b1); [eexists; split; [reflexivity|lia]|].
  destruct (Z.gtb_spec a1 b1); [eexists; split; [reflexivity|lia]|]. cbn.
  destruct (Z.ltb_spec a2 b2); [eexists; split; [reflexivity|lia]|].
  destruct (Z.gtb_spec a2 b2); [eexists; split; [reflexivity|lia]|].
  eexists; split; [reflexivity|].
  right. left. split; [reflexivity|]. repeat f_equal; lia.
Qed.

Lemma length_three {A} (xs : list A) :
  length xs = 3 -> exists x0 x1 x2, xs = [x0; x1; x2].
Proof.
  destruct xs as [|x0 [|x1 [|x2 [|x3 xs]]]]; try discriminate. eauto.
Qed.

Lemma list_three_eq (a0 a1 a2 b0 b1 b2 : Z) :
  [a0; a1; a2] = [b0; b1; b2] <-> a0 = b0 /\ a1 = b1 /\ a2 = b2.
Proof. split; [intros [= -> -> ->]; auto | intros (-> & -> & ->); reflexivity]. Qed.

(** X9: on versions of three integers [__cmp__] is the lexicographic order:
    it returns -1, 0 or 1 according to whether the first version is
    lexicographically smaller than, equal to or greater than the second;
    swapping the arguments negates the result, and the order is
    transitive. *)
Theorem Version_cmp_lexicographic (int : string -> result Z) a b c :
  length (Version.version a) = 3 ->
  length (Version.version b) = 3 ->
  length (Version.version c) = 3 ->
  exists ab ba bc ac,
    Version.__cmp__ int a (inr b) = Ok ab /\
    Version.__cmp__ int b (inr a) = Ok ba /\
    Version.__cmp__ int b (inr c) = Ok bc /\
    Version.__cmp__ int a (inr c) = Ok ac /\
    (ab = -1 <-> lex_lt3 (Version.version a) (Version.version b))%Z /\
    (ab = 0 <-> Version.version a = Version.version b)%Z /\
    (ab = 1 <-> lex_lt3 (Version.version b) (Version.version a))%Z /\
    (ba = - ab)%Z /\
    (ab <= 0 -> bc <= 0 -> ac <= 0)%Z /\
    (ab < 0 -> bc <= 0 -> ac < 0)%Z.
Proof.
  destruct a as [va], b as [vb], c as [vc]. cbn [Version.version].
  intros Ha Hb Hc.
  apply length_three in Ha as (a0 & a1 & a2 & ->).
  apply length_three in Hb as (b0 & b1 & b2 & ->).
  apply length_three in Hc as (c0 & c1 & c2 & ->).
  destruct (Version_compare_three a0 a1 a2 b0 b1 b2) as (ab & Hab & Sab).
  destruct (Version_compare_three b0 b1 b2 a0 a1 a2) as (ba & Hba & Sba).
  destruct (Version_compare_three b0 b1 b2 c0 c1 c2) as (bc & Hbc & Sbc).
  destruct (Version_compare_three a0 a1 a2 c0 c1 c2) as (ac & Hac & Sac).
  exists ab, ba, bc, ac.
  unfold Version.__cmp__. cbn [result_bind].
  rewrite Hab, Hba, Hbc, Hac.
  rewrite !list_three_eq in *. unfold lex_lt3 in *.
  repeat split; try reflexivity; lia.
Qed.

Lemma pretty_Z_no_dot (z : Z) : str_count "."%char (pretty z) = 0.
Proof.
  destruct z as [|p|p].
  - reflexivity.
  - change (pretty (Z.pos p)) with (pretty (N.pos p)).
    apply (str_all_count is_digit); [apply pretty_N_decimal | reflexivity].
  - change (pretty (Z.neg p)) with ("-" +:+ pretty (N.pos p)).
    change ("-" +:+ pretty (N.pos p)) with (String "-" (pretty (N.pos p))).
    cbn [str_count].
    rewrite (str_all_count is_digit); [reflexivity | apply pretty_N_decimal | reflexivity].
Qed.

(** X10: a version of three integers survives the round trip through its
    string form: [repr] gives the three numerals joined by dots, and
    [Version] applied to that string gives the version back, provided [int]
    reads each numeral as the number it denotes. *)
Theorem Version_repr_round_trip (int : string -> result Z) v :
  length (Version.version v) = 3 ->
  Forall (fun n => int (pretty n) = Ok n) (Version.version v) ->
  exists s,
    Version.__repr__ v = Ok s /\
    s = str_join "."%char (map pretty (Version.version v)) /\
    Version.__init__ int s = Ok v.
Proof.
  destruct v as [numbers]. cbn [Version.version]. intros Hlen Hint.
  apply length_three in Hlen as (major & minor & patch & ->).
  eexists. split; [reflexivity|]. split; [reflexivity|].
  unfold Version.__init__.
  change (pretty major +:+ "." +:+ pretty minor +:+ "." +:+ pretty patch)
    with (pretty major +:+ String "." (pretty minor +:+ String "." (pretty patch))).
  rewrite (str_split_app "."%char (pretty major)) by apply pretty_Z_no_dot.
  rewrite (str_split_app "."%char (pretty minor)) by apply pretty_Z_no_dot.
  rewrite (str_split_no_sep "."%char (pretty patch)) by apply pretty_Z_no_dot.
  cbn [length Nat.eqb negb map_result].
  apply Forall_cons in Hint as [-> Hint].
  apply Forall_cons in Hint as [-> Hint].
  apply Forall_cons in Hint as [-> _].
  reflexivity.
Qed.

(** ** The parameter validator: errors and result *)

Section ValidatorResult.
Context {value : Type} `{PyObject value}.

Lemma processParameter_raises paramname (paramdef : ParameterDefinition.t value)
    finalparams params e params' :
  processParameter paramname paramdef finalparams params = (Raise e, params') ->
  is_OGCException e = true.
Proof.
  unfold processParameter. intros Hstep.
  repeat case_match; simplify_eq; try reflexivity; assumption.
Qed.

(** X11: for a request name that the handler knows, every failure of
    [processParameters] is a request error: whatever exception a cast
    raises, the caller sees an [OGCException]. *)
Theorem processParameters_raises_only_OGCException
    (SERVICE_PARAMS : gmap string (list (string * ParameterDefinition.t value)))
    requestname schema params e :
  SERVICE_PARAMS !! requestname = Some schema ->
  fst (processParameters SERVICE_PARAMS requestname params) = Raise e ->
  is_OGCException e = true.
Proof.
  intros Hschema. unfold processParameters. rewrite Hschema. clear Hschema.
  generalize (∅ : gmap string value) as finalparams. revert params.
  induction schema as [|[pn pd] items IH]; intros params finalparams; cbn.
  - discriminate.
  - destruct (processParameter pn pd finalparams params) as [[fp1|e1] params1] eqn:Hstep.
    + apply IH.
    + cbn. intros [= ->]. eapply processParameter_raises; eauto.
Qed.

(** One successful iteration: what it stores is validated, and it stores
    under its own key only. *)
Lemma processParameter_ok paramname (paramdef : ParameterDefinition.t value)
    finalparams params fp' params' :
  processParameter paramname paramdef finalparams params = (Ok fp', params') ->
  (fp' = finalparams /\ params !! paramname = None /\
   forall v, ~ validated params paramname paramdef v) \/
  (exists v, fp' = <[paramname := v]> finalparams /\
     validated params paramname paramdef v).
Proof.
  unfold processParameter, validated, has_key.
  destruct (params !! paramname) as [raw|] eqn:Hraw; cbn [negb andb].
  - destruct (ParameterDefinition.cast paramdef raw) as [v0|e] eqn:Hcast.
    + intros Hstep. right.
      destruct (allowedvalues_truth _ && not_in_allowedvalues v0 _) eqn:Hillegal.
      * destruct (ParameterDefinition.fallback paramdef) eqn:Hfb; [|discriminate].
        cbn in Hstep. injection Hstep as <- _.
        eexists. split; [reflexivity|]. exists v0. rewrite Hillegal. auto.
      * injection Hstep as <- _.
        eexists. split; [reflexivity|]. exists v0. rewrite Hillegal. auto.
    + destruct (is_OGCException e); discriminate.
  - destruct (ParameterDefinition.mandatory paramdef) eqn:Hmand; [discriminate|].
    cbn [negb andb].
    destruct (truth (ParameterDefinition.default paramdef)) eqn:Htruth.
    + intros [= <- _]. right. eexists. split; [reflexivity|]. auto.
    + intros [= <- _]. left. repeat split. intros v (_ & Hdefault & _). congruence.
Qed.

Lemma validated_functional params paramname (paramdef : ParameterDefinition.t value) v1 v2 :
  validated params paramname paramdef v1 ->
  validated params paramname paramdef v2 -> v1 = v2.
Proof.
  unfold validated. destruct (params !! paramname) as [raw|].
  - intros (v0 & Hcast & Hv1) (v0' & Hcast' & Hv2).
    rewrite Hcast in Hcast'. injection Hcast' as <-.
    destruct (_ && _); [destruct Hv1 as [_ ->], Hv2 as [_ ->]|]; congruence.
  - intros (_ & _ & ->) (_ & _ & ->). reflexivity.
Qed.

Lemma validated_other params paramname (paramdef : ParameterDefinition.t value) v k x :
  k <> paramname ->
  validated (<[k := x]> params) paramname paramdef v <->
  validated params paramname paramdef v.
Proof. intros Hne. unfold validated. now rewrite lookup_insert_ne. Qed.

(** The result of the loop, key by key: the value validated by the item
    that declares the key, or what the accumulator held when no item
    validates the key. *)
Lemma processItems_result items finalparams params final params' :
  NoDup items.*1 ->
  processItems items finalparams params = (Ok final, params') ->
  forall k v, final !! k = Some v <->
    (exists paramdef, (k, paramdef) ∈ items /\ validated params k paramdef v) \/
    (finalparams !! k = Some v /\
     forall paramdef v', (k, paramdef) ∈ items -> ~ validated params k paramdef v').
Proof.
  revert finalparams params.
  induction items as [|[pn pd] items IH]; intros finalparams params Hnd; cbn.
  - intros [= <- _] k v. split.
    + intros Hk. right. split; [exact Hk|]. intros pd v' Hin. now apply elem_of_nil in Hin.
    + intros [(pd & Hin & _)|[Hk _]]; [now apply elem_of_nil in Hin | exact Hk].
  - apply NoDup_cons in Hnd as [Hpn Hnd]. cbn in Hpn.
    destruct (processParameter pn pd finalparams params) as [[fp1|e] params1] eqn:Hstep;
      [|discriminate].
    intros Hrun k v.
    assert (Hrest : forall pd', (k, pd') ∈ items -> k <> pn).
    { intros pd' Hin ->. apply Hpn. apply list_elem_of_fmap. now exists (pn, pd'). }
    assert (Hparams : forall pd' v', k <> pn ->
              validated params1 k pd' v' <-> validated params k pd' v').
    { intros pd' v' Hne.
      destruct (processParameter_store _ _ _ _ _ _ Hstep)
        as [-> | (raw & x & _ & _ & ->)]; [reflexivity|].
      apply validated_other. congruence. }
    rewrite (IH _ _ Hnd Hrun k v). clear IH Hrun.
    destruct (decide (k = pn)) as [->|Hne].
    + assert (Hnone : forall pd', (pn, pd') ∉ items)
        by (intros pd' Hin; now apply (Hrest pd' Hin)).
      destruct (processParameter_ok _ _ _ _ _ _ Hstep)
        as [(-> & _ & Hinvalid) | (x & -> & Hx)].
      * split.
        -- intros [(pd' & Hin & _)|[Hfp _]]; [now destruct (Hnone pd')|].
           right. split; [exact Hfp|].
           intros pd' v' [[= ->]|Hin]%elem_of_cons; [apply Hinvalid | now destruct (Hnone pd')].
        -- intros [(pd' & [[= ->]|Hin]%elem_of_cons & Hv)|[Hfp _]].
           ++ now destruct (Hinvalid v).
           ++ now destruct (Hnone pd').
           ++ right. split; [exact Hfp|]. intros pd' v' Hin. now destruct (Hnone pd').
      * rewrite lookup_insert_eq. split.
        -- intros [(pd' & Hin & _)|[[= <-] _]]; [now destruct (Hnone pd')|].
           left. exists pd. split; [now left | exact Hx].
        -- intros [(pd' & [[= ->]|Hin]%elem_of_cons & Hv)|[_ Hinvalid]].
           ++ right. split; [|intros pd' v' Hin; now destruct (Hnone pd')].
              f_equal. eapply validated_functional; eauto.
           ++ now destruct (Hnone pd').
           ++ destruct (Hinvalid pd x); [now left | exact Hx].
    + rewrite (processParameter_final_other _ _ _ _ _ _ k Hstep Hne).
      split.
      * intros [(pd' & Hin & Hv)|[Hfp Hinvalid]].
        -- left. exists pd'. split; [now right | now apply Hparams].
        -- right. split; [exact Hfp|].
           intros pd' v' [[= -> _]|Hin]%elem_of_cons; [done|].
           rewrite <- Hparams by done. now apply Hinvalid.
      * intros [(pd' & [[= -> _]|Hin]%elem_of_cons & Hv)|[Hfp Hinvalid]]; [done| |].
        -- left. exists pd'. split; [exact Hin | now apply Hparams].
        -- right. split; [exact Hfp|].
           intros pd' v' Hin. rewrite Hparams by done. apply Hinvalid. now right.
Qed.

(** X12: the result of a successful [processParameters], for a schema with
    distinct keys: it holds a key exactly when the schema declares it and
    either the request carries it or its definition is optional with a true
    default, and the value is the validated one: the cast of the request's
    value, the default in its place under the fallback policy, or the
    default of an absent key.  Keys that the schema does not declare are
    dropped. *)
Theorem processParameters_result
    (SERVICE_PARAMS : gmap string (list (string * ParameterDefinition.t value)))
    requestname schema params final params' :
  SERVICE_PARAMS !! requestname = Some schema ->
  NoDup schema.*1 ->
  processParameters SERVICE_PARAMS requestname params = (Ok final, params') ->
  (forall k v, final !! k = Some v <->
     exists paramdef, (k, paramdef) ∈ schema /\ validated params k paramdef v) /\
  (forall k, k ∉ schema.*1 -> final !! k = None).
Proof.
  intros Hschema Hnd. unfold processParameters. rewrite Hschema. intros Hrun.
  assert (Hresult : forall k v, final !! k = Some v <->
            exists paramdef, (k, paramdef) ∈ schema /\ validated params k paramdef v).
  { intros k v. rewrite (processItems_result _ _ _ _ _ Hnd Hrun k v).
    rewrite lookup_empty. split; [|auto].
    intros [Hv|[? _]]; [exact Hv | discriminate]. }
  split; [exact Hresult|].
  intros k Hk. destruct (final !! k) as [v|] eqn:Hv; [|reflexivity].
  apply Hresult in Hv as (pd & Hin & _).
  destruct Hk. apply list_elem_of_fmap. now exists (k, pd).
Qed.

End ValidatorResult.

(** ** The map builder: what the layer phase keeps *)

Lemma Map_grows_refl m : Map_grows m m.
Proof.
  repeat split; try reflexivity; try (exists []; now rewrite app_nil_r). auto.
Qed.

Lemma Map_grows_trans m1 m2 m3 : Map_grows m1 m2 -> Map_grows m2 m3 -> Map_grows m1 m3.
Proof.
  intros (Hw & Hh & Hs & Hbg & Hbuf & He & [s1 Hs1] & [l1 Hl1] & Hnd1)
         (Hw' & Hh' & Hs' & Hbg' & Hbuf' & He' & [s2 Hs2] & [l2 Hl2] & Hnd2).
  repeat split; try congruence.
  - exists (s1 ++ s2). now rewrite Hs2, Hs1, app_assoc.
  - exists (l1 ++ l2). now rewrite Hl2, Hl1, app_assoc.
  - auto.
Qed.

Lemma Map_grows_append_style stylename style m :
  Map_grows m (Map.append_style stylename style m).
Proof.
  unfold Map.append_style. case_bool_decide as Hin; [apply Map_grows_refl|].
  repeat split; cbn; try reflexivity.
  - now exists [(stylename, style)].
  - exists []. now rewrite app_nil_r.
  - intros Hnd. rewrite fmap_app. apply NoDup_app. repeat split; [exact Hnd| |].
    + intros x Hx [->|[]%elem_of_nil]%elem_of_cons. contradiction.
    + apply NoDup_singleton.
Qed.

Lemma Map_grows_layers_append layer m : Map_grows m (Map.layers_append layer m).
Proof.
  repeat split; cbn; try reflexivity;
    [exists []; now rewrite app_nil_r | now exists [layer] | auto].
Qed.

Lemma map_layers_append_grows layer m h m' h' :
  map_layers_append layer m h = (Ok m', h') -> Map_grows m m'.
Proof.
  unfold map_layers_append. intros Hrun. inv_bind Hrun.
  injection Hrun as <- _. apply Map_grows_layers_append.
Qed.

Lemma for_each_grows {A} (xs : list A) (body : Map.t -> A -> M Map.t) :
  (forall acc x h acc' h', body acc x h = (Ok acc', h') -> Map_grows acc acc') ->
  forall m h m' h', for_each xs body m h = (Ok m', h') -> Map_grows m m'.
Proof.
  intros Hbody m h m' h'.
  apply (for_each_ok_invariant (fun acc => Map_grows m acc)); [|apply Map_grows_refl].
  intros acc x hx acc' hx' Hacc Hstep.
  eapply Map_grows_trans; eauto.
Qed.

Lemma overlay_layer_grows self m layer_obj h m' h' :
  overlay_layer self m layer_obj h = (Ok m', h') -> Map_grows m m'.
Proof.
  unfold overlay_layer. intros Hrun. inv_bind Hrun. inv_bind Hrun.
  destruct (Layer.meta_style a0) as [meta_style|].
  - inv_bind Hrun. inv_bind Hrun.
    apply map_layers_append_grows in Hrun.
    eapply Map_grows_trans; [apply Map_grows_append_style | exact Hrun].
  - injection Hrun as <- _. apply Map_grows_refl.
Qed.

Lemma all_layer_grows self m layer_obj h m' h' :
  all_layer self m layer_obj h = (Ok m', h') -> Map_grows m m'.
Proof.
  unfold all_layer. intros Hrun. inv_bind Hrun. inv_bind Hrun.
  destruct (Layer.meta_style a0) as [meta_style|].
  - injection Hrun as <- _. apply Map_grows_refl.
  - inv_bind Hrun. inv_bind Hrun. inv_bind Hrun. inv_bind Hrun.
    apply map_layers_append_grows in Hrun.
    eapply Map_grows_trans; [|exact Hrun].
    match goal with
    | Hreg : for_each _ _ m _ = (Ok _, _) |- _ => revert Hreg; apply for_each_grows
    end.
    intros acc stylename hs acc' hs' Hstep. cbn beta in Hstep.
    destruct (_ !! stylename) as [style|]; injection Hstep as <- _;
      [apply Map_grows_append_style | apply Map_grows_refl].
Qed.

Lemma style_layer_grows self layer layername reqstyle m h m' h' :
  style_layer self layer layername reqstyle m h = (Ok m', h') -> Map_grows m m'.
Proof.
  unfold style_layer. intros Hrun. do 3 inv_bind Hrun.
  apply map_layers_append_grows in Hrun.
  eapply Map_grows_trans; [|exact Hrun].
  match goal with
  | Hreg : for_each _ _ m _ = (Ok _, _) |- _ => revert Hreg; apply for_each_grows
  end.
  intros acc stylename hs acc' hs' Hstep. cbn beta in Hstep.
  destruct (_ !! stylename) as [style|]; [|discriminate].
  injection Hstep as <- _. apply Map_grows_append_style.
Qed.

Lemma explicit_layer_grows self params m entry h m' h' :
  explicit_layer self params m entry h = (Ok m', h') -> Map_grows m m'.
Proof.
  unfold explicit_layer. destruct entry as [layerindex layername]. intros Hrun.
  destruct (_ !! layername) as [meta_layer|].
  - inv_bind Hrun. inv_bind Hrun. inv_bind Hrun.
    apply map_layers_append_grows in Hrun.
    eapply Map_grows_trans; [apply Map_grows_append_style | exact Hrun].
  - do 5 inv_bind Hrun. eapply style_layer_grows; eauto.
Qed.

Lemma resolve_layers_grows self params m h m' h' :
  resolve_layers self params m h = (Ok m', h') -> Map_grows m m'.
Proof.
  unfold resolve_layers. intros Hrun. inv_bind Hrun.
  destruct a as [|first rest];
    [revert Hrun; apply for_each_grows; intros; eapply explicit_layer_grows; eauto|].
  destruct (str_in first _);
    [revert Hrun; apply for_each_grows; intros; eapply overlay_layer_grows; eauto|].
  destruct (String.eqb first "__all__"); revert Hrun; apply for_each_grows; intros;
    [eapply all_layer_grows | eapply explicit_layer_grows]; eauto.
Qed.

(** ** The map builder: what a successful build implies *)

Lemma getitem_ok_inv {A} key (entry : option A) (h h' : gmap positive Layer.t) a :
  getitem key entry h = (Ok a, h') -> entry = Some a /\ h' = h.
Proof. destruct entry; cbn; [intros [= -> ->]; auto | discriminate]. Qed.

Lemma getindex_ok_inv {A} (xs : list A) index (h h' : gmap positive Layer.t) a :
  getindex xs index h = (Ok a, h') -> xs !! index = Some a /\ h' = h.
Proof.
  unfold getindex. destruct (xs !! index); cbn; [intros [= -> ->]; auto | discriminate].
Qed.

Ltac inv_get H :=
  first [ apply getitem_ok_inv in H as [H ->]
        | apply getindex_ok_inv in H as [H ->] ].

Lemma check_crs_bbox_ok_inv self params h h' :
  check_crs_bbox self params h = (Ok tt, h') ->
  exists crs bbox minx miny maxx maxy,
    Params.crs params = Some crs /\
    str_in (CRS.__repr__ crs) (WMSBaseServiceHandler.allowedepsgcodes self) = true /\
    Params.bbox params = Some bbox /\
    bbox !! 0 = Some minx /\ bbox !! 1 = Some miny /\
    bbox !! 2 = Some maxx /\ bbox !! 3 = Some maxy /\
    float_ge minx maxx = false /\ float_ge miny maxy = false.
Proof.
  unfold check_crs_bbox. intros Hrun.
  inv_bind Hrun. inv_get Hrun0.
  destruct (str_in _ _) eqn:Hin; [|discriminate]. cbn [negb] in Hrun.
  inv_bind Hrun. inv_get Hrun1.
  inv_bind Hrun. inv_get Hrun2.
  inv_bind Hrun. inv_get Hrun3.
  destruct (float_ge a1 a2) eqn:Hx; [discriminate|].
  inv_bind Hrun. inv_get Hrun4.
  inv_bind Hrun. inv_get Hrun5.
  destruct (float_ge a3 a4) eqn:Hy; [discriminate|].
  exists a, a0, a1, a3, a2, a4. repeat split; assumption.
Qed.

Lemma new_map_ok_inv params h m h' :
  new_map params h = (Ok m, h') ->
  exists crs,
    Params.crs params = Some crs /\
    Params.width params = Some (Map.width m) /\
    Params.height params = Some (Map.height m) /\
    m = Map.__init__ (Map.width m) (Map.height m) ("+init=" +:+ CRS.__repr__ crs).
Proof.
  unfold new_map. intros Hrun.
  inv_bind Hrun. inv_get Hrun0.
  inv_bind Hrun. inv_get Hrun1.
  inv_bind Hrun. inv_get Hrun2.
  injection Hrun as <- _. exists a1. repeat split; assumption.
Qed.

(** The phases of a successful build. *)
Lemma _buildMap_ok_inv self params h m h' :
  _buildMap self params h = (Ok m, h') ->
  exists m0 m1 m2 m3 h0 h1 h2 h3 h4,
    check_crs_bbox self params h = (Ok tt, h0) /\
    new_map params h0 = (Ok m0, h1) /\
    set_map_background self params m0 h1 = (Ok m1, h2) /\
    set_map_buffer_size self params m1 h2 = (Ok m2, h3) /\
    resolve_layers self params m2 h3 = (Ok m3, h4) /\
    zoom_to_bbox params m3 h4 = (Ok m, h').
Proof.
  unfold _buildMap. intros Hrun. do 5 inv_bind Hrun.
  destruct a. repeat eexists; eassumption.
Qed.

Lemma set_map_background_keeps self params m h m' h' :
  set_map_background self params m h = (Ok m', h') ->
  Map.width m' = Map.width m /\ Map.height m' = Map.height m /\
  Map.srs m' = Map.srs m /\ Map.buffer_size m' = Map.buffer_size m /\
  Map.styles m' = Map.styles m /\ Map.layers m' = Map.layers m /\
  Map.extent m' = Map.extent m.
Proof.
  unfold set_map_background. intros Hrun.
  destruct (Params.transparent params) as [transparent|].
  - destruct (str_in transparent _).
    + inv_bind Hrun. destruct a; injection Hrun as <- _; repeat split.
    + injection Hrun as <- _. repeat split.
  - destruct (MapAttributes.bgcolor _); injection Hrun as <- _; repeat split.
Qed.

Lemma set_map_buffer_size_spec self params m h m' h' :
  set_map_buffer_size self params m h = (Ok m', h') ->
  Map.width m' = Map.width m /\ Map.height m' = Map.height m /\
  Map.srs m' = Map.srs m /\ Map.styles m' = Map.styles m /\
  Map.layers m' = Map.layers m /\ Map.extent m' = Map.extent m /\
  Map.buffer_size m' =
    match Params.buffer_size params with
    | Some buffer_size => if (buffer_size =? 0)%Z then Map.buffer_size m else Some buffer_size
    | None =>
        match MapAttributes.buffer_size
                (MapFactory.map_attributes (WMSBaseServiceHandler.mapfactory self)) with
        | Some buffer_ => if (buffer_ =? 0)%Z then Map.buffer_size m else Some buffer_
        | None => Map.buffer_size m
        end
    end.
Proof.
  unfold set_map_buffer_size. intros Hrun.
  destruct (Params.buffer_size params) as [b|].
  - destruct (b =? 0)%Z; injection Hrun as <- _; repeat split.
  - destruct (MapAttributes.buffer_size _) as [b|].
    + destruct (b =? 0)%Z; injection Hrun as <- _; repeat split.
    + injection Hrun as <- _. repeat split.
Qed.

Lemma zoom_to_bbox_ok_inv params m h m' h' :
  zoom_to_bbox params m h = (Ok m', h') ->
  exists bbox minx miny maxx maxy,
    Params.bbox params = Some bbox /\
    bbox !! 0 = Some minx /\ bbox !! 1 = Some miny /\
    bbox !! 2 = Some maxx /\ bbox !! 3 = Some maxy /\
    m' = Map.zoom_to_box (Envelope.mk minx miny maxx maxy) m.
Proof.
  unfold zoom_to_bbox. intros Hrun.
  inv_bind Hrun. inv_get Hrun0.
  inv_bind Hrun. inv_get Hrun1.
  inv_bind Hrun. inv_get Hrun2.
  inv_bind Hrun. inv_get Hrun3.
  inv_bind Hrun. inv_get Hrun4.
  injection Hrun as <- _. exists a, a0, a1, a2, a3. repeat split; assumption.
Qed.

(** X13: a map that [_buildMap] returns was requested in an allowed CRS
    with a bounding box of at least four coordinates for which neither
    [minx >= maxx] nor [miny >= maxy] holds (further coordinates are
    ignored); it has the requested width and height, the SRS [+init=]
    followed by the CRS's string form, and is zoomed to the box of the first
    four coordinates. *)
Theorem _buildMap_success_header self params h m h' :
  _buildMap self params h = (Ok m, h') ->
  exists crs bbox minx miny maxx maxy,
    Params.crs params = Some crs /\
    str_in (CRS.__repr__ crs) (WMSBaseServiceHandler.allowedepsgcodes self) = true /\
    Params.bbox params = Some bbox /\
    bbox !! 0 = Some minx /\ bbox !! 1 = Some miny /\
    bbox !! 2 = Some maxx /\ bbox !! 3 = Some maxy /\
    float_ge minx maxx = false /\ float_ge miny maxy = false /\
    Params.width params = Some (Map.width m) /\
    Params.height params = Some (Map.height m) /\
    Map.srs m = "+init=" +:+ CRS.__repr__ crs /\
    Map.extent m = Some (Envelope.mk minx miny maxx maxy).
Proof.
  intros Hrun.
  destruct (_buildMap_ok_inv _ _ _ _ _ Hrun)
    as (m0 & m1 & m2 & m3 & h0 & h1 & h2 & h3 & h4 &
        Hcheck & Hnew & Hbg & Hbuf & Hres & Hzoom).
  destruct (check_crs_bbox_ok_inv _ _ _ _ Hcheck)
    as (crs & bbox & minx & miny & maxx & maxy &
        Hcrs & Hin & Hbbox & H0 & H1 & H2 & H3 & Hx & Hy).
  destruct (new_map_ok_inv _ _ _ _ Hnew) as (crs' & Hcrs' & Hw & Hh & Hm0).
  destruct (set_map_background_keeps _ _ _ _ _ _ Hbg) as (Hw1 & Hh1 & Hs1 & _).
  destruct (set_map_buffer_size_spec _ _ _ _ _ _ Hbuf) as (Hw2 & Hh2 & Hs2 & _).
  destruct (resolve_layers_grows _ _ _ _ _ _ Hres) as (Hw3 & Hh3 & Hs3 & _).
  destruct (zoom_to_bbox_ok_inv _ _ _ _ _ Hzoom)
    as (bbox' & minx' & miny' & maxx' & maxy' & Hbbox' & H0' & H1' & H2' & H3' & ->).
  rewrite Hcrs in Hcrs'. injection Hcrs' as <-.
  rewrite Hbbox in Hbbox'. injection Hbbox' as <-.
  exists crs, bbox, minx, miny, maxx, maxy.
  cbn [Map.zoom_to_box Map.width Map.height Map.srs Map.extent].
  repeat split; try assumption.
  - now rewrite Hw3, Hw2, Hw1.
  - now rewrite Hh3, Hh2, Hh1.
  - rewrite Hs3, Hs2, Hs1, Hm0. reflexivity.
  - congruence.
Qed.

(** X14: the buffer of the built map: the request's [buffer_size] when the
    request carries one that is not zero; none when the request carries
    zero (the catalog's default is not consulted then); without a
    [buffer_size] in the request, the catalog's default when it is not
    zero, and none otherwise. *)
Theorem buffer_resolution self params h m h' :
  _buildMap self params h = (Ok m, h') ->
  Map.buffer_size m =
    match Params.buffer_size params with
    | Some buffer_size => if (buffer_size =? 0)%Z then None else Some buffer_size
    | None =>
        match MapAttributes.buffer_size
                (MapFactory.map_attributes (WMSBaseServiceHandler.mapfactory self)) with
        | Some buffer_ => if (buffer_ =? 0)%Z then None else Some buffer_
        | None => None
        end
    end.
Proof.
  intros Hrun.
  destruct (_buildMap_ok_inv _ _ _ _ _ Hrun)
    as (m0 & m1 & m2 & m3 & h0 & h1 & h2 & h3 & h4 &
        Hcheck & Hnew & Hbg & Hbuf & Hres & Hzoom).
  destruct (new_map_ok_inv _ _ _ _ Hnew) as (crs & _ & _ & _ & Hm0).
  destruct (set_map_background_keeps _ _ _ _ _ _ Hbg) as (_ & _ & _ & Hb1 & _).
  destruct (set_map_buffer_size_spec _ _ _ _ _ _ Hbuf) as (_ & _ & _ & _ & _ & _ & Hb2).
  destruct (resolve_layers_grows _ _ _ _ _ _ Hres) as (_ & _ & _ & _ & Hb3 & _).
  destruct (zoom_to_bbox_ok_inv _ _ _ _ _ Hzoom) as (? & ? & ? & ? & ? & _ & _ & _ & _ & _ & ->).
  cbn [Map.zoom_to_box Map.buffer_size]. rewrite Hb3, Hb2, Hb1, Hm0. reflexivity.
Qed.


(** ** The map builder: the styles of the layers are registered *)

Lemma Map_grows_styles m m' stylename :
  Map_grows m m' -> stylename ∈ (Map.styles m).*1 -> stylename ∈ (Map.styles m').*1.
Proof.
  intros (_ & _ & _ & _ & _ & _ & [styles Hstyles] & _) Hin.
  rewrite Hstyles, fmap_app. apply elem_of_app. now left.
Qed.

Lemma append_style_registers stylename style m :
  stylename ∈ (Map.styles (Map.append_style stylename style m)).*1.
Proof.
  unfold Map.append_style. case_bool_decide as Hin; [exact Hin|].
  cbn. rewrite fmap_app. apply elem_of_app. right. cbn. now left.
Qed.

(** Appending a layer whose styles are all registered. *)
Lemma styles_registered_append layer m m0 :
  styles_registered m0 -> Map_grows m0 m ->
  (forall stylename, stylename ∈ Layer.styles layer -> stylename ∈ (Map.styles m).*1) ->
  Map.layers m = Map.layers m0 ->
  styles_registered (Map.layers_append layer m).
Proof.
  intros Hreg Hgrows Hlayer Hlayers lyr Hin stylename Hstyle.
  cbn [Map.layers_append Map.layers Map.styles] in *.
  apply elem_of_app in Hin as [Hin|[->|[]%elem_of_nil]%elem_of_cons].
  - rewrite Hlayers in Hin. eapply Map_grows_styles; eauto.
  - auto.
Qed.

Lemma copy_layer_ok_inv mapnik obj (h : gmap positive Layer.t) layer h' :
  copy_layer mapnik obj h = (Ok layer, h') ->
  exists o, h !! obj = Some o /\ h !! layer = None /\
    h' = <[layer := copy_layer_value mapnik o]> h.
Proof.
  unfold copy_layer. rewrite bind_run. unfold get_layer.
  destruct (h !! obj) as [o|]; [|discriminate].
  unfold new_layer. intros [= <- <-]. exists o. repeat split.
  apply not_elem_of_dom, is_fresh.
Qed.

Lemma styles_append_ok_inv layer stylename (h : gmap positive Layer.t) h' :
  styles_append layer stylename h = (Ok tt, h') ->
  exists lyr, h !! layer = Some lyr /\
    h' = <[layer := Layer.styles_append stylename lyr]> h.
Proof.
  unfold styles_append. destruct (h !! layer) as [lyr|]; [|discriminate].
  intros [= <-]. eauto.
Qed.

Lemma get_layer_ok_inv layer (h : gmap positive Layer.t) lyr h' :
  get_layer layer h = (Ok lyr, h') -> h !! layer = Some lyr /\ h' = h.
Proof.
  unfold get_layer. destruct (h !! layer); [intros [= <- <-]; auto | discriminate].
Qed.

Lemma map_layers_append_ok_inv layer m (h : gmap positive Layer.t) m' h' :
  map_layers_append layer m h = (Ok m', h') ->
  exists lyr, h !! layer = Some lyr /\ m' = Map.layers_append lyr m /\ h' = h.
Proof.
  unfold map_layers_append. intros Hrun. inv_bind Hrun.
  apply get_layer_ok_inv in Hrun0 as [Hlyr ->].
  injection Hrun as <- <-. eauto.
Qed.

(** The loop of lines 453-457: it registers every style of the list, and
    does not touch the store. *)
Lemma register_styles_spec self layername stylenames m (h : gmap positive Layer.t) m' h' :
  for_each stylenames
    (fun m stylename =>
       match MapFactory.styles (WMSBaseServiceHandler.mapfactory self) !! stylename with
       | Some style => ret (Map.append_style stylename style m)
       | None => raise (UndefinedStyle layername stylename)
       end) m h = (Ok m', h') ->
  h' = h /\ Map_grows m m' /\ Map.layers m' = Map.layers m /\
  forall stylename, stylename ∈ stylenames -> stylename ∈ (Map.styles m').*1.
Proof.
  revert m. induction stylenames as [|stylename stylenames IH]; intros m; cbn [for_each].
  - intros [= <- <-]. split; [reflexivity|]. split; [apply Map_grows_refl|].
    split; [reflexivity|]. intros s Hs. now apply elem_of_nil in Hs.
  - intros Hrun. inv_bind Hrun.
    destruct (_ !! stylename) as [style|]; [|discriminate].
    injection Hrun0 as <- <-.
    destruct (IH _ Hrun) as (-> & Hgrows & Hlayers & Hreg).
    split; [reflexivity|]. split; [|split].
    + eapply Map_grows_trans; [apply Map_grows_append_style | exact Hgrows].
    + rewrite Hlayers. unfold Map.append_style. now case_bool_decide.
    + intros s [->|Hs]%elem_of_cons; [|auto].
      eapply Map_grows_styles; [exact Hgrows | apply append_style_registers].
Qed.

Lemma layers_append_style stylename style m :
  Map.layers (Map.append_style stylename style m) = Map.layers m.
Proof. unfold Map.append_style. now case_bool_decide. Qed.

(** A fresh copy that receives one style name and is appended to the map
    after the style of that name is registered. *)
Lemma copied_layer_single_style mapnik obj (h : gmap positive Layer.t) layer h1
    stylename h2 style m m' h' :
  copy_layer mapnik obj h = (Ok layer, h1) ->
  styles_append layer stylename h1 = (Ok tt, h2) ->
  map_layers_append layer (Map.append_style stylename style m) h2 = (Ok m', h') ->
  styles_registered m -> styles_registered m'.
Proof.
  intros Hcopy Hstyle Happend Hreg.
  apply copy_layer_ok_inv in Hcopy as (o & _ & _ & ->).
  apply styles_append_ok_inv in Hstyle as (lyr & Hlyr & ->).
  rewrite lookup_insert_eq in Hlyr. injection Hlyr as <-.
  apply map_layers_append_ok_inv in Happend as (lyr & Hlyr & -> & _).
  rewrite lookup_insert_eq in Hlyr. injection Hlyr as <-.
  apply (styles_registered_append _ _ m); [exact Hreg | apply Map_grows_append_style | |
                                            apply layers_append_style].
  cbn. intros s [->|[]%elem_of_nil]%elem_of_cons. apply append_style_registers.
Qed.

Lemma overlay_layer_registered self m layer_obj h m' h' :
  overlay_layer self m layer_obj h = (Ok m', h') ->
  styles_registered m -> styles_registered m'.
Proof.
  unfold overlay_layer. intros Hrun Hreg. inv_bind Hrun. inv_bind Hrun.
  apply get_layer_ok_inv in Hrun1 as [_ ->].
  destruct (Layer.meta_style a0) as [meta_style|].
  - inv_bind Hrun. destruct a1. inv_bind Hrun. inv_get Hrun2.
    eapply copied_layer_single_style; eauto.
  - now injection Hrun as <- _.
Qed.

Lemma style_layer_registered self layer layername reqstyle m h m' h' :
  style_layer self layer layername reqstyle m h = (Ok m', h') ->
  styles_registered m -> styles_registered m'.
Proof.
  unfold style_layer. intros Hrun Hreg. inv_bind Hrun. inv_bind Hrun. inv_bind Hrun.
  apply get_layer_ok_inv in Hrun1 as [Hlyr ->].
  apply register_styles_spec in Hrun2 as (-> & Hgrows & Hlayers & Hstyles).
  apply map_layers_append_ok_inv in Hrun as (lyr & Hlyr' & -> & _).
  rewrite Hlyr in Hlyr'. injection Hlyr' as <-.
  now apply (styles_registered_append _ _ m).
Qed.

Lemma explicit_layer_registered self params m entry h m' h' :
  explicit_layer self params m entry h = (Ok m', h') ->
  styles_registered m -> styles_registered m'.
Proof.
  unfold explicit_layer. destruct entry as [layerindex layername]. intros Hrun Hreg.
  destruct (_ !! layername) as [meta_layer|].
  - inv_bind Hrun. inv_bind Hrun. destruct a0. inv_bind Hrun. inv_get Hrun2.
    eapply copied_layer_single_style; eauto.
  - do 5 inv_bind Hrun. eapply style_layer_registered; eauto.
Qed.

(** X16: outside the [__all__] mode a built map is self-contained: every
    style that one of its layers names is in the map's style table. *)
Theorem layer_styles_registered self params layers h m h' :
  Params.layers params = Some layers ->
  all_mode layers = false ->
  _buildMap self params h = (Ok m, h') ->
  styles_registered m.
Proof.
  intros Hlayers Hmode Hrun.
  destruct (_buildMap_ok_inv _ _ _ _ _ Hrun)
    as (m0 & m1 & m2 & m3 & h0 & h1 & h2 & h3 & h4 &
        Hcheck & Hnew & Hbg & Hbuf & Hres & Hzoom).
  destruct (new_map_ok_inv _ _ _ _ Hnew) as (crs & _ & _ & _ & Hm0).
  destruct (set_map_background_keeps _ _ _ _ _ _ Hbg) as (_ & _ & _ & _ & _ & Hl1 & _).
  destruct (set_map_buffer_size_spec _ _ _ _ _ _ Hbuf) as (_ & _ & _ & _ & Hl2 & _).
  destruct (zoom_to_bbox_ok_inv _ _ _ _ _ Hzoom) as (? & ? & ? & ? & ? & _ & _ & _ & _ & _ & ->).
  assert (styles_registered m2) as Hreg2.
  { intros layer Hin. rewrite Hl2, Hl1, Hm0 in Hin. now apply elem_of_nil in Hin. }
  assert (styles_registered m3) as Hreg3.
  { revert Hres. unfold resolve_layers. rewrite Hlayers. cbn [getitem]. rewrite bind_run.
    cbn [ret]. destruct layers as [|first rest].
    - apply for_each_ok_invariant; [|exact Hreg2].
      intros; eapply explicit_layer_registered; eauto.
    - cbn [all_mode] in Hmode. destruct (str_in first _).
      + apply for_each_ok_invariant; [|exact Hreg2].
        intros; eapply overlay_layer_registered; eauto.
      + cbn [negb andb] in Hmode. rewrite Hmode.
        apply for_each_ok_invariant; [|exact Hreg2].
        intros; eapply explicit_layer_registered; eauto. }
  exact Hreg3.
Qed.

(** ** Feature info for every layer of the map *)

























Lemma write_features_unbound name features (h : gmap positive Layer.t) :
  write_features None name features h =
  match features with
  | [] => (Ok None, h)
  | _ :: _ => (Raise (UnboundLocalError "writer"), h)
  end.
Proof. now destruct features. Qed.

Lemma query_layer_unbound params querymethod m layerindex name queried
    (h : gmap positive Layer.t) state' h' :
  query_layer params querymethod m layerindex name (None, queried) h = (Ok state', h') ->
  fst state' = None.
Proof.
  unfold query_layer. intros Hrun. do 3 inv_bind Hrun. injection Hrun as <- _.
  cbn [fst] in Hrun2. rewrite write_features_unbound in Hrun2.
  destruct (querymethod _ _ _ _); [|discriminate]. now injection Hrun2 as <- _.
Qed.

Lemma for_each_unbound {A}
    (body : option Writer * list nat -> A -> M (option Writer * list nat)) :
  (forall queried x h state' h',
     body (None, queried) x h = (Ok state', h') -> fst state' = None) ->
  forall xs queried h state' h',
    for_each xs body (None, queried) h = (Ok state', h') -> fst state' = None.
Proof.
  intros Hbody xs queried h state' h'.
  apply (for_each_ok_invariant (fun state => fst state = None)); [|reflexivity].
  intros [writer queried'] x hx acc' hx' Hacc Hstep. cbn in Hacc. subst writer. eauto.
Qed.

Lemma query_all_unbound params querymethod m i j entries queried (h : gmap positive Layer.t) :
  Params.i params = Some i -> Params.j params = Some j ->
  (exists queried',
     for_each entries (query_all_layer params querymethod m) (None, queried) h =
       (Ok (None, queried'), h)) \/
  for_each entries (query_all_layer params querymethod m) (None, queried) h =
    (Raise (UnboundLocalError "writer"), h).
Proof.
  intros Hi Hj. revert queried.
  induction entries as [|[layerindex layer] entries IH]; intros queried; cbn [for_each].
  - left. now exists queried.
  - rewrite bind_run. unfold query_all_layer at 1 3. unfold query_layer.
    rewrite Hi, Hj. cbn [getitem].
    rewrite (bind_ok _ _ h h i) by reflexivity.
    rewrite (bind_ok _ _ h h j) by reflexivity.
    cbv zeta. cbn [fst snd]. rewrite bind_run, write_features_unbound.
    destruct (querymethod m layerindex i j); [|now right].
    cbn [ret]. apply IH.
Qed.

(** X19: a feature-info request whose [info_format] is neither
    [text/plain] nor [text/xml] is never answered with a response; when the
    map builds and the request queries [__all__], the failure is the unbound
    variable [writer], not a request error. *)
Theorem GetFeatureInfo_unknown_format self params querymethod tostring h :
  Params.info_format params <> Some "text/plain" ->
  Params.info_format params <> Some "text/xml" ->
  (exists e, fst (GetFeatureInfo self params querymethod tostring h) = Raise e) /\
  forall m h1 rest i j info_format,
    _buildMap self params h = (Ok m, h1) ->
    Params.info_format params = Some info_format ->
    Params.query_layers params = Some ("__all__" :: rest) ->
    Params.i params = Some i -> Params.j params = Some j ->
    GetFeatureInfo self params querymethod tostring h =
      (Raise (UnboundLocalError "writer"), h1).
Proof.
  intros Hplain Hxml.
  assert (forall info_format, Params.info_format params = Some info_format ->
            String.eqb info_format "text/plain" = false /\
            String.eqb info_format "text/xml" = false) as Hformat.
  { intros info_format Hinfo. split; apply String.eqb_neq; congruence. }
  split.
  - unfold GetFeatureInfo. rewrite bind_run.
    destruct (_buildMap self params h) as [[m|e] h1]; [|now exists e].
    destruct (Params.info_format params) as [info_format|]; [|now eexists].
    cbn [getitem]. rewrite (bind_ok _ _ h1 h1 info_format) by reflexivity. cbv zeta.
    destruct (Hformat info_format eq_refl) as [-> ->].
    rewrite bind_run.
    destruct (getitem "query_layers" (Params.query_layers params) h1) as [[query_layers|e] h2];
      [|now exists e].
    rewrite bind_run.
    match goal with
    | |- context [match ?loop with _ => _ end] => destruct loop as [[state|e] h3] eqn:Hloop
    end; [|now exists e].
    assert (fst state = None) as Hstate.
    { destruct query_layers as [|first rest];
        [|destruct (String.eqb first "__all__")];
        revert Hloop; apply for_each_unbound.
      - intros queried [layerindex layername] hx state' hx' Hrun.
        unfold query_named_layer in Hrun. inv_bind Hrun.
        destruct (str_in layername a); [|discriminate]. inv_bind Hrun.
        destruct (Layer.queryable a0); [|discriminate].
        eapply query_layer_unbound; eauto.
      - intros queried [layerindex layer] hx state' hx' Hrun.
        eapply query_layer_unbound; eauto.
      - intros queried [layerindex layername] hx state' hx' Hrun.
        unfold query_named_layer in Hrun. inv_bind Hrun.
        destruct (str_in layername a); [|discriminate]. inv_bind Hrun.
        destruct (Layer.queryable a0); [|discriminate].
        eapply query_layer_unbound; eauto. }
    rewrite Hstate. now eexists.
  - intros m h1 rest i j info_format Hbuild Hinfo Hquery Hi Hj.
    unfold GetFeatureInfo. rewrite (bind_ok _ _ _ _ _ Hbuild). rewrite Hinfo, Hquery.
    cbn [getitem]. rewrite (bind_ok _ _ h1 h1 info_format) by reflexivity. cbv zeta.
    destruct (Hformat info_format Hinfo) as [-> ->].
    rewrite (bind_ok _ _ h1 h1 ("__all__" :: rest)) by reflexivity.
    cbn [String.eqb Ascii.eqb Bool.eqb].
    destruct (query_all_unbound params querymethod m i j (enumerate (Map.layers m)) [] h1
                Hi Hj) as [[queried' Hloop] | Hloop].
    + now rewrite (bind_ok _ _ h1 h1 _ Hloop).
    + now rewrite (bind_raise _ _ h1 h1 _ Hloop).
Qed.

(** ** The map builder: the layers of the built map *)

Lemma styles_append_all layer stylenames lyr (h : gmap positive Layer.t) :
  h !! layer = Some lyr ->
  for_each stylenames (fun _ stylename => styles_append layer stylename) tt h =
  (Ok tt, <[layer := foldl (fun lyr stylename => Layer.styles_append stylename lyr)
                       lyr stylenames]> h).
Proof.
  revert lyr h. induction stylenames as [|stylename stylenames IH]; intros lyr h Hlyr;
    cbn [for_each foldl].
  - cbn. now rewrite insert_id.
  - rewrite bind_run. unfold styles_append at 1. rewrite Hlyr.
    rewrite (IH (Layer.styles_append stylename lyr)) by apply lookup_insert_eq.
    now rewrite insert_insert_eq.
Qed.

Lemma append_requested_style_run self layer reqstyle lyr (h : gmap positive Layer.t) :
  h !! layer = Some lyr ->
  append_requested_style self layer reqstyle h =
  (Ok tt, <[layer := foldl (fun lyr stylename => Layer.styles_append stylename lyr) lyr
                       (requested_styles (WMSBaseServiceHandler.mapfactory self) reqstyle)]> h).
Proof.
  intros Hlyr. unfold append_requested_style, requested_styles.
  destruct (_ !! reqstyle) as [members|].
  - now apply styles_append_all.
  - unfold styles_append. now rewrite Hlyr.
Qed.

(** The loop of lines 421-423 registers styles and nothing else. *)
Lemma register_known_styles_spec self stylenames m (h : gmap positive Layer.t) m' h' :
  for_each stylenames
    (fun m stylename =>
       match MapFactory.styles (WMSBaseServiceHandler.mapfactory self) !! stylename with
       | Some style => ret (Map.append_style stylename style m)
       | None => ret m
       end) m h = (Ok m', h') ->
  h' = h /\ Map.layers m' = Map.layers m.
Proof.
  revert m. induction stylenames as [|stylename stylenames IH]; intros m; cbn [for_each].
  - intros [= <- <-]. split; reflexivity.
  - intros Hrun. inv_bind Hrun.
    destruct (_ !! stylename) as [style|]; injection Hrun0 as <- <-;
      destruct (IH _ Hrun) as (-> & Hlayers); (split; [reflexivity|]).
    + rewrite Hlayers. apply layers_append_style.
    + exact Hlayers.
Qed.

(** One catalog layer in the [__all__] mode. *)
Lemma all_layer_spec self m layer_obj o (h : gmap positive Layer.t) m' h' :
  h !! layer_obj = Some o ->
  all_layer self m layer_obj h = (Ok m', h') ->
  (forall l v, h !! l = Some v -> h' !! l = Some v) /\
  match Layer.meta_style o with
  | Some _ => Map.layers m' = Map.layers m
  | None =>
      exists reqstyle,
        Layer.wmsdefaultstyle o = Some reqstyle /\
        Map.layers m' =
          Map.layers m ++
          [styled_copy (WMSBaseServiceHandler.mapnik self) o
             (requested_styles (WMSBaseServiceHandler.mapfactory self) reqstyle)]
  end.
Proof.
  intros Hobj Hrun. split.
  { intros l v Hl.
    pose proof (modifies_all_layer self m layer_obj h l v (fun H => H) Hl) as Hkeep.
    now rewrite Hrun in Hkeep. }
  unfold all_layer in Hrun. inv_bind Hrun.
  apply copy_layer_ok_inv in Hrun0 as (o' & Hobj' & _ & ->).
  rewrite Hobj in Hobj'. injection Hobj' as <-.
  inv_bind Hrun. apply get_layer_ok_inv in Hrun0 as [Hlyr ->].
  rewrite lookup_insert_eq in Hlyr. injection Hlyr as <-.
  change (Layer.meta_style (copy_layer_value (WMSBaseServiceHandler.mapnik self) o))
    with (Layer.meta_style o) in Hrun.
  destruct (Layer.meta_style o) as [meta_style|]; [now injection Hrun as <- _|].
  inv_bind Hrun.
  change (Layer.wmsdefaultstyle (copy_layer_value (WMSBaseServiceHandler.mapnik self) o))
    with (Layer.wmsdefaultstyle o) in Hrun0.
  destruct (Layer.wmsdefaultstyle o) as [reqstyle|]; [|discriminate].
  injection Hrun0 as <- <-. exists reqstyle. split; [reflexivity|].
  inv_bind Hrun.
  rewrite (append_requested_style_run self a reqstyle _ _ (lookup_insert_eq _ _ _)) in Hrun0.
  injection Hrun0 as _ <-.
  inv_bind Hrun. apply get_layer_ok_inv in Hrun0 as [Hlyr ->].
  rewrite lookup_insert_eq in Hlyr. injection Hlyr as <-.
  inv_bind Hrun. apply register_known_styles_spec in Hrun0 as (-> & Hlayers).
  apply map_layers_append_ok_inv in Hrun as (lyr & Hlyr & -> & _).
  rewrite lookup_insert_eq in Hlyr. injection Hlyr as <-.
  cbn [Map.layers_append Map.layers]. now rewrite Hlayers.
Qed.

Lemma all_layers_spec self ordered_layers objs m (h : gmap positive Layer.t) m' h' :
  Forall2 (fun layer_obj o => h !! layer_obj = Some o) ordered_layers objs ->
  for_each ordered_layers (all_layer self) m h = (Ok m', h') ->
  exists added,
    Map.layers m' = Map.layers m ++ added /\
    Forall2
      (fun lyr o =>
         exists reqstyle,
           Layer.wmsdefaultstyle o = Some reqstyle /\
           lyr = styled_copy (WMSBaseServiceHandler.mapnik self) o
                   (requested_styles (WMSBaseServiceHandler.mapfactory self) reqstyle))
      added (filter (fun o => Layer.meta_style o = None) objs).
Proof.
  revert objs m h.
  induction ordered_layers as [|layer_obj ordered_layers IH]; intros objs m h Hobjs Hrun.
  - apply Forall2_nil_inv_l in Hobjs as ->. injection Hrun as <- _.
    exists []. split; [now rewrite app_nil_r | constructor].
  - apply Forall2_cons_inv_l in Hobjs as (o & objs' & Hobj & Hobjs & ->).
    cbn [for_each] in Hrun. inv_bind Hrun.
    destruct (all_layer_spec _ _ _ _ _ _ _ Hobj Hrun0) as [Hkeep Hstep].
    destruct (IH objs' a h0) as (added & Hadded & Hall); [|exact Hrun|].
    { eapply Forall2_impl; [exact Hobjs|]. intros l v Hl. now apply Hkeep. }
    rewrite filter_cons. destruct (Layer.meta_style o) as [meta_style|] eqn:Hmeta.
    + rewrite decide_False by discriminate. exists added. split; [congruence | exact Hall].
    + destruct Hstep as (reqstyle & Hdefault & Hstep).
      rewrite decide_True by reflexivity. eexists (_ :: added). split.
      * rewrite Hadded, Hstep. now rewrite <- app_assoc.
      * constructor; [|exact Hall]. now exists reqstyle.
Qed.

(** The phases around the layer phase do not touch the store. *)
Lemma check_crs_bbox_ok_store self params (h : gmap positive Layer.t) h' :
  check_crs_bbox self params h = (Ok tt, h') -> h' = h.
Proof.
  unfold check_crs_bbox. intros Hrun.
  inv_bind Hrun. inv_get Hrun0.
  destruct (str_in _ _); [|discriminate]. cbn [negb] in Hrun.
  inv_bind Hrun. inv_get Hrun1.
  inv_bind Hrun. inv_get Hrun2.
  inv_bind Hrun. inv_get Hrun3.
  destruct (float_ge a1 a2); [discriminate|].
  inv_bind Hrun. inv_get Hrun4.
  inv_bind Hrun. inv_get Hrun5.
  destruct (float_ge a3 a4); [discriminate|].
  now injection Hrun as <-.
Qed.

Lemma new_map_ok_store params (h : gmap positive Layer.t) m h' :
  new_map params h = (Ok m, h') -> h' = h.
Proof.
  unfold new_map. intros Hrun.
  inv_bind Hrun. inv_get Hrun0.
  inv_bind Hrun. inv_get Hrun1.
  inv_bind Hrun. inv_get Hrun2.
  now injection Hrun as _ <-.
Qed.

Lemma set_map_background_ok_store self params m (h : gmap positive Layer.t) m' h' :
  set_map_background self params m h = (Ok m', h') -> h' = h.
Proof.
  unfold set_map_background. intros Hrun.
  destruct (Params.transparent params) as [transparent|].
  - destruct (str_in transparent _).
    + inv_bind Hrun. inv_get Hrun0. destruct a; now injection Hrun as _ <-.
    + now injection Hrun as _ <-.
  - destruct (MapAttributes.bgcolor _); now injection Hrun as _ <-.
Qed.

Lemma set_map_buffer_size_ok_store self params m (h : gmap positive Layer.t) m' h' :
  set_map_buffer_size self params m h = (Ok m', h') -> h' = h.
Proof.
  unfold set_map_buffer_size. intros Hrun.
  destruct (Params.buffer_size params) as [b|].
  - destruct (b =? 0)%Z; now injection Hrun as _ <-.
  - destruct (MapAttributes.buffer_size _) as [b|].
    + destruct (b =? 0)%Z; now injection Hrun as _ <-.
    + now injection Hrun as _ <-.
Qed.

Lemma zoom_to_bbox_ok_store params m (h : gmap positive Layer.t) m' h' :
  zoom_to_bbox params m h = (Ok m', h') -> h' = h.
Proof.
  unfold zoom_to_bbox. intros Hrun.
  inv_bind Hrun. inv_get Hrun0.
  inv_bind Hrun. inv_get Hrun1.
  inv_bind Hrun. inv_get Hrun2.
  inv_bind Hrun. inv_get Hrun3.
  inv_bind Hrun. inv_get Hrun4.
  now injection Hrun as _ <-.
Qed.

(** The layer phase starts on a map without layers, in the caller's store,
    and what it leaves is what the builder returns. *)
Lemma _buildMap_layer_phase self params h m h' :
  _buildMap self params h = (Ok m, h') ->
  exists m2 m3,
    Map.layers m2 = [] /\
    resolve_layers self params m2 h = (Ok m3, h') /\
    Map.layers m = Map.layers m3.
Proof.
  intros Hrun.
  destruct (_buildMap_ok_inv _ _ _ _ _ Hrun)
    as (m0 & m1 & m2 & m3 & h0 & h1 & h2 & h3 & h4 &
        Hcheck & Hnew & Hbg & Hbuf & Hres & Hzoom).
  destruct (new_map_ok_inv _ _ _ _ Hnew) as (crs & _ & _ & _ & Hm0).
  destruct (set_map_background_keeps _ _ _ _ _ _ Hbg) as (_ & _ & _ & _ & _ & Hl1 & _).
  destruct (set_map_buffer_size_spec _ _ _ _ _ _ Hbuf) as (_ & _ & _ & _ & Hl2 & _).
  destruct (zoom_to_bbox_ok_inv _ _ _ _ _ Hzoom) as (? & ? & ? & ? & ? & _ & _ & _ & _ & _ & ->).
  apply check_crs_bbox_ok_store in Hcheck as ->.
  apply new_map_ok_store in Hnew as ->.
  apply set_map_background_ok_store in Hbg as ->.
  apply set_map_buffer_size_ok_store in Hbuf as ->.
  apply zoom_to_bbox_ok_store in Hzoom as ->.
  exists m2, m3. split; [now rewrite Hl2, Hl1, Hm0|]. split; [exact Hres | reflexivity].
Qed.

(** X20: in the [__all__] mode the layers of the built map are, in the
    catalog's order, the copies of the catalog's ordered layers that have no
    [meta_style], each styled with its default style, an aggregate style
    replaced by its members; layers with a [meta_style] are left out, and
    neither the rest of [layers] nor [styles] is consulted. *)
Theorem all_mode_layers self params layers objs h m h' :
  Params.layers params = Some layers ->
  all_mode layers = true ->
  Forall2 (fun layer_obj o => h !! layer_obj = Some o)
    (MapFactory.ordered_layers (WMSBaseServiceHandler.mapfactory self)) objs ->
  _buildMap self params h = (Ok m, h') ->
  Forall2
    (fun lyr o =>
       exists reqstyle,
         Layer.wmsdefaultstyle o = Some reqstyle /\
         lyr = styled_copy (WMSBaseServiceHandler.mapnik self) o
                 (requested_styles (WMSBaseServiceHandler.mapfactory self) reqstyle))
    (Map.layers m) (filter (fun o => Layer.meta_style o = None) objs).
Proof.
  intros Hlayers Hmode Hobjs Hrun.
  destruct (_buildMap_layer_phase _ _ _ _ _ Hrun) as (m2 & m3 & Hempty & Hres & ->).
  unfold resolve_layers in Hres. rewrite Hlayers in Hres. cbn [getitem] in Hres.
  rewrite bind_run in Hres. cbn [ret] in Hres.
  destruct layers as [|first rest]; [discriminate|]. cbn [all_mode] in Hmode.
  apply andb_true_iff in Hmode as [Hoverlay Hall].
  apply negb_true_iff in Hoverlay. rewrite Hoverlay, Hall in Hres.
  destruct (all_layers_spec _ _ _ _ _ _ _ Hobjs Hres) as (added & Hadded & Hall').
  rewrite Hadded, Hempty. exact Hall'.
Qed.

Lemma style_layer_spec self layer layername reqstyle lyr m (h : gmap positive Layer.t) m' h' :
  h !! layer = Some lyr ->
  style_layer self layer layername reqstyle m h = (Ok m', h') ->
  Map.layers m' =
    Map.layers m ++
    [foldl (fun lyr stylename => Layer.styles_append stylename lyr) lyr
       (requested_styles (WMSBaseServiceHandler.mapfactory self) reqstyle)].
Proof.
  intros Hlyr Hrun. unfold style_layer in Hrun. inv_bind Hrun.
  rewrite (append_requested_style_run self layer reqstyle _ _ Hlyr) in Hrun0.
  injection Hrun0 as _ <-.
  inv_bind Hrun. apply get_layer_ok_inv in Hrun0 as [Hlyr' ->].
  rewrite lookup_insert_eq in Hlyr'. injection Hlyr' as <-.
  inv_bind Hrun. apply register_styles_spec in Hrun0 as (-> & _ & Hlayers & _).
  apply map_layers_append_ok_inv in Hrun as (lyr' & Hlyr' & -> & _).
  rewrite lookup_insert_eq in Hlyr'. injection Hlyr' as <-.
  cbn [Map.layers_append Map.layers]. now rewrite Hlayers.
Qed.

(** One requested layer in the explicit mode. *)
Lemma explicit_layer_spec self params m entry (h : gmap positive Layer.t) m' h' :
  explicit_layer self params m entry h = (Ok m', h') ->
  (forall l v, h !! l = Some v -> h' !! l = Some v) /\
  exists lyr, Map.layers m' = Map.layers m ++ [lyr] /\ explicit_layer_of self params h lyr entry.
Proof.
  intros Hrun. split.
  { intros l v Hl.
    pose proof (modifies_explicit_layer self params m entry h l v (fun H => H) Hl) as Hkeep.
    now rewrite Hrun in Hkeep. }
  unfold explicit_layer in Hrun. unfold explicit_layer_of.
  destruct entry as [layerindex layername]. cbv zeta.
  destruct (MapFactory.meta_layers _ !! layername) as [meta_layer|].
  - inv_bind Hrun. apply copy_layer_ok_inv in Hrun0 as (o & Hobj & _ & ->).
    inv_bind Hrun. destruct a0. apply styles_append_ok_inv in Hrun0 as (lyr & Hlyr & ->).
    rewrite lookup_insert_eq in Hlyr. injection Hlyr as <-.
    inv_bind Hrun. inv_get Hrun0.
    apply map_layers_append_ok_inv in Hrun as (lyr & Hlyr & -> & _).
    rewrite lookup_insert_eq in Hlyr. injection Hlyr as <-.
    eexists. split; [cbn [Map.layers_append Map.layers]; now rewrite layers_append_style|].
    exists o. split; [exact Hobj | reflexivity].
  - inv_bind Hrun.
    destruct (MapFactory.layers _ !! layername) as [layer_obj|]; [|discriminate].
    apply copy_layer_ok_inv in Hrun0 as (o & Hobj & _ & ->).
    inv_bind Hrun. inv_get Hrun0. rename a0 into styles, Hrun0 into Hstyles.
    inv_bind Hrun. apply get_layer_ok_inv in Hrun0 as [Hlyr ->].
    rewrite lookup_insert_eq in Hlyr. injection Hlyr as <-.
    fold (style_at styles layerindex) in Hrun.
    inv_bind Hrun. inv_bind Hrun.
    change (Layer.wmsextrastyles (copy_layer_value (WMSBaseServiceHandler.mapnik self) o))
      with (Layer.wmsextrastyles o) in Hrun0.
    change (Layer.wmsdefaultstyle (copy_layer_value (WMSBaseServiceHandler.mapnik self) o))
      with (Layer.wmsdefaultstyle o) in Hrun1.
    assert (h1 = <[a := copy_layer_value (WMSBaseServiceHandler.mapnik self) o]> h /\
            if String.eqb (style_at styles layerindex) ""
            then Layer.wmsdefaultstyle o = Some a1
            else a1 = style_at styles layerindex /\
                 exists wmsextrastyles,
                   Layer.wmsextrastyles o = Some wmsextrastyles /\
                   str_in a1 wmsextrastyles = true) as [-> Hstyle].
    { destruct (String.eqb (style_at styles layerindex) ""); cbn [negb] in Hrun0.
      - injection Hrun0 as _ <-.
        destruct (Layer.wmsdefaultstyle o); [|discriminate].
        now injection Hrun1 as <- <-.
      - injection Hrun1 as <- <-. inv_bind Hrun0.
        destruct (Layer.wmsextrastyles o) as [wmsextrastyles|]; [|discriminate].
        injection Hrun1 as <- <-.
        destruct (str_in _ wmsextrastyles) eqn:Hin; [|discriminate].
        injection Hrun0 as _ <-. split; [reflexivity|]. split; [reflexivity|].
        now exists wmsextrastyles. }
    eexists. split; [exact (style_layer_spec _ _ _ _ _ _ _ _ _ (lookup_insert_eq _ _ _) Hrun)|].
    exists layer_obj, o, styles, a1. repeat split; assumption.
Qed.

Lemma explicit_layers_spec self params h0 entries m (h : gmap positive Layer.t) m' h' :
  catalog_in_store (WMSBaseServiceHandler.mapfactory self) h0 ->
  (forall l v, h0 !! l = Some v -> h !! l = Some v) ->
  for_each entries (explicit_layer self params) m h = (Ok m', h') ->
  exists added,
    Map.layers m' = Map.layers m ++ added /\
    Forall2 (explicit_layer_of self params h0) added entries.
Proof.
  intros Hcatalog. revert m h.
  induction entries as [|entry entries IH]; intros m h Hsub Hrun.
  - injection Hrun as <- _. exists []. split; [now rewrite app_nil_r | constructor].
  - cbn [for_each] in Hrun. inv_bind Hrun.
    destruct (explicit_layer_spec _ _ _ _ _ _ _ Hrun0) as (Hkeep & lyr & Hlyr & Hof).
    destruct (IH a h1) as (added & Hadded & Hall); [auto | exact Hrun |].
    exists (lyr :: added). split; [rewrite Hadded, Hlyr; now rewrite <- app_assoc|].
    constructor; [|exact Hall].
    unfold explicit_layer_of in *. destruct entry as [layerindex layername]. cbv zeta in *.
    destruct (MapFactory.meta_layers _ !! layername) as [meta_layer|] eqn:Hmeta.
    + destruct Hof as (o & Hobj & ->).
      destruct (Hcatalog layername meta_layer (or_introl Hmeta)) as [o0 Hobj0].
      pose proof (Hsub _ _ Hobj0) as Hobj'. rewrite Hobj in Hobj'. injection Hobj' as ->.
      now exists o0.
    + destruct Hof as (layer_obj & o & styles & reqstyle & Hname & Hobj & Hstyles & Hstyle & ->).
      destruct (Hcatalog layername layer_obj (or_intror Hname)) as [o0 Hobj0].
      pose proof (Hsub _ _ Hobj0) as Hobj'. rewrite Hobj in Hobj'. injection Hobj' as ->.
      exists layer_obj, o0, styles, reqstyle. repeat split; assumption.
Qed.

(** X21: in the explicit mode the built map has one layer per requested
    name, in request order: the layer at position [i] is the copy of the
    meta-layer or catalog layer named at position [i] of [layers], styled
    with the layer's name (meta-layer), with the style at position [i] of
    [styles], which is one of the layer's extra styles, or with the layer's
    default style when that position is empty or missing; an aggregate style
    is replaced by its members. *)
Theorem explicit_mode_layers self params layers h m h' :
  Params.layers params = Some layers ->
  explicit_mode layers = true ->
  catalog_in_store (WMSBaseServiceHandler.mapfactory self) h ->
  _buildMap self params h = (Ok m, h') ->
  Forall2 (explicit_layer_of self params h) (Map.layers m) (enumerate layers).
Proof.
  intros Hlayers Hmode Hcatalog Hrun.
  destruct (_buildMap_layer_phase _ _ _ _ _ Hrun) as (m2 & m3 & Hempty & Hres & ->).
  rewrite (resolve_layers_explicit self params layers m2 h Hlayers Hmode) in Hres.
  destruct (explicit_layers_spec _ _ h _ _ _ _ _ Hcatalog (fun l v H => H) Hres)
    as (added & Hadded & Hall).
  rewrite Hadded, Hempty. exact Hall.
Qed.

(** ** The map builder: the overlay mode *)

(** One catalog layer in the overlay mode. *)
Lemma overlay_layer_spec self m layer_obj o (h : gmap positive Layer.t) m' h' :
  h !! layer_obj = Some o ->
  overlay_layer self m layer_obj h = (Ok m', h') ->
  (forall l v, h !! l = Some v -> h' !! l = Some v) /\
  match Layer.meta_style o with
  | None => Map.layers m' = Map.layers m
  | Some meta_style =>
      is_Some (MapFactory.meta_styles (WMSBaseServiceHandler.mapfactory self) !! meta_style) /\
      Map.layers m' =
        Map.layers m ++ [styled_copy (WMSBaseServiceHandler.mapnik self) o [meta_style]]
  end.
Proof.
  intros Hobj Hrun. split.
  { intros l v Hl.
    pose proof (modifies_overlay_layer self m layer_obj h l v (fun H => H) Hl) as Hkeep.
    now rewrite Hrun in Hkeep. }
  unfold overlay_layer in Hrun. inv_bind Hrun.
  apply copy_layer_ok_inv in Hrun0 as (o' & Hobj' & _ & ->).
  rewrite Hobj in Hobj'. injection Hobj' as <-.
  inv_bind Hrun. apply get_layer_ok_inv in Hrun0 as [Hlyr ->].
  rewrite lookup_insert_eq in Hlyr. injection Hlyr as <-.
  change (Layer.meta_style (copy_layer_value (WMSBaseServiceHandler.mapnik self) o))
    with (Layer.meta_style o) in Hrun.
  destruct (Layer.meta_style o) as [meta_style|]; [|now injection Hrun as <- _].
  inv_bind Hrun. destruct a0.
  apply styles_append_ok_inv in Hrun0 as (lyr & Hlyr & ->).
  rewrite lookup_insert_eq in Hlyr. injection Hlyr as <-.
  inv_bind Hrun. inv_get Hrun0.
  apply map_layers_append_ok_inv in Hrun as (lyr & Hlyr & -> & _).
  rewrite lookup_insert_eq in Hlyr. injection Hlyr as <-.
  split; [eexists; exact Hrun0|].
  cbn [Map.layers_append Map.layers]. now rewrite layers_append_style.
Qed.

Lemma overlay_layers_spec self ordered_layers objs m (h : gmap positive Layer.t) m' h' :
  Forall2 (fun layer_obj o => h !! layer_obj = Some o) ordered_layers objs ->
  for_each ordered_layers (overlay_layer self) m h = (Ok m', h') ->
  exists added,
    Map.layers m' = Map.layers m ++ added /\
    Forall2
      (fun lyr o =>
         exists meta_style,
           Layer.meta_style o = Some meta_style /\
           is_Some (MapFactory.meta_styles (WMSBaseServiceHandler.mapfactory self)
                    !! meta_style) /\
           lyr = styled_copy (WMSBaseServiceHandler.mapnik self) o [meta_style])
      added (filter (fun o => is_Some (Layer.meta_style o)) objs).
Proof.
  revert objs m h.
  induction ordered_layers as [|layer_obj ordered_layers IH]; intros objs m h Hobjs Hrun.
  - apply Forall2_nil_inv_l in Hobjs as ->. injection Hrun as <- _.
    exists []. split; [now rewrite app_nil_r | constructor].
  - apply Forall2_cons_inv_l in Hobjs as (o & objs' & Hobj & Hobjs & ->).
    cbn [for_each] in Hrun. inv_bind Hrun.
    destruct (overlay_layer_spec _ _ _ _ _ _ _ Hobj Hrun0) as [Hkeep Hstep].
    destruct (IH objs' a h0) as (added & Hadded & Hall); [|exact Hrun|].
    { eapply Forall2_impl; [exact Hobjs|]. intros l v Hl. now apply Hkeep. }
    rewrite filter_cons. destruct (Layer.meta_style o) as [meta_style|] eqn:Hmeta.
    + destruct Hstep as (Hstyle & Hstep).
      rewrite decide_True by now eexists. eexists (_ :: added). split.
      * rewrite Hadded, Hstep. now rewrite <- app_assoc.
      * constructor; [|exact Hall]. now exists meta_style.
    + rewrite decide_False by (intros [? ?]; discriminate).
      exists added. split; [congruence | exact Hall].
Qed.

(** X22: in the overlay mode the layers of the built map are, in the
    catalog's order, the copies of the catalog's ordered layers that have a
    [meta_style], each styled with that one style, which the catalog's
    meta-styles define; layers without a [meta_style] are left out, and
    neither the rest of [layers] nor [styles] is consulted. *)
Theorem overlay_mode_layers self params layers objs h m h' :
  Params.layers params = Some layers ->
  overlay_mode layers = true ->
  Forall2 (fun layer_obj o => h !! layer_obj = Some o)
    (MapFactory.ordered_layers (WMSBaseServiceHandler.mapfactory self)) objs ->
  _buildMap self params h = (Ok m, h') ->
  Forall2
    (fun lyr o =>
       exists meta_style,
         Layer.meta_style o = Some meta_style /\
         is_Some (MapFactory.meta_styles (WMSBaseServiceHandler.mapfactory self)
                  !! meta_style) /\
         lyr = styled_copy (WMSBaseServiceHandler.mapnik self) o [meta_style])
    (Map.layers m) (filter (fun o => is_Some (Layer.meta_style o)) objs).
Proof.
  intros Hlayers Hmode Hobjs Hrun.
  destruct (_buildMap_layer_phase _ _ _ _ _ Hrun) as (m2 & m3 & Hempty & Hres & ->).
  unfold resolve_layers in Hres. rewrite Hlayers in Hres. cbn [getitem] in Hres.
  rewrite bind_run in Hres. cbn [ret] in Hres.
  destruct layers as [|first rest]; [discriminate|]. cbn [overlay_mode] in Hmode.
  rewrite Hmode in Hres.
  destruct (overlay_layers_spec _ _ _ _ _ _ _ Hobjs Hres) as (added & Hadded & Hall).
  rewrite Hadded, Hempty. exact Hall.
Qed.

(** ** Feature info for named layers *)



(** ** The projection handle and GetMap *)

Lemma upper_app s1 s2 : upper (s1 +:+ s2) = upper s1 +:+ upper s2.
Proof.
  induction s1 as [|c s1 IH]; [reflexivity|].
  rewrite append_cons. cbn [upper]. now rewrite IH, append_cons.
Qed.

Lemma upper_lower_capital (c : ascii) :
  is_upper c = true -> upper_ascii (lower_ascii c) = c /\ Ascii.eqb (lower_ascii c) "=" = false.
Proof. destruct c as [[] [] [] [] [] [] [] []]; cbn; intros; try discriminate; split; reflexivity. Qed.

Lemma upper_lower_capitals s :
  str_all is_upper s = true ->
  upper (lower s) = s /\ str_count "="%char (lower s) = 0.
Proof.
  induction s as [|c s IH]; [split; reflexivity|].
  cbn [str_all]. intros [Hc Hs]%andb_prop.
  destruct (IH Hs) as [IHupper IHcount].
  destruct (upper_lower_capital c Hc) as [Hupper Heq].
  cbn [lower upper str_count]. rewrite Hupper, Heq, IHupper, IHcount. split; reflexivity.
Qed.

Lemma upper_digit (c : ascii) :
  is_digit c = true -> upper_ascii c = c /\ Ascii.eqb c "=" = false.
Proof. destruct c as [[] [] [] [] [] [] [] []]; cbn; intros; try discriminate; split; reflexivity. Qed.

Lemma upper_digits s :
  str_all is_digit s = true -> upper s = s /\ str_count "="%char s = 0.
Proof.
  induction s as [|c s IH]; [split; reflexivity|].
  cbn [str_all]. intros [Hc Hs]%andb_prop.
  destruct (IH Hs) as [IHupper IHcount].
  destruct (upper_digit c Hc) as [Hupper Heq].
  cbn [upper str_count]. rewrite Hupper, Heq, IHupper, IHcount. split; reflexivity.
Qed.

Lemma str_count_app c s1 s2 : str_count c (s1 +:+ s2) = str_count c s1 + str_count c s2.
Proof.
  induction s1 as [|c1 s1 IH]; [reflexivity|].
  rewrite append_cons. cbn [str_count]. rewrite IH. lia.
Qed.

(** The handle of a CRS string in capitals reads back as that string. *)
Lemma epsgstring_proj_definition namespace (n : N) :
  str_all is_upper namespace = true ->
  epsgstring (proj_definition (CRS.__init__ namespace (Z.of_N n))) =
    Ok (namespace +:+ ":" +:+ pretty n).
Proof.
  intros Hupper. destruct (upper_lower_capitals namespace Hupper) as [Hns Hcount].
  destruct (pretty_N_decimal n) as (Hdigits & _ & _).
  destruct (upper_digits _ Hdigits) as [Hnum Hcount'].
  unfold epsgstring, proj_definition, CRS.__init__. cbn [CRS.namespace CRS.code].
  rewrite pretty_Z_of_N.
  change ("+init=" +:+ ?s) with ("+init" +:+ String "=" s).
  rewrite str_split_app by reflexivity.
  rewrite str_split_no_sep.
  2:{ rewrite str_count_app, Hcount. change (":" +:+ pretty n) with (String ":" (pretty n)).
      cbn [str_count]. now rewrite Hcount'. }
  cbn [list_index lookup list_lookup result_bind].
  rewrite upper_app, Hns. change (":" +:+ pretty n) with (String ":" (pretty n)).
  cbn [upper]. now rewrite Hnum.
Qed.

(** X25: the projection handle of a CRS whose namespace was given in
    capitals: the first [forward] or [inverse] creates it from
    [+init=namespace:code] with the lower-cased namespace, later calls reuse
    it, the string form of the CRS is not affected, and [epsgstring] on
    that definition gives back the namespace in capitals, a colon and the
    code. *)
Theorem CRS_projection_handle
    (Projection_forward Projection_inverse : string -> float -> float -> float * float)
    namespace (n : N) :
  str_all is_upper namespace = true ->
  exists crs' definition,
    definition = "+init=" +:+ lower namespace +:+ ":" +:+ pretty n /\
    crs' = CRS.mk (lower namespace) (Z.of_N n) (Some definition) /\
    (forall x y,
       CRS_forward Projection_forward (CRS.__init__ namespace (Z.of_N n)) x y =
         (crs', Projection_forward definition x y) /\
       CRS_inverse Projection_inverse (CRS.__init__ namespace (Z.of_N n)) x y =
         (crs', Projection_inverse definition x y) /\
       CRS_forward Projection_forward crs' x y = (crs', Projection_forward definition x y) /\
       CRS_inverse Projection_inverse crs' x y = (crs', Projection_inverse definition x y)) /\
    CRS.__repr__ crs' = CRS.__repr__ (CRS.__init__ namespace (Z.of_N n)) /\
    epsgstring definition = Ok (namespace +:+ ":" +:+ pretty n).
Proof.
  intros Hupper.
  pose proof (epsgstring_proj_definition namespace n Hupper) as Hepsg.
  unfold proj_definition, CRS.__init__ in Hepsg. cbn [CRS.namespace CRS.code] in Hepsg.
  rewrite pretty_Z_of_N in Hepsg.
  eexists _, _. split; [reflexivity|]. split; [reflexivity|].
  split; [|split; [reflexivity | exact Hepsg]].
  intros x y. unfold CRS_forward, CRS_inverse, proj_definition, CRS.__init__.
  cbn [CRS.namespace CRS.code CRS.proj]. rewrite pretty_Z_of_N. repeat split.
Qed.

Lemma lift_ok_inv {A} (r : result A) (h h' : gmap positive Layer.t) a :
  lift r h = (Ok a, h') -> r = Ok a /\ h' = h.
Proof. destruct r; cbn; [intros [= -> ->]; auto | discriminate]. Qed.

Lemma PIL_TYPE_MAPPING_inv format pil_format :
  PIL_TYPE_MAPPING !! format = Some pil_format ->
  (format = "image/jpeg" /\ pil_format = "jpeg") \/
  (format = "image/png" /\ pil_format = "png") \/
  (format = "image/png8" /\ pil_format = "png256").
Proof.
  unfold PIL_TYPE_MAPPING. intros Hlookup.
  apply lookup_insert_Some in Hlookup as [[<- <-]|[_ Hlookup]]; [now left|].
  apply lookup_insert_Some in Hlookup as [[<- <-]|[_ Hlookup]]; [now right; left|].
  apply lookup_singleton_Some in Hlookup as [<- <-]. now right; right.
Qed.

(** X24: when [GetMap] answers, the map was built and rendered at the
    requested size, the requested format is one of [image/jpeg],
    [image/png] and [image/png8], the content is the image serialized in
    the corresponding PIL format ([jpeg], [png], [png256]), and the content
    type is the requested format without its [8]: [image/png8] is answered
    as [image/png]. *)
Theorem GetMap_outcome {Image} (render : Map.t -> Z -> Z -> result Image)
    (tostring : Image -> string -> string) self params format h resp h' :
  GetMap Image render tostring self params format h = (Ok resp, h') ->
  exists m width height im,
    _buildMap self params h = (Ok m, h') /\
    Params.width params = Some width /\
    Params.height params = Some height /\
    render m width height = Ok im /\
    ((format = Some "image/jpeg" /\
      resp = Response.mk "image/jpeg" (tostring im "jpeg")) \/
     (format = Some "image/png" /\
      resp = Response.mk "image/png" (tostring im "png")) \/
     (format = Some "image/png8" /\
      resp = Response.mk "image/png" (tostring im "png256"))).
Proof.
  unfold GetMap. intros Hrun.
  inv_bind Hrun. rename Hrun0 into Hbuild.
  inv_bind Hrun. inv_get Hrun0.
  inv_bind Hrun. inv_get Hrun1.
  inv_bind Hrun. apply lift_ok_inv in Hrun2 as [Hrender ->].
  inv_bind Hrun. inv_get Hrun2.
  inv_bind Hrun. inv_get Hrun3.
  injection Hrun as <- <-.
  exists a, a0, a1, a2. repeat (split; [assumption|]).
  destruct (PIL_TYPE_MAPPING_inv _ _ Hrun3) as [[-> ->]|[[-> ->]|[-> ->]]];
    [left | right; left | right; right]; now split.
Qed.

(** ** The further properties on examples *)

(** [LAYERS=roads,rivers] as a list of strings. *)
Lemma ListFactory_never_empty_witness :
  length ["roads"; "rivers"] = S (str_count ","%char "roads,rivers") /\
  ["roads"; "rivers"] <> [] /\
  ("roads,rivers" = "" -> exists value, str_piece "" = Ok value /\ ["roads"; "rivers"] = [value]).
Proof.
  apply (ListFactory_never_empty str_piece "roads,rivers" ["roads"; "rivers"]).
  reflexivity.
Defined.

Lemma ListFactory_join_witness :
  ListFactory str_piece (str_join ","%char ["roads"; "rivers"]) =
    Ok (map (fun piece => piece) ["roads"; "rivers"]).
Proof.
  apply (ListFactory_join str_piece (fun piece => piece) ["roads"; "rivers"]).
  - discriminate.
  - repeat constructor.
  - repeat constructor.
Defined.

(** [EPSG:4326]. *)
Lemma CRSFactory_accepts_witness :
  CRSFactory ["EPSG"] ("EPSG" +:+ ":" +:+ pretty 4326%N +:+ "") =
    Ok (CRS.__init__ "EPSG" (Z.of_N 4326)) /\
  CRS.__repr__ (CRS.__init__ "EPSG" (Z.of_N 4326)) = lower "EPSG" +:+ ":" +:+ pretty 4326%N.
Proof.
  apply (CRSFactory_accepts ["EPSG"] "EPSG" 4326%N "").
  - reflexivity.
  - cbn. lia.
  - apply list_elem_of_here.
  - left. reflexivity.
Defined.

(** [0xFF0000] is red. *)
Lemma ColorFactory_hex_round_trip_witness :
  ColorFactory no_named_color
    ("0x" +:+ hex_byte true 255 +:+ hex_byte true 0 +:+ hex_byte true 0 +:+ "") =
  Ok (Color.mk 255 0 0 255).
Proof.
  apply (ColorFactory_hex_round_trip no_named_color true true true 255 0 0 "");
    [lia | lia | lia | left; reflexivity].
Defined.

Lemma ColorFactory_hex_total_witness :
  ColorFactory no_named_color "0xff0000" = ColorFactory every_name_red "0xff0000" /\
  exists r g b,
    ColorFactory no_named_color "0xff0000" = Ok (Color.mk r g b 255) /\
    (0 <= r < 256)%Z /\ (0 <= g < 256)%Z /\ (0 <= b < 256)%Z.
Proof.
  apply (ColorFactory_hex_total no_named_color every_name_red "0xff0000").
  reflexivity.
Defined.

(** 1.1.1 against 1.3.0. *)
Lemma Version_cmp_lexicographic_witness :
  exists ab ba bc ac,
    Version.__cmp__ decimal_int version_1_1_1 (inr version_1_3_0) = Ok ab /\
    Version.__cmp__ decimal_int version_1_3_0 (inr version_1_1_1) = Ok ba /\
    Version.__cmp__ decimal_int version_1_3_0 (inr version_1_3_0) = Ok bc /\
    Version.__cmp__ decimal_int version_1_1_1 (inr version_1_3_0) = Ok ac /\
    (ab = -1 <-> lex_lt3 (Version.version version_1_1_1) (Version.version version_1_3_0))%Z /\
    (ab = 0 <-> Version.version version_1_1_1 = Version.version version_1_3_0)%Z /\
    (ab = 1 <-> lex_lt3 (Version.version version_1_3_0) (Version.version version_1_1_1))%Z /\
    (ba = - ab)%Z /\
    (ab <= 0 -> bc <= 0 -> ac <= 0)%Z /\
    (ab < 0 -> bc <= 0 -> ac < 0)%Z.
Proof.
  apply (Version_cmp_lexicographic decimal_int version_1_1_1 version_1_3_0 version_1_3_0);
    reflexivity.
Defined.

Lemma Version_repr_round_trip_witness :
  exists s,
    Version.__repr__ version_1_3_0 = Ok s /\
    s = str_join "."%char (map pretty (Version.version version_1_3_0)) /\
    Version.__init__ decimal_int s = Ok version_1_3_0.
Proof.
  apply (Version_repr_round_trip decimal_int version_1_3_0).
  - reflexivity.
  - repeat constructor.
Defined.

(** [WIDTH=wide]: the cast raises [ValueError]. *)
Lemma processParameters_raises_only_OGCException_witness :
  exists e,
    fst (processParameters example_SERVICE_PARAMS "GetMap" wide_request) = Raise e /\
    is_OGCException e = true.
Proof.
  destruct (fst (processParameters example_SERVICE_PARAMS "GetMap" wide_request))
    as [final|e] eqn:Hrun.
  - vm_compute in Hrun. discriminate.
  - exists e. split; [reflexivity|].
    apply (processParameters_raises_only_OGCException example_SERVICE_PARAMS "GetMap"
             [("width", width_definition); ("layers", layers_definition)]
             wide_request e eq_refl Hrun).
Defined.

(** A request with the undeclared key [debug]. *)
Lemma processParameters_result_witness :
  exists final params',
    processParameters example_SERVICE_PARAMS "GetMap" map_request_with_extra_key =
      (Ok final, params') /\
    final !! "debug" = None.
Proof.
  destruct (processParameters example_SERVICE_PARAMS "GetMap" map_request_with_extra_key)
    as [[final|e] params'] eqn:Hrun.
  - exists final, params'. split; [reflexivity|].
    apply (processParameters_result example_SERVICE_PARAMS "GetMap"
             [("width", width_definition); ("layers", layers_definition)]
             map_request_with_extra_key final params' eq_refl).
    + apply (bool_decide_unpack _). vm_compute. exact I.
    + exact Hrun.
    + apply (bool_decide_unpack _). vm_compute. exact I.
  - vm_compute in Hrun. discriminate.
Defined.

(** [roads] in the style [night] and [rivers] in its default style. *)
Lemma _buildMap_success_header_witness :
  exists m h',
    _buildMap example_handler night_roads_request example_store = (Ok m, h') /\
    Map.srs m = "+init=epsg:4326".
Proof.
  destruct (_buildMap example_handler night_roads_request example_store)
    as [[m|e] h'] eqn:Hrun.
  - exists m, h'. split; [reflexivity|].
    destruct (_buildMap_success_header example_handler night_roads_request example_store
                m h' Hrun)
      as (crs & bbox & minx & miny & maxx & maxy & Hcrs & _ & _ & _ & _ & _ & _ & _ & _ &
          _ & _ & Hsrs & _).
    injection Hcrs as <-. exact Hsrs.
  - vm_compute in Hrun. discriminate.
Defined.

Lemma buffer_resolution_witness :
  exists m h',
    _buildMap example_handler night_roads_request example_store = (Ok m, h') /\
    Map.buffer_size m = None.
Proof.
  destruct (_buildMap example_handler night_roads_request example_store)
    as [[m|e] h'] eqn:Hrun.
  - exists m, h'. split; [reflexivity|].
    apply (buffer_resolution example_handler night_roads_request example_store m h' Hrun).
  - vm_compute in Hrun. discriminate.
Defined.


Lemma layer_styles_registered_witness :
  exists m h',
    _buildMap example_handler night_roads_request example_store = (Ok m, h') /\
    styles_registered m.
Proof.
  destruct (_buildMap example_handler night_roads_request example_store)
    as [[m|e] h'] eqn:Hrun.
  - exists m, h'. split; [reflexivity|].
    apply (layer_styles_registered example_handler night_roads_request ["roads"; "rivers"]
             example_store m h' eq_refl eq_refl Hrun).
  - vm_compute in Hrun. discriminate.
Defined.



(** [info_format=text/html]. *)
Lemma GetFeatureInfo_unknown_format_witness :
  exists e,
    fst (GetFeatureInfo example_handler (info_request "text/html") example_querymethod
           example_tostring example_store) = Raise e.
Proof.
  apply (GetFeatureInfo_unknown_format example_handler (info_request "text/html")
           example_querymethod example_tostring example_store); discriminate.
Defined.

(** Both catalog layers, neither with a [meta_style]. *)
Lemma all_mode_layers_witness :
  exists m h',
    _buildMap example_handler all_layers_request example_store = (Ok m, h') /\
    Forall2
      (fun lyr o =>
         exists reqstyle,
           Layer.wmsdefaultstyle o = Some reqstyle /\
           lyr = styled_copy (WMSBaseServiceHandler.mapnik example_handler) o
                   (requested_styles (WMSBaseServiceHandler.mapfactory example_handler)
                      reqstyle))
      (Map.layers m)
      (filter (fun o => Layer.meta_style o = None) [roads_layer; rivers_layer]).
Proof.
  destruct (_buildMap example_handler all_layers_request example_store)
    as [[m|e] h'] eqn:Hrun.
  - exists m, h'. split; [reflexivity|].
    apply (all_mode_layers example_handler all_layers_request ["__all__"]
             [roads_layer; rivers_layer] example_store m h' eq_refl eq_refl).
    + repeat constructor.
    + exact Hrun.
  - vm_compute in Hrun. discriminate.
Defined.

(** [roads] in the style [night], then [rivers] in its default style. *)
Lemma explicit_mode_layers_witness :
  exists m h',
    _buildMap example_handler night_roads_request example_store = (Ok m, h') /\
    Forall2 (explicit_layer_of example_handler night_roads_request example_store)
      (Map.layers m) (enumerate ["roads"; "rivers"]).
Proof.
  destruct (_buildMap example_handler night_roads_request example_store)
    as [[m|e] h'] eqn:Hrun.
  - exists m, h'. split; [reflexivity|].
    apply (explicit_mode_layers example_handler night_roads_request ["roads"; "rivers"]
             example_store m h' eq_refl eq_refl).
    + intros layername layer_obj [Hmeta|Hlayer].
      * discriminate.
      * unfold example_handler, example_mapfactory in Hlayer.
        cbn [WMSBaseServiceHandler.mapfactory MapFactory.layers] in Hlayer.
        apply lookup_insert_Some in Hlayer as [[_ <-]|[_ Hlayer]]; [now eexists|].
        apply lookup_singleton_Some in Hlayer as [_ <-]. now eexists.
    + exact Hrun.
  - vm_compute in Hrun. discriminate.
Defined.

(** The overlay request on the catalog with one meta-styled layer. *)
Lemma overlay_mode_layers_witness :
  exists m h',
    _buildMap overlay_handler overlay_request overlay_store = (Ok m, h') /\
    Forall2
      (fun lyr o =>
         exists meta_style,
           Layer.meta_style o = Some meta_style /\
           is_Some (MapFactory.meta_styles (WMSBaseServiceHandler.mapfactory overlay_handler)
                    !! meta_style) /\
           lyr = styled_copy (WMSBaseServiceHandler.mapnik overlay_handler) o [meta_style])
      (Map.layers m)
      (filter (fun o => is_Some (Layer.meta_style o)) [overlay_roads_layer; rivers_layer]).
Proof.
  destruct (_buildMap overlay_handler overlay_request overlay_store)
    as [[m|e] h'] eqn:Hrun.
  - exists m, h'. split; [reflexivity|].
    apply (overlay_mode_layers overlay_handler overlay_request ["osm_haiti_overlay"]
             [overlay_roads_layer; rivers_layer] overlay_store m h' eq_refl eq_refl).
    + repeat constructor.
    + exact Hrun.
  - vm_compute in Hrun. discriminate.
Defined.


(** [EPSG:4326]. *)
Lemma CRS_projection_handle_witness :
  exists crs' definition,
    definition = "+init=" +:+ lower "EPSG" +:+ ":" +:+ pretty 4326%N /\
    crs' = CRS.mk (lower "EPSG") (Z.of_N 4326) (Some definition) /\
    (forall x y,
       CRS_forward example_transform (CRS.__init__ "EPSG" (Z.of_N 4326)) x y =
         (crs', example_transform definition x y) /\
       CRS_inverse example_transform (CRS.__init__ "EPSG" (Z.of_N 4326)) x y =
         (crs', example_transform definition x y) /\
       CRS_forward example_transform crs' x y = (crs', example_transform definition x y) /\
       CRS_inverse example_transform crs' x y = (crs', example_transform definition x y)) /\
    CRS.__repr__ crs' = CRS.__repr__ (CRS.__init__ "EPSG" (Z.of_N 4326)) /\
    epsgstring definition = Ok ("EPSG" +:+ ":" +:+ pretty 4326%N).
Proof.
  apply (CRS_projection_handle example_transform example_transform "EPSG" 4326%N).
  reflexivity.
Defined.

(** [FORMAT=image/png8]. *)
Lemma GetMap_outcome_witness :
  exists resp h',
    GetMap nat example_render example_image_tostring example_handler night_roads_request
      (Some "image/png8") example_store = (Ok resp, h') /\
    Response.content_type resp = "image/png".
Proof.
  destruct (GetMap nat example_render example_image_tostring example_handler
              night_roads_request (Some "image/png8") example_store)
    as [[resp|e] h'] eqn:Hrun.
  - exists resp, h'. split; [reflexivity|].
    destruct (GetMap_outcome example_render example_image_tostring example_handler
                night_roads_request (Some "image/png8") example_store resp h' Hrun)
      as (m & width & height & im & _ & _ & _ & _ &
          [[Hformat _]|[[Hformat _]|[_ ->]]]);
      [discriminate | discriminate | reflexivity].
  - vm_compute in Hrun. discriminate.
Defined.
